(** * gltf-pipeline: texture compression and the KTX container parser

    A shallow embedding of [lib/loadKTX.js] and [lib/compressTextures.js],
    and the properties of the specification stated over it.

    Conventions.  JavaScript numbers that the code uses as integers (byte
    offsets, sizes, pixel dimensions, 32-bit header fields) are [Z]; an
    [ArrayBuffer] is a [list byte]; a typed-array view is a buffer with an
    offset and a length; a JavaScript object used as a dictionary is a
    [gmap string _]; an exception is the [Throw] case of [completion]. *)

From Stdlib Require Import ZArith QArith Qround Qabs Qpower List Sorted Strings.Byte String Lia Lqa.
From stdpp Require Import base option list gmap strings.

Local Open Scope string_scope.
Local Open Scope Z_scope.

(** ** The JavaScript notions shared by both source files *)

Module Js.

(** The exceptions the two files can raise: Cesium's [DeveloperError] and
    [RuntimeError], and the engine's own [TypeError] and [RangeError]. *)
Inductive error : Type :=
| DeveloperError (message : string)
| RuntimeError (message : string)
| TypeError (message : string)
| RangeError (message : string).

#[global] Instance error_eq_dec : EqDecision error.
Proof. solve_decision. Defined.

(** The outcome of a synchronous call. *)
Inductive completion (A : Type) : Type :=
| Normal (a : A)
| Throw (e : error).
Arguments Normal {A} a.
Arguments Throw {A} e.

Definition bind {A B} (c : completion A) (k : A -> completion B) : completion B :=
  match c with
  | Normal a => k a
  | Throw e => Throw e
  end.

(** What a name imported from the [cesium] package is bound to, as far as
    this development looks at it: an error constructor, or anything else. *)
Inductive export : Type :=
| ErrorConstructor (make : string -> error)
| OtherExport.

(** Modelled from the Cesium package (an external dependency, not part of
    the repository): the exported names that the two files read.  Reading
    a property that an object does not have gives [undefined], which
    lookup in the map renders as [None]. *)
Definition Cesium : gmap string export :=
  list_to_map
    [ ("Math", OtherExport);
      ("PixelFormat", OtherExport);
      ("combine", OtherExport);
      ("defaultValue", OtherExport);
      ("defined", OtherExport);
      ("defineProperties", OtherExport);
      ("loadArrayBuffer", OtherExport);
      ("when", OtherExport);
      ("DeveloperError", ErrorConstructor DeveloperError);
      ("RuntimeError", ErrorConstructor RuntimeError) ].

(** [new C(message)] where [C] holds the value [binding]; [name] is the
    identifier the source uses for it.  Constructing from [undefined], or
    from a value that is not a constructor, raises a [TypeError]. *)
Definition new_error (name : string) (binding : option export) (message : string) : error :=
  match binding with
  | Some (ErrorConstructor make) => make message
  | _ => TypeError (name ++ " is not a constructor")
  end.

(** *** Numbers

    A JavaScript number is an IEEE 754 binary64 value.  The finite ones
    are represented by the rational they denote (the two zeros are not
    told apart: nothing in the two files divides by a variable or takes a
    sign of zero). *)
Inductive number : Type :=
| NaN
| PosInf
| NegInf
| Fin (q : Q).

(** [floor (log2 a)] for a positive rational [a]. *)
Definition ilog2 (a : Q) : Z :=
  let k := (Z.log2 (Qnum a) - Z.log2 (Zpos (Qden a)))%Z in
  if Qle_bool (Qpower 2 k) a then k else (k - 1)%Z.

(** Round to the nearest integer, ties to the even one. *)
Definition round_half_even (x : Q) : Z :=
  let f := Qfloor x in
  match Qcompare (x - inject_Z f) (1 # 2) with
  | Lt => f
  | Gt => (f + 1)%Z
  | Eq => if Z.even f then f else (f + 1)%Z
  end.

(** The binary64 value nearest to the real number [x] (round to nearest,
    ties to even): 53 significant bits, least exponent -1074, overflow to
    an infinity from 2^1024 on. *)
Definition round64 (x : Q) : number :=
  let e := Z.max (ilog2 (Qabs x) - 52) (-1074) in
  let r := (inject_Z (round_half_even (x / Qpower 2 e)) * Qpower 2 e)%Q in
  if Qle_bool (Qpower 2 1024) r then PosInf
  else if Qle_bool r (- Qpower 2 1024) then NegInf
  else Fin (Qred r).

(** [a / d] and [a * d] for a positive finite constant [d]. *)
Definition div_by (a : number) (d : Q) : number :=
  match a with
  | Fin x => round64 (x / d)
  | other => other
  end.

Definition mul_by (a : number) (d : Q) : number :=
  match a with
  | Fin x => round64 (x * d)
  | other => other
  end.

(** [a < b] on numbers: false as soon as one side is [NaN]. *)
Definition lt (a b : number) : bool :=
  match a, b with
  | NaN, _ | _, NaN => false
  | Fin x, Fin y => negb (Qle_bool y x)
  | NegInf, NegInf => false
  | NegInf, _ => true
  | _, NegInf => false
  | PosInf, _ => false
  | Fin _, PosInf => true
  end.

(** [a === b] on numbers. *)
Definition num_eq (a b : number) : bool :=
  match a, b with
  | Fin x, Fin y => Qeq_bool x y
  | PosInf, PosInf | NegInf, NegInf => true
  | _, _ => false
  end.

(** [Math.floor]. *)
Definition Math_floor (a : number) : number :=
  match a with
  | Fin x => Fin (inject_Z (Qfloor x))
  | other => other
  end.

(** [array[x]] for a number [x]: the element when [x] is an index of the
    array, [undefined] ([None]) otherwise. *)
Definition at_index {A} (array : list A) (x : number) : option A :=
  match x with
  | Fin q =>
      let i := Qfloor q in
      if Qeq_bool q (inject_Z i) && (0 <=? i)%Z then array !! Z.to_nat i else None
  | _ => None
  end.

(** *** 32-bit integer operators *)

Definition ToUint32 (x : Z) : Z := x mod 2 ^ 32.

Definition ToInt32 (x : Z) : Z :=
  let u := ToUint32 x in if u <? 2 ^ 31 then u else u - 2 ^ 32.

(** [a | b], [a & b] and [a >> k] on integral numbers. *)
Definition bit_or (a b : Z) : Z := ToInt32 (Z.lor (ToUint32 a) (ToUint32 b)).
Definition bit_and (a b : Z) : Z := ToInt32 (Z.land (ToUint32 a) (ToUint32 b)).
Definition shift_right (a k : Z) : Z := Z.shiftr (ToInt32 a) (k mod 32).

(** *** Values and objects *)

(** The values an options object holds.  ([null] is left out: the files
    never produce it, and the helpers [defined] and [defaultValue] are
    only applied here to properties that are absent or set.) *)
Inductive value : Type :=
| VUndefined
| VBoolean (b : bool)
| VNumber (x : number)
| VString (s : string).

#[global] Instance Q_eq_dec : EqDecision Q.
Proof. solve_decision. Defined.

#[global] Instance number_eq_dec : EqDecision number.
Proof. solve_decision. Defined.

#[global] Instance value_eq_dec : EqDecision value.
Proof. solve_decision. Defined.

(** [o.k]: [undefined] when [o] has no property [k]. *)
Definition get (o : gmap string value) (k : string) : value :=
  default VUndefined (o !! k).

(** Cesium's [defined(v)] and [defaultValue(a, b)]. *)
Definition defined (v : value) : bool :=
  match v with VUndefined => false | _ => true end.

Definition defaultValue (a b : value) : value :=
  match a with VUndefined => b | _ => a end.

(** Cesium's [combine(object1, object2)]: a new object with the
    properties of both; where both have a property, [object1]'s value
    is used. *)
Definition combine (object1 object2 : gmap string value) : gmap string value :=
  object1 ∪ object2.

Definition ToBoolean (v : value) : bool :=
  match v with
  | VUndefined => false
  | VBoolean b => b
  | VNumber (Fin q) => negb (Qeq_bool q 0)
  | VNumber NaN => false
  | VNumber _ => true
  | VString s => negb (String.eqb s EmptyString)
  end.

(** [a === b]. *)
Definition strict_equal (a b : value) : bool :=
  match a, b with
  | VUndefined, VUndefined => true
  | VBoolean x, VBoolean y => Bool.eqb x y
  | VNumber x, VNumber y => num_eq x y
  | VString x, VString y => String.eqb x y
  | _, _ => false
  end.

(** [array.includes(v)] for an array of strings. *)
Definition includes (array : list string) (v : value) : bool :=
  match v with
  | VString s => bool_decide (s ∈ array)
  | _ => false
  end.

(** The double quote character, as a string. *)
Definition quote : string := String (Ascii.ascii_of_nat 34) EmptyString.

(** [s.indexOf(t)]: the first position of [t] in [s], or -1. *)
Definition indexOf (s t : string) : Z :=
  match String.index 0 t s with
  | Some i => Z.of_nat i
  | None => -1
  end.

(** [s.slice(n)]. *)
Definition slice_from (n : nat) (s : string) : string :=
  String.substring n (String.length s - n) s.

End Js.

Notation "'let!' x ':=' c 'in' k" := (Js.bind c (fun x => k))
  (at level 10, x name, c at level 100, k at level 200).

(** ** lib/loadKTX.js *)

Module KTX.
Import Js.

(** *** Buffers and views *)

Definition ArrayBuffer := list byte.

Definition byteLength (b : ArrayBuffer) : Z := Z.of_nat (List.length b).

(** [slice b off len]: the [len] bytes of [b] from offset [off]. *)
Definition slice (b : ArrayBuffer) (off len : Z) : list byte :=
  take (Z.to_nat len) (drop (Z.to_nat off) b).

(** A [Uint8Array]: a view of [length] bytes of [buffer] from
    [byteOffset].  The view aliases [buffer]; it owns no bytes. *)
Record Uint8Array : Type := mkUint8Array {
  buffer : ArrayBuffer;
  byteOffset : Z;
  length : Z
}.

Definition elements (v : Uint8Array) : list byte :=
  slice (buffer v) (byteOffset v) (length v).

(** What a caller can hand to [parseKTX]: [loadKTX] accepts an
    [ArrayBuffer] or any view ([ArrayBuffer.isView]); a Node [Buffer] is a
    [Uint8Array]. *)
Inductive KTXData : Type :=
| OfArrayBuffer (b : ArrayBuffer)
| OfUint8Array (v : Uint8Array).

(** The bytes the caller passed. *)
Definition contents (data : KTXData) : list byte :=
  match data with
  | OfArrayBuffer b => b
  | OfUint8Array v => elements v
  end.

(** [new Uint8Array(buffer, byteOffset, length)] over an [ArrayBuffer]. *)
Definition Uint8Array_on (b : ArrayBuffer) (off len : Z) : completion Uint8Array :=
  if decide (0 <= off /\ 0 <= len /\ off + len <= byteLength b)
  then Normal (mkUint8Array b off len)
  else Throw (RangeError "Invalid typed array length").

(** [new Uint8Array(data, byteOffset, length)].  Over an [ArrayBuffer] it
    is a view.  When [data] is itself a typed array the constructor copies
    its elements into a fresh buffer and ignores the other two arguments. *)
Definition new_Uint8Array (data : KTXData) (off len : Z) : completion Uint8Array :=
  match data with
  | OfArrayBuffer b => Uint8Array_on b off len
  | OfUint8Array v =>
      Normal (mkUint8Array (elements v) 0 (Z.of_nat (List.length (elements v))))
  end.

(** [new Uint8Array(data)]: the whole buffer, or a copy of the view. *)
Definition Uint8Array_of (data : KTXData) : Uint8Array :=
  match data with
  | OfArrayBuffer b => mkUint8Array b 0 (byteLength b)
  | OfUint8Array v =>
      mkUint8Array (elements v) 0 (Z.of_nat (List.length (elements v)))
  end.

(** The number a byte stands for. *)
Definition byte_value (x : byte) : Z := Z.of_N (Byte.to_N x).

(** [byteBuffer[i]]: [undefined] outside the view. *)
Definition index (v : Uint8Array) (i : nat) : option Z :=
  byte_value <$> (elements v !! i).

(** Little-endian combination of bytes. *)
Fixpoint le_combine (l : list byte) : Z :=
  match l with
  | [] => 0
  | x :: t => Z.lor (byte_value x) (Z.shiftl (le_combine t) 8)
  end.

(** The buffer a [DataView] is made on and the offset reading starts at:
    [data.buffer] and [data.byteOffset] when [data] is a view, [data] itself
    and 0 otherwise. *)
Definition underlying (data : KTXData) : ArrayBuffer * Z :=
  match data with
  | OfUint8Array v => (buffer v, byteOffset v)
  | OfArrayBuffer b => (b, 0)
  end.

(** [view.getUint32(byteOffset, true)] for [view = new DataView(b)]. *)
Definition getUint32 (view : ArrayBuffer) (off : Z) : completion Z :=
  if decide (0 <= off /\ off + 4 <= byteLength view)
  then Normal (le_combine (slice view off 4))
  else Throw (RangeError "Offset is outside the bounds of the DataView").

(** *** The pixel-format table *)

(** [Cesium.PixelFormat] is part of the Cesium package; the parser only
    calls it, so it is an interface here. *)
Class PixelFormatAPI : Type := {
  RGB : Z;
  RGBA : Z;
  validate : Z -> bool;
  isCompressedFormat : Z -> bool;
  compressedTextureSize : Z -> Z -> Z -> Z
}.

(** *** CompressedTextureBuffer *)

Record CompressedTextureBuffer : Type := mkCompressedTextureBuffer {
  _format : Z;
  _width : Z;
  _height : Z;
  _buffer : Uint8Array
}.

Definition internalFormat := _format.
Definition width := _width.
Definition height := _height.
Definition bufferView := _buffer.

(** *** Module-level constants *)

(** [var RuntimeError = Cesium.RuntimError;] (line 9). *)
Definition RuntimeError : option export := Cesium !! "RuntimError".

Definition fileIdentifier : list Z :=
  [0xAB; 0x4B; 0x54; 0x58; 0x20; 0x31; 0x31; 0xBB; 0x0D; 0x0A; 0x1A; 0x0A].
Definition endiannessTest : Z := 0x04030201.
Definition sizeOfUint32 : Z := 4.

(** The identifier loop of [parseKTX]: [isKTX] after comparing
    [fileIdentifier[i]] with [byteBuffer[i]] for [i] from [i0] on,
    stopping at the first difference. *)
Fixpoint isKTX_from (ids : list Z) (byteBuffer : Uint8Array) (i0 : nat) : bool :=
  match ids with
  | [] => true
  | x :: rest =>
      if decide (Some x = index byteBuffer i0)
      then isKTX_from rest byteBuffer (S i0)
      else false
  end.

Section Parse.
Context {PF : PixelFormatAPI}.

(** The parser is written against the binding [RuntimeError] holds, so
    that its control flow can be studied for any binding. *)
Variable RuntimeError_binding : option export.

Definition raise {A} (message : string) : completion A :=
  Throw (new_error "RuntimeError" RuntimeError_binding message).

Definition parseKTX_with (data : KTXData) : completion CompressedTextureBuffer :=
  let byteBuffer := Uint8Array_of data in
  let isKTX := isKTX_from fileIdentifier byteBuffer 0 in
  if negb isKTX then raise "Invalid KTX file." else
  let '(view, byteOffset) := underlying data in
  let byteOffset := byteOffset + 12 in
  let! endianness := getUint32 view byteOffset in
  let byteOffset := byteOffset + sizeOfUint32 in
  if negb (bool_decide (endianness = endiannessTest))
  then raise "File is the wrong endianness." else
  let! glType := getUint32 view byteOffset in
  let byteOffset := byteOffset + sizeOfUint32 in
  let! glTypeSize := getUint32 view byteOffset in
  let byteOffset := byteOffset + sizeOfUint32 in
  let! glFormat := getUint32 view byteOffset in
  let byteOffset := byteOffset + sizeOfUint32 in
  let! glInternalFormat := getUint32 view byteOffset in
  let byteOffset := byteOffset + sizeOfUint32 in
  let! glBaseInternalFormat := getUint32 view byteOffset in
  let byteOffset := byteOffset + sizeOfUint32 in
  let! pixelWidth := getUint32 view byteOffset in
  let byteOffset := byteOffset + sizeOfUint32 in
  let! pixelHeight := getUint32 view byteOffset in
  let byteOffset := byteOffset + sizeOfUint32 in
  let! pixelDepth := getUint32 view byteOffset in
  let byteOffset := byteOffset + sizeOfUint32 in
  let! numberOfArrayElements := getUint32 view byteOffset in
  let byteOffset := byteOffset + sizeOfUint32 in
  let! numberOfFaces := getUint32 view byteOffset in
  let byteOffset := byteOffset + sizeOfUint32 in
  let! numberOfMipmapLevels := getUint32 view byteOffset in
  let byteOffset := byteOffset + sizeOfUint32 in
  let! bytesOfKeyValueByteSize := getUint32 view byteOffset in
  let byteOffset := byteOffset + sizeOfUint32 in
  (* skip metadata *)
  let byteOffset := byteOffset + bytesOfKeyValueByteSize in
  let! imageSize := getUint32 view byteOffset in
  let byteOffset := byteOffset + sizeOfUint32 in
  let! texture := new_Uint8Array data byteOffset imageSize in
  let glInternalFormat :=
    if bool_decide (glInternalFormat = 0x8051) then RGB
    else if bool_decide (glInternalFormat = 0x8058) then RGBA
    else glInternalFormat in
  if negb (validate glInternalFormat)
  then raise "glInternalFormat is not a valid format." else
  let! _ := (if isCompressedFormat glInternalFormat then
          if negb (bool_decide (glType = 0))
          then raise "glType must be zero when the texture is compressed."
          else if negb (bool_decide (glTypeSize = 1))
          then raise "The type size for compressed textures must be 1."
          else if negb (bool_decide (glFormat = 0))
          then raise "glFormat must be zero when the texture is compressed."
          else if bool_decide (numberOfMipmapLevels = 0)
          then raise "Generating mipmaps for a compressed texture is unsupported."
          else Normal tt
        else
          if negb (bool_decide (glBaseInternalFormat = glFormat))
          then raise "The base internal format must be the same as the format for uncompressed textures."
          else Normal tt) in
  if negb (bool_decide (pixelDepth = 0))
  then raise "3D textures are unsupported." else
  if negb (bool_decide (numberOfArrayElements = 0))
  then raise "Texture arrays are unsupported." else
  if negb (bool_decide (numberOfFaces = 1))
  then raise "Cubemaps are unsupported." else
  (* Only use the level 0 mipmap *)
  let! texture := (if isCompressedFormat glInternalFormat
                 && bool_decide (numberOfMipmapLevels > 1)
              then
                let levelSize :=
                  compressedTextureSize glInternalFormat pixelWidth pixelHeight in
                Uint8Array_on (buffer texture) 0 levelSize
              else Normal texture) in
  Normal (mkCompressedTextureBuffer glInternalFormat pixelWidth pixelHeight texture).

End Parse.

(** [parseKTX] as the module has it, with the binding of line 9. *)
Definition parseKTX {PF : PixelFormatAPI} : KTXData -> completion CompressedTextureBuffer :=
  parseKTX_with RuntimeError.

End KTX.

(** ** lib/compressTextures.js *)

Module Compress.
Import Js.

(** *** Module-level tables *)

Definition pvrTexToolExtensions : list string := [".jpeg"; ".jpg"; ".png"; ".bmp"].
Definition etc2compExtensions : list string := [".png"].
Definition crunchExtensions : list string := [".jpeg"; ".jpg"; ".png"; ".bmp"].
Definition astcencExtensions : list string := [".jpeg"; ".jpg"; ".png"; ".bmp"; ".gif"].

Definition formats : list string :=
  ["pvrtc1"; "pvrtc2"; "etc1"; "etc2"; "astc"; "dxt1"; "dxt3"; "dxt5";
   "crunch-dxt1"; "crunch-dxt3"; "crunch-dxt5"].
Definition astcBlockSizes : list string :=
  ["4x4"; "5x4"; "5x5"; "6x5"; "6x6"; "8x5"; "8x6"; "8x8"; "10x5"; "10x6";
   "10x8"; "10x10"; "12x10"; "12x12"].

(** The literals [2.1] and [10.0] of the quality mappings. *)
Definition lit_2_1 : Q := 4728779608739021 # 2251799813685248.
Definition lit_10 : Q := 10.

(** *** Images *)

(** A decoded image ([pipelineExtras.jimpImage]): its bitmap. *)
Record JimpImage : Type := mkJimpImage {
  bitmap_width : Z;
  bitmap_height : Z;
  bitmap_data : list byte
}.

(** [image.extras._pipeline]. *)
Record PipelineExtras : Type := mkPipelineExtras {
  absolutePath : option string;
  jimpImage : option JimpImage;
  source : list byte;
  transparent : bool;
  extension : string;
  imageChanged : bool
}.

(** The part of the glTF asset that the function reads: [gltf.images], in
    the order in which [for ... in] visits its keys. *)
Record Gltf : Type := mkGltf {
  images : list (string * PipelineExtras)
}.

(** *** Asynchronous results *)

(** What a promise can be rejected with: a thrown error, a plain string
    ([createProcess] rejects with one), or an error of the operating
    system (file system, process spawn). *)
Inductive reason : Type :=
| Thrown (e : error)
| Message (text : string)
| SystemError (code : string).

Inductive settlement (A : Type) : Type :=
| Fulfilled (a : A)
| Rejected (r : reason).
Arguments Fulfilled {A} a.
Arguments Rejected {A} r.

(** The object [compressFile] resolves to. *)
Record Compressed : Type := mkCompressed {
  buffer : list byte;
  container : string
}.

(** The outcome of a spawned process. *)
Inductive exit : Type :=
| ExitCode (code : Z)
| SpawnError (r : reason).

(** The operations on the outside world that a run performs. *)
Inductive io : Type :=
| Resize (w h : Z)
| EncodePNG (image : JimpImage)
| WriteFile (path : string) (bytes : list byte)
| Spawn (path : string) (args : list value)
| ReadFile (path : string).

(** The operations on pixels: resizing, and encoding them again. *)
Definition isResize (e : io) : bool :=
  match e with Resize _ _ => true | _ => false end.

Definition isPixelOperation (e : io) : bool :=
  match e with Resize _ _ | EncodePNG _ => true | _ => false end.

(** Where [uuid.v4()] is called during a run. *)
Inductive site : Type :=
| TempDirectory
| InputOf (imageId : string)
| OutputOf (imageId : string).

(** *** The host

    Everything the file takes from Node, from its packages and from the
    machine it runs on.  The file system, the encoders and the PNG encoder
    answer as functions of what they are asked. *)
Class Host : Type := {
  os_tmpdir : string;
  path_join : string -> string -> string;
  uuid_v4 : site -> string;
  cpuCount : Z;
  pvrTexToolPath : string;
  etc2compPath : string;
  crunchPath : string;
  astcencPath : string;
  StringToNumber : string -> number;
  Number_toString : number -> string;
  Number_toFixed1 : number -> string;
  Jimp_resample : JimpImage -> Z -> Z -> list byte;
  Jimp_getBuffer_PNG : JimpImage -> list byte + reason;
  fs_outputFile : string -> list byte -> option reason;
  fs_readFile : string -> list byte + reason;
  child_process_spawn : string -> list value -> exit
}.

(** Cesium's [CesiumMath.isPowerOfTwo(n)] for an integral number [n]:
    [(n !== 0) && ((n & (n - 1)) === 0)], after its argument check. *)
Definition isPowerOfTwo (n : Z) : completion bool :=
  if n <? 0
  then Throw (DeveloperError "A number greater than or equal to 0 is required.")
  else Normal (negb (n =? 0) && (bit_and n (n - 1) =? 0)).

Definition previousPowerOfTwo (n : Z) : Z :=
  let n := bit_or n (shift_right n 1) in
  let n := bit_or n (shift_right n 2) in
  let n := bit_or n (shift_right n 4) in
  let n := bit_or n (shift_right n 8) in
  let n := bit_or n (shift_right n 16) in
  n - shift_right n 1.

(** The four encoders ([compressFunction]). *)
Inductive tool : Type :=
| PVRTexTool
| Etc2comp
| Crunch
| Astcenc.

(** What a [compressWith...] function returns. *)
Record Cli : Type := mkCli {
  path : string;
  options : list value
}.

Definition of_option (o : option string) : value :=
  match o with
  | Some s => VString s
  | None => VUndefined
  end.

Section WithHost.
Context {H : Host}.

Definition ToNumber (v : value) : number :=
  match v with
  | VUndefined => NaN
  | VBoolean b => if b then Fin 1 else Fin 0
  | VNumber x => x
  | VString s => StringToNumber s
  end.

Definition ToString (v : value) : string :=
  match v with
  | VUndefined => "undefined"
  | VBoolean b => if b then "true" else "false"
  | VNumber x => Number_toString x
  | VString s => s
  end.

(** [array.join(', ')]. *)
Definition join (array : list string) : string := String.concat ", " array.

Definition getTempDirectory : string :=
  let tempDirectory := os_tmpdir in
  let randomId := uuid_v4 TempDirectory in
  path_join tempDirectory randomId.

Definition getTempImagePath (at_site : site) (tempDirectory extension : string) : string :=
  let randomId := uuid_v4 at_site in
  path_join tempDirectory (randomId ++ extension).

(** [jimpImage.resize(width, height)]. *)
Definition resize (j : JimpImage) (w h : Z) : JimpImage :=
  mkJimpImage w h (Jimp_resample j w h).

Definition compressWithEtc2comp (inputPath outputPath : string)
    (options : gmap string value) : Cli :=
  let quality := mul_by (ToNumber (get options "quality")) lit_10 in
  let format := get options "format" in
  let transparent := ToBoolean (get options "transparent") in
  let alphaBit := ToBoolean (get options "alphaBit") in
  let cliFormat :=
    if strict_equal format (VString "etc1") then VString "ETC1"
    else if strict_equal format (VString "etc2") then
      if transparent && alphaBit then VString "RGB8A1"
      else if transparent && negb alphaBit then VString "RGBA8"
      else if negb transparent then VString "RGB8"
      else VUndefined
    else VUndefined in
  let cliOptions :=
    [VString inputPath; VString "-format"; cliFormat; VString "-effort";
     VNumber quality; VString "-jobs"; VNumber (Fin (inject_Z cpuCount));
     VString "-output"; VString outputPath] in
  mkCli etc2compPath cliOptions.

Definition compressWithPVRTexTool (inputPath outputPath : string)
    (options : gmap string value) : Cli :=
  let format := get options "format" in
  let quality := Math_floor (div_by (ToNumber (get options "quality")) lit_2_1) in
  let bitrate := get options "bitrate" in
  let transparent := ToBoolean (get options "transparent") in
  let qualityOptions :=
    ["pvrtcfastest"; "pvrtcfast"; "pvrtcnormal"; "pvrtchigh"; "pvrtcbest"] in
  let cliQuality := of_option (at_index qualityOptions quality) in
  let two := VNumber (Fin 2) in
  let four := VNumber (Fin 4) in
  let cliFormat :=
    if strict_equal format (VString "pvrtc1") then
      if transparent && strict_equal bitrate two then VString "PVRTC1_2"
      else if transparent && strict_equal bitrate four then VString "PVRTC1_4"
      else if negb transparent && strict_equal bitrate two then VString "PVRTC1_2_RGB"
      else if negb transparent && strict_equal bitrate four then VString "PVRTC1_4_RGB"
      else VUndefined
    else if strict_equal format (VString "pvrtc2") then
      if strict_equal bitrate two then VString "PVRTC2_2"
      else if strict_equal bitrate four then VString "PVRTC2_4"
      else VUndefined
    else VUndefined in
  let cliOptions :=
    [VString "-i"; VString inputPath; VString "-o"; VString outputPath;
     VString "-f"; cliFormat; VString "-q"; cliQuality; VString "-square";
     VString "-"; VString "-pot"; VString "-"] in
  mkCli pvrTexToolPath cliOptions.

Definition compressWithCrunch (inputPath outputPath : string)
    (options : gmap string value) : completion Cli :=
  let quality := Math_floor (div_by (ToNumber (get options "quality")) lit_2_1) in
  let transparent := ToBoolean (get options "transparent") in
  let dxtQualityOptions := ["superfast"; "fast"; "normal"; "better"; "uber"] in
  let dxtQuality := of_option (at_index dxtQualityOptions quality) in
  match get options "format" with
  | VString format =>
      let '(fileFormat, format) :=
        if 0 <=? indexOf format "crunch"
        then ("crn", slice_from 7 format)
        else ("ktx", format) in
      let cliFormat :=
        if String.eqb format "dxt1" then
          if transparent then VString "-DXT1A" else VString "-DXT1"
        else if String.eqb format "dxt3" then VString "-DXT3"
        else if String.eqb format "dxt5" then VString "-DXT5"
        else VUndefined in
      let cliOptions :=
        [VString "-file"; VString inputPath; VString "-out"; VString outputPath;
         VString "-fileformat"; VString fileFormat; VString "-helperThreads";
         VNumber (Fin (inject_Z cpuCount)); VString "-dxtQuality"; dxtQuality;
         VString "-rescalemode"; VString "lo"; VString "-mipMode"; VString "None";
         cliFormat] in
      Normal (mkCli crunchPath cliOptions)
  | _ => Throw (TypeError "format.indexOf is not a function")
  end.

(** [number % 1 === 0]. *)
Definition is_whole (x : number) : bool :=
  match x with
  | Fin q => Qeq_bool q (inject_Z (Qfloor q))
  | _ => false
  end.

Definition numberToString (number : value) : completion string :=
  if is_whole (ToNumber number) then
    (* Add a .0 to whole numbers *)
    match number with
    | VNumber x => Normal (Number_toFixed1 x)
    | _ => Throw (TypeError "number.toFixed is not a function")
    end
  else
    match number with
    | VUndefined => Throw (TypeError "Cannot read property 'toString' of undefined")
    | _ => Normal (ToString number)
    end.

Definition compressWithAstcenc (inputPath outputPath : string)
    (options : gmap string value) : completion Cli :=
  let quality := Math_floor (div_by (ToNumber (get options "quality")) lit_2_1) in
  let bitrate := get options "bitrate" in
  let blockSize := get options "blockSize" in
  let transparent := ToBoolean (get options "transparent") in
  let qualityOptions := ["-veryfast"; "-fast"; "-medium"; "-thorough"; "-exhaustive"] in
  let cliQuality := of_option (at_index qualityOptions quality) in
  let! cliRate :=
    (if negb (strict_equal bitrate (VNumber (Fin 2)))
     then let! s := numberToString bitrate in Normal (VString s)
     else Normal blockSize) in
  let cliOptions :=
    [VString "-cl"; VString inputPath; VString outputPath; cliRate; VString "-j";
     VNumber (Fin (inject_Z cpuCount)); cliQuality] in
  let cliOptions :=
    if transparent then (cliOptions ++ [VString "-alphablend"])%list else cliOptions in
  Normal (mkCli astcencPath cliOptions).

(** Calling [compressFunction]; [None] is the variable left unassigned. *)
Definition call_compressFunction (compressFunction : option tool)
    (inputPath outputPath : string) (options : gmap string value) : completion Cli :=
  match compressFunction with
  | Some PVRTexTool => Normal (compressWithPVRTexTool inputPath outputPath options)
  | Some Etc2comp => Normal (compressWithEtc2comp inputPath outputPath options)
  | Some Crunch => compressWithCrunch inputPath outputPath options
  | Some Astcenc => compressWithAstcenc inputPath outputPath options
  | None => Throw (TypeError "compressFunction is not a function")
  end.

(** A promise for a compressed image, as the run determines it: the
    operations it performs, in order, and how it settles. *)
Record Promise : Type := mkPromise {
  trace : list io;
  outcome : settlement Compressed
}.

Definition createProcess (compressToolPath : string) (options : list value) : settlement unit :=
  match child_process_spawn compressToolPath options with
  | SpawnError e => Rejected e
  | ExitCode code =>
      if negb (code =? 0)
      then Rejected (Message ("Converter tool exited with an error code of "
                              ++ Number_toString (Fin (inject_Z code))))
      else Fulfilled tt
  end.

(** The extension [compressFile] gives its output file. *)
Definition containerExtension (options : gmap string value) : completion string :=
  match get options "format" with
  | VString format =>
      let extension := ".ktx" in
      if 0 <=? indexOf format "crunch"
      then (* Crunch cannot be embedded in a ktx file *) Normal ".crn"
      else Normal extension
  | _ => Throw (TypeError "options.format.indexOf is not a function")
  end.

(** [compressFile] runs up to the call of [child_process.spawn] before it
    returns its promise; what it throws until then, its caller receives. *)
Definition compressFile (imageId inputPath tempDirectory : string)
    (compressFunction : option tool) (options : gmap string value) : completion Promise :=
  let! extension := containerExtension options in
  let outputPath := getTempImagePath (OutputOf imageId) tempDirectory extension in
  let! cli := call_compressFunction compressFunction inputPath outputPath options in
  Normal
    match createProcess (path cli) (Compress.options cli) with
    | Rejected r => mkPromise [Spawn (path cli) (Compress.options cli)] (Rejected r)
    | Fulfilled _ =>
        mkPromise [Spawn (path cli) (Compress.options cli); ReadFile outputPath]
          match fs_readFile outputPath with
          | inl buffer => Fulfilled (mkCompressed buffer extension)
          | inr r => Rejected r
          end
    end.

(** A [then] callback that throws rejects the promise. *)
Definition in_callback (before : list io) (c : completion Promise) : Promise :=
  match c with
  | Normal p => mkPromise (before ++ trace p)%list (outcome p)
  | Throw e => mkPromise before (Rejected (Thrown e))
  end.

Definition compressBuffer (imageId : string) (buffer : list byte)
    (extension tempDirectory : string) (compressFunction : option tool)
    (options : gmap string value) : Promise :=
  (* Save temporary image file off to a temp directory *)
  let inputPath := getTempImagePath (InputOf imageId) tempDirectory extension in
  match fs_outputFile inputPath buffer with
  | Some r => mkPromise [WriteFile inputPath buffer] (Rejected r)
  | None =>
      in_callback [WriteFile inputPath buffer]
        (compressFile imageId inputPath tempDirectory compressFunction options)
  end.

Definition compressJimpImage (imageId : string) (jimpImage : JimpImage)
    (tempDirectory : string) (compressFunction : option tool)
    (options : gmap string value) : Promise :=
  (* Encode image as png since this is supported by all the compress tools *)
  match Jimp_getBuffer_PNG jimpImage with
  | inr r => mkPromise [EncodePNG jimpImage] (Rejected r)
  | inl buffer =>
      let p := compressBuffer imageId buffer ".png" tempDirectory compressFunction options in
      mkPromise (EncodePNG jimpImage :: trace p) (outcome p)
  end.

(** [replaceImage(image)(compressed)]. *)
Definition replaceImage (image : PipelineExtras) (compressed : Compressed) : PipelineExtras :=
  mkPipelineExtras (absolutePath image) (jimpImage image)
    (buffer compressed) (transparent image) (container compressed) (imageChanged image).

(** The resizing step of the loop body, on a decoded image. *)
Definition resizeStep (resizeToPowerOfTwo : bool) (jimpImage : JimpImage)
  : completion (JimpImage * list io) :=
  if resizeToPowerOfTwo then
    let width := bitmap_width jimpImage in
    let height := bitmap_height jimpImage in
    let! widthOk := isPowerOfTwo width in
    let! bothOk := (if widthOk then isPowerOfTwo height else Normal false) in
    if negb bothOk then
      let width := previousPowerOfTwo width in
      let height := previousPowerOfTwo height in
      Normal (resize jimpImage width height, [Resize width height])
    else Normal (jimpImage, [])
  else Normal (jimpImage, []).

(** Whether the loop body takes the branch that needs the raw image data. *)
Definition needsRawImage (resizeToPowerOfTwo : bool) (inputExtensions : option (list string))
    (image : PipelineExtras) : completion bool :=
  if resizeToPowerOfTwo || imageChanged image then Normal true
  else match inputExtensions with
       | Some exts => Normal (negb (includes exts (VString (extension image))))
       | None => Throw (TypeError "Cannot read property 'includes' of undefined")
       end.

(** One iteration of the loop over [gltf.images]: the image as the
    iteration leaves it, and the promise it starts. *)
Definition startImage (format : string) (options : gmap string value)
    (inputExtensions : option (list string)) (compressFunction : option tool)
    (resizeToPowerOfTwo : bool) (tempDirectory imageId : string)
    (image : PipelineExtras) : completion (PipelineExtras * Promise) :=
  let compressOptions :=
    combine options {[ "transparent" := VBoolean (transparent image) ]} in
  let! raw := needsRawImage resizeToPowerOfTwo inputExtensions image in
  if raw then
    match jimpImage image with
    | None =>
        Throw (DeveloperError ("The input image format " ++ quote ++ format
                               ++ quote ++ " is not supported for texture compression."))
    | Some jimp =>
        let! resizing := resizeStep resizeToPowerOfTwo jimp in
        let '(jimp, resized) := resizing in
        let p := compressJimpImage imageId jimp tempDirectory compressFunction compressOptions in
        Normal (mkPipelineExtras (absolutePath image) (Some jimp) (source image)
                  (transparent image) (extension image) (imageChanged image),
                mkPromise (resized ++ trace p)%list (outcome p))
    end
  else
    match absolutePath image with
    | Some absolutePath =>
        (* The external image can be sent directly to the compression tool *)
        let! p := compressFile imageId absolutePath tempDirectory compressFunction compressOptions in
        Normal (image, p)
    | None =>
        (* The embedded image can be saved as-is and then sent to the compression tool *)
        Normal (image, compressBuffer imageId (source image) (extension image)
                         tempDirectory compressFunction compressOptions)
    end.

(** The state of the loop: the images visited so far, as the loop left
    them, and the promises pushed so far. *)
Record Loop : Type := mkLoop {
  visited : list (string * PipelineExtras);
  promises : list (string * Promise)
}.

(** The loop over [gltf.images].  An exception leaves the loop at once: the
    images not yet visited are returned untouched, next to the state reached. *)
Fixpoint forEachImage (format : string) (options : gmap string value)
    (inputExtensions : option (list string)) (compressFunction : option tool)
    (resizeToPowerOfTwo : bool) (tempDirectory : string)
    (todo : list (string * PipelineExtras)) (st : Loop)
  : Loop * list (string * PipelineExtras) * option error :=
  match todo with
  | [] => (st, [], None)
  | (imageId, image) :: rest =>
      match startImage format options inputExtensions compressFunction
              resizeToPowerOfTwo tempDirectory imageId image with
      | Throw e => (st, todo, Some e)
      | Normal (image, promise) =>
          forEachImage format options inputExtensions compressFunction
            resizeToPowerOfTwo tempDirectory rest
            (mkLoop (visited st ++ [(imageId, image)])%list
                    (promises st ++ [(imageId, promise)])%list)
      end
  end.

(** The choice of the compress tool: [inputExtensions], [compressFunction]
    and [resizeToPowerOfTwo] after the chain of tests on [format]. *)
Definition chooseTool (format : string) : option (list string) * option tool * bool :=
  if String.eqb format "pvrtc1" || String.eqb format "pvrtc2" then
    (Some pvrTexToolExtensions, Some PVRTexTool, false)
  else if String.eqb format "etc1" || String.eqb format "etc2" then
    (Some etc2compExtensions, Some Etc2comp, true)
  else if String.eqb format "dxt1" || String.eqb format "dxt3" || String.eqb format "dxt5"
          || String.eqb format "crunch-dxt1" || String.eqb format "crunch-dxt3"
          || String.eqb format "crunch-dxt5" then
    (Some crunchExtensions, Some Crunch, false)
  else if String.eqb format "astc" then
    (Some astcencExtensions, Some Astcenc, true)
  else (None, None, false).

(** The defaults of lines 71 to 74, written into the options object. *)
Definition setDefaults (options : gmap string value) : gmap string value :=
  let options := <[ "quality" := defaultValue (get options "quality") (VNumber (Fin 5)) ]> options in
  let options := <[ "bitrate" := defaultValue (get options "bitrate") (VNumber (Fin 2)) ]> options in
  let options := <[ "blockSize" := defaultValue (get options "blockSize") (VString "8x8") ]> options in
  <[ "alphaBit" := defaultValue (get options "alphaBit") (VBoolean false) ]> options.

(** The tests of lines 76 to 86 on the options with their defaults. *)
Definition checkOptions (format : string) (options : gmap string value) : completion unit :=
  let quality := ToNumber (get options "quality") in
  if lt quality (Fin 0) || lt (Fin 10) quality then
    Throw (DeveloperError "Quality must be between 0 and 10.")
  else if (String.eqb format "pvrtc1" || String.eqb format "pvrtc2")
          && negb (strict_equal (get options "bitrate") (VNumber (Fin 2)))
          && negb (strict_equal (get options "bitrate") (VNumber (Fin 4))) then
    Throw (DeveloperError "bitrate (bits-per-pixel) must be 2 or 4 when using pvrtc.")
  else if String.eqb format "astc"
          && negb (includes astcBlockSizes (get options "blockSize")) then
    Throw (DeveloperError ("Block size " ++ quote ++ ToString (get options "blockSize")
                           ++ quote ++ " is not supported. Supported values are "
                           ++ join astcBlockSizes ++ "."))
  else Normal tt.

(** What the function returns when it does not throw: the promise
    [fsExtraEnsureDir(tempDirectory).then(...)], given by the directory and
    the promises it waits for. *)
Record Batch : Type := mkBatch {
  tempDirectory : string;
  awaited : list (string * Promise)
}.

(** All that a call of [compressTextures] leaves behind: the options object
    and the images as the call left them, the promises it started, and what
    it returned or threw. *)
Record Outcome : Type := mkOutcome {
  optionsAfter : gmap string value;
  imagesAfter : list (string * PipelineExtras);
  started : list (string * Promise);
  returned : completion Batch
}.

Definition compressTextures (gltf : option Gltf) (options : option (gmap string value)) : Outcome :=
  let options := default ∅ options in
  match gltf with
  | None => mkOutcome options [] [] (Throw (DeveloperError "gltf must be defined"))
  | Some gltf =>
      let stop e := mkOutcome options (images gltf) [] (Throw e) in
      let format := get options "format" in
      if negb (defined format) then
        stop (DeveloperError "options.format must be defined.")
      else if negb (includes formats format) then
        stop (DeveloperError ("format " ++ quote ++ ToString format
                              ++ quote ++ " is not a supported format. Supported formats are "
                              ++ join formats ++ "."))
      else
        let format := ToString format in
        (* Set defaults *)
        let options := setDefaults options in
        let stop e := mkOutcome options (images gltf) [] (Throw e) in
        match checkOptions format options with
        | Throw e => stop e
        | Normal _ =>
            (* Choose the compress tool to use *)
            let '(inputExtensions, compressFunction, resizeToPowerOfTwo) := chooseTool format in
            (* Save images to a temp directory. *)
            let tempDirectory := getTempDirectory in
            let '(st, unvisited, thrown) :=
              forEachImage format options inputExtensions compressFunction
                resizeToPowerOfTwo tempDirectory (images gltf) (mkLoop [] []) in
            mkOutcome options (visited st ++ unvisited)%list (promises st)
              match thrown with
              | Some e => Throw e
              | None => Normal (mkBatch tempDirectory (promises st))
              end
        end
  end.

End WithHost.

(** *** The returned promise

    [fsExtraEnsureDir(tempDirectory).then(function() { return
    Promise.all(promises).finally(function() { fsExtraRemove(tempDirectory);
    }); })], run against a schedule: the order in which the pending
    operations complete.  [Promise.all] is fulfilled once every promise is,
    and rejected as soon as one of them is; the [finally] handler then runs
    once, calls [fsExtraRemove] and returns without its promise, so the
    returned promise settles without waiting for the removal. *)

Inductive tick : Type :=
| EnsureDirDone (failure : option reason)
| Settles (i : nat)
| RemoveDone.

Inductive event : Type :=
| TaskSettled (i : nat) (fulfilled : bool)
| RemoveCalled (directory : string)
| BatchSettled (fulfilled : bool)
| RemoveFinished.

#[global] Instance event_eq_dec : EqDecision event.
Proof. solve_decision. Defined.

Record Run : Type := mkRun {
  waiting : bool;            (* [Promise.all(promises).finally(...)] has been set up *)
  settled : list nat;        (* the promises that have settled, oldest first *)
  batch : option bool;       (* how the returned promise has settled, if it has *)
  log : list event
}.

Definition isFulfilled {A} (s : settlement A) : bool :=
  match s with Fulfilled _ => true | Rejected _ => false end.

Definition fulfilledAt (b : Batch) (i : nat) : bool :=
  match awaited b !! i with
  | Some (_, p) => isFulfilled (outcome p)
  | None => false
  end.

(** The state of [Promise.all(promises)]: rejected when a settled promise is
    rejected, fulfilled when all have settled fulfilled, pending otherwise. *)
Definition all (b : Batch) (settled : list nat) : option bool :=
  if negb (forallb (fulfilledAt b) settled) then Some false
  else if bool_decide (seq 0 (List.length (awaited b)) ⊆ settled) then Some true
  else None.

(** Runs the [finally] handler when [Promise.all] has settled. *)
Definition settleBatch (b : Batch) (r : Run) : Run :=
  if waiting r && negb (bool_decide (is_Some (batch r))) then
    match all b (settled r) with
    | Some ok =>
        mkRun true (settled r) (Some ok)
          (log r ++ [RemoveCalled (tempDirectory b); BatchSettled ok])
    | None => r
    end
  else r.

Definition step (b : Batch) (r : Run) (t : tick) : Run :=
  match t with
  | EnsureDirDone failure =>
      if waiting r || bool_decide (is_Some (batch r)) then r
      else match failure with
           | None => settleBatch b (mkRun true (settled r) (batch r) (log r))
           | Some _ =>
               mkRun false (settled r) (Some false) (log r ++ [BatchSettled false])
           end
  | Settles i =>
      if bool_decide (i ∈ settled r) || negb (bool_decide (is_Some (awaited b !! i))) then r
      else settleBatch b
             (mkRun (waiting r) (settled r ++ [i]) (batch r)
                    (log r ++ [TaskSettled i (fulfilledAt b i)]))
  | RemoveDone =>
      if bool_decide (RemoveCalled (tempDirectory b) ∈ log r)
         && negb (bool_decide (RemoveFinished ∈ log r))
      then mkRun (waiting r) (settled r) (batch r) (log r ++ [RemoveFinished])
      else r
  end.

Definition run (b : Batch) (schedule : list tick) : Run :=
  fold_left (step b) schedule (mkRun false [] None []).

End Compress.

(** ** Instances used in the examples *)

Module Examples.
Import Js KTX Compress.

(** Modelled from the Cesium package: [PixelFormat] with the formats of the
    release that introduced KTX loading, their validity and compression
    tests and the size in bytes of one level of a compressed texture. *)
Definition CesiumPixelFormat : PixelFormatAPI :=
  {| RGB := 0x1907;
     RGBA := 0x1908;
     validate := fun f =>
       bool_decide (f ∈ [0x1902; 0x84F9; 0x1906; 0x1907; 0x1908; 0x1909; 0x190A;
                         0x83F0; 0x83F1; 0x83F2; 0x83F3;
                         0x8C00; 0x8C01; 0x8C02; 0x8C03; 0x8D64]);
     isCompressedFormat := fun f =>
       bool_decide (f ∈ [0x83F0; 0x83F1; 0x83F2; 0x83F3;
                         0x8C00; 0x8C01; 0x8C02; 0x8C03; 0x8D64]);
     compressedTextureSize := fun f w h =>
       if bool_decide (f ∈ [0x83F0; 0x83F1; 0x8D64]) then (w + 3) / 4 * ((h + 3) / 4) * 8
       else if bool_decide (f ∈ [0x83F2; 0x83F3]) then (w + 3) / 4 * ((h + 3) / 4) * 16
       else if bool_decide (f ∈ [0x8C00; 0x8C02]) then (Z.max w 8 * Z.max h 8 * 4 + 7) / 8
       else if bool_decide (f ∈ [0x8C01; 0x8C03]) then (Z.max w 16 * Z.max h 8 * 2 + 7) / 8
       else 0 |}.

Definition byte_of (n : Z) : byte :=
  default x00 (Byte.of_N (Z.to_N n)).

(** The four bytes of a 32-bit field, least significant first. *)
Definition u32 (n : Z) : list byte :=
  [byte_of (n mod 256); byte_of (n / 256 mod 256);
   byte_of (n / 65536 mod 256); byte_of (n / 16777216 mod 256)].

(** A KTX header with no key/value data. *)
Definition header (glType glTypeSize glFormat glInternalFormat glBaseInternalFormat
    pixelWidth pixelHeight pixelDepth numberOfArrayElements numberOfFaces
    numberOfMipmapLevels : Z) : list byte :=
  (map byte_of fileIdentifier ++ u32 endiannessTest ++ u32 glType ++ u32 glTypeSize
   ++ u32 glFormat ++ u32 glInternalFormat ++ u32 glBaseInternalFormat
   ++ u32 pixelWidth ++ u32 pixelHeight ++ u32 pixelDepth
   ++ u32 numberOfArrayElements ++ u32 numberOfFaces ++ u32 numberOfMipmapLevels
   ++ u32 0)%list.

(** A 4x4 DXT1 texture with two mipmap levels: level 0 is the block
    [1..8], level 1 the block [9..16]. *)
Definition level0 : list byte := map byte_of [1; 2; 3; 4; 5; 6; 7; 8].
Definition level1 : list byte := map byte_of [9; 10; 11; 12; 13; 14; 15; 16].
Definition dxt1_two_levels : ArrayBuffer :=
  (header 0 1 0 0x83F0 0x1907 4 4 0 0 1 2 ++ u32 8 ++ level0 ++ u32 8 ++ level1)%list.

(** A buffer that is not a KTX file, and a KTX header of the other
    endianness. *)
Definition not_ktx : ArrayBuffer := repeat x00 64.
Definition big_endian : ArrayBuffer :=
  (map byte_of fileIdentifier ++ map byte_of [4; 3; 2; 1] ++ repeat x00 52)%list.

(** A host whose encoders and file system always succeed. *)
Definition exampleHost : Host :=
  {| os_tmpdir := "/tmp";
     path_join := fun a b => a ++ "/" ++ b;
     uuid_v4 := fun s =>
       match s with
       | TempDirectory => "run"
       | InputOf i => "in-" ++ i
       | OutputOf i => "out-" ++ i
       end;
     cpuCount := 4;
     pvrTexToolPath := "bin/PVRTexToolCLI";
     etc2compPath := "bin/EtcTool";
     crunchPath := "bin/crunch";
     astcencPath := "bin/astcenc";
     StringToNumber := fun _ => NaN;
     Number_toString := fun _ => "n";
     Number_toFixed1 := fun _ => "n.0";
     Jimp_resample := fun j w h => bitmap_data j;
     Jimp_getBuffer_PNG := fun j => inl (bitmap_data j);
     fs_outputFile := fun _ _ => None;
     fs_readFile := fun _ => inl [x01];
     child_process_spawn := fun _ _ => ExitCode 0 |}.

(** A host whose encoder fails on the input of image ["A"]. *)
Definition failingHost : Host :=
  {| os_tmpdir := "/tmp";
     path_join := fun a b => a ++ "/" ++ b;
     uuid_v4 := fun s =>
       match s with
       | TempDirectory => "run"
       | InputOf i => "in-" ++ i
       | OutputOf i => "out-" ++ i
       end;
     cpuCount := 4;
     pvrTexToolPath := "bin/PVRTexToolCLI";
     etc2compPath := "bin/EtcTool";
     crunchPath := "bin/crunch";
     astcencPath := "bin/astcenc";
     StringToNumber := fun _ => NaN;
     Number_toString := fun _ => "n";
     Number_toFixed1 := fun _ => "n.0";
     Jimp_resample := fun j w h => bitmap_data j;
     Jimp_getBuffer_PNG := fun j => inl (bitmap_data j);
     fs_outputFile := fun _ _ => None;
     fs_readFile := fun _ => inl [x01];
     child_process_spawn := fun _ args =>
       if bool_decide (VString "/tmp/run/in-A.png" ∈ args) then ExitCode 1 else ExitCode 0 |}.

Definition decoded (w h : Z) : JimpImage := mkJimpImage w h [].

(** An external png file, decoded, of the given size. *)
Definition png (w h : Z) : PipelineExtras :=
  mkPipelineExtras (Some "/model/logo.png") (Some (decoded w h)) [x02] false ".png" false.

(** An embedded png, decoded, of the given size. *)
Definition embedded_png (w h : Z) : PipelineExtras :=
  mkPipelineExtras None (Some (decoded w h)) [x02; x03] false ".png" false.

(** An external gif file: Jimp does not decode it. *)
Definition gif : PipelineExtras :=
  mkPipelineExtras (Some "/model/logo.gif") None [x04] false ".gif" false.

Definition format_only (format : string) : gmap string value :=
  {[ "format" := VString format ]}.

(** The batch of two images run on the host whose encoder fails on the
    first. *)
Definition partlyFailing : Batch :=
  match returned (compressTextures (H := failingHost)
                    (Some (mkGltf [("A", png 211 211); ("B", embedded_png 128 128)]))
                    (Some (format_only "etc1"))) with
  | Normal b => b
  | Throw _ => mkBatch EmptyString []
  end.

(** Options objects with one property next to the format. *)
Definition etc1_quality_11 : gmap string value :=
  <[ "quality" := VNumber (Fin 11) ]> (format_only "etc1").
Definition pvrtc1_bitrate_3 : gmap string value :=
  <[ "bitrate" := VNumber (Fin 3) ]> (format_only "pvrtc1").
Definition astc_blockSize_1x1 : gmap string value :=
  <[ "blockSize" := VString "1x1" ]> (format_only "astc").
Definition pvrtc1_quality_7 : gmap string value :=
  <[ "quality" := VNumber (Fin 7) ]> (format_only "pvrtc1").

(** What [parseKTX] returns on [dxt1_two_levels]. *)
Definition parsed : CompressedTextureBuffer :=
  mkCompressedTextureBuffer 0x83F0 4 4 (mkUint8Array dxt1_two_levels 0 8).

(** A 4x4 DXT1 texture with a single mipmap level, and what [parseKTX]
    returns on it. *)
Definition dxt1_one_level : ArrayBuffer :=
  (header 0 1 0 0x83F0 0x1907 4 4 0 0 1 1 ++ u32 8 ++ level0)%list.
Definition parsed_one_level : CompressedTextureBuffer :=
  mkCompressedTextureBuffer 0x83F0 4 4 (mkUint8Array dxt1_one_level 68 8).

(** The same container seen through a typed array that starts four bytes
    into a larger buffer, and what [parseKTX] returns on it. *)
Definition dxt1_in_view : Uint8Array :=
  mkUint8Array (repeat x00 4 ++ dxt1_one_level)%list 4 (byteLength dxt1_one_level).
Definition parsed_in_view : CompressedTextureBuffer :=
  mkCompressedTextureBuffer 0x83F0 4 4
    (mkUint8Array dxt1_one_level 0 (byteLength dxt1_one_level)).

(** A container cut off inside its header. *)
Definition truncated : ArrayBuffer := take 30 dxt1_one_level.

(** Two images: an external png that has to be resized, and an embedded
    one. *)
Definition two_images : Gltf :=
  mkGltf [("A", png 211 211); ("B", embedded_png 128 128)].

(** The batch of the two images on the host where everything succeeds. *)
Definition allFine : Batch :=
  match returned (compressTextures (H := exampleHost) (Some two_images)
                    (Some (format_only "etc1"))) with
  | Normal b => b
  | Throw _ => mkBatch EmptyString []
  end.

(** The promise a batch holds at an index, the operation a promise performs
    at an index, and the command line of an operation that starts an
    encoder. *)
Definition promiseAt (b : Batch) (i : nat) : string * Promise :=
  default (EmptyString, mkPromise [] (Rejected (Message EmptyString))) (awaited b !! i).
Definition operationAt (p : Promise) (i : nat) : io :=
  default (ReadFile EmptyString) (trace p !! i).
Definition toolOf (e : io) : string :=
  match e with Spawn toolPath _ => toolPath | _ => EmptyString end.
Definition argumentsOf (e : io) : list value :=
  match e with Spawn _ args => args | _ => [] end.

(** A quality that is not a number. *)
Definition pvrtc1_quality_high : gmap string value :=
  <[ "quality" := VString "high" ]> (format_only "pvrtc1").

End Examples.

(** ** Predicates used in the proofs *)

Module Invariants.
Import Js Compress.

(** [smeared l w m]: [m] has the same leading bit [l] as the argument and
    its [w] bits from [l] downwards are set. *)
Definition smeared (l w m : Z) : Prop :=
  2 ^ l <= m < 2 ^ (l + 1)
  /\ forall i, 0 <= i -> l - w < i <= l -> Z.testbit m i = true.

(** How often the removal of the directory has been asked for. *)
Definition removals (b : Batch) (r : Run) : nat :=
  count_occ event_eq_dec (log r) (RemoveCalled (tempDirectory b)).

Definition at_most_once (b : Batch) (r : Run) : Prop :=
  (batch r = None -> removals b r = 0%nat) /\ (removals b r <= 1)%nat.

(** The 32-bit field that [parseKTX] reads [k] bytes after the start of the
    container. *)
Definition field (data : KTX.KTXData) (k : Z) : completion Z :=
  KTX.getUint32 (KTX.underlying data).1 ((KTX.underlying data).2 + k).

(** The pixel format [parseKTX] takes for the header's [glInternalFormat]. *)
Definition baseFormat {PF : KTX.PixelFormatAPI} (glInternalFormat : Z) : Z :=
  if bool_decide (glInternalFormat = 0x8051) then KTX.RGB
  else if bool_decide (glInternalFormat = 0x8058) then KTX.RGBA
  else glInternalFormat.

(** The place of an operation in the sequence of one image's task. *)
Definition stage (e : io) : nat :=
  match e with
  | Resize _ _ => 0
  | EncodePNG _ => 1
  | WriteFile _ _ => 2
  | Spawn _ _ => 3
  | ReadFile _ => 4
  end.

(** The reason a promise is rejected with when the encoder does not exit
    with code 0. *)
Definition failure {H : Host} (e : exit) : reason :=
  match e with
  | SpawnError r => r
  | ExitCode code =>
      Message ("Converter tool exited with an error code of "
               ++ Number_toString (Fin (inject_Z code)))
  end.

(** [encoderRun imageId tempDirectory compressFunction options inputPath ran o]:
    the encoder was started on [inputPath]; [ran] are the operations from
    there on and [o] is how the promise settles. *)
Definition encoderRun {H : Host} (imageId tempDirectory : string)
    (compressFunction : option tool) (options : gmap string value) (inputPath : string)
    (ran : list io) (o : settlement Compressed) : Prop :=
  exists extension cli,
    let outputPath := getTempImagePath (OutputOf imageId) tempDirectory extension in
    containerExtension options = Normal extension
    /\ call_compressFunction compressFunction inputPath outputPath options = Normal cli
    /\ ((child_process_spawn (path cli) (Compress.options cli) = ExitCode 0
         /\ ran = [Spawn (path cli) (Compress.options cli); ReadFile outputPath]
         /\ o = match fs_readFile outputPath with
                | inl buffer => Fulfilled (mkCompressed buffer extension)
                | inr r => Rejected r
                end)
        \/ (child_process_spawn (path cli) (Compress.options cli) <> ExitCode 0
            /\ ran = [Spawn (path cli) (Compress.options cli)]
            /\ o = Rejected (failure (child_process_spawn (path cli) (Compress.options cli))))).

(** [caught_up b r]: the [finally] handler is not behind: while the returned
    promise is pending after the directory was made, [Promise.all] is
    pending. *)
Definition caught_up (b : Batch) (r : Run) : Prop :=
  waiting r = true -> batch r = None -> all b (settled r) = None.

(** [consistent b r]: what the log and the state of a run say about each
    other. *)
Definition consistent (b : Batch) (r : Run) : Prop :=
  (RemoveCalled (tempDirectory b) ∈ log r <-> waiting r = true /\ is_Some (batch r))
  /\ (batch r = Some true -> waiting r = true /\ all b (settled r) = Some true)
  /\ (batch r = Some false -> waiting r = true ->
      exists i, i ∈ settled r /\ fulfilledAt b i = false)
  /\ (forall i, i ∈ settled r ->
        is_Some (awaited b !! i) /\ TaskSettled i (fulfilledAt b i) ∈ log r)
  /\ (RemoveFinished ∈ log r -> RemoveCalled (tempDirectory b) ∈ log r).

End Invariants.

(** * Properties *)

(** Closed decidable goals and hypotheses, by evaluation. *)
Ltac decide_true := apply (bool_decide_unpack _); vm_compute; exact I.
Ltac decide_false H := apply (bool_decide_pack _) in H; vm_compute in H; destruct H.

(** ** parseKTX *)

Section ParseKTX.
Import Js KTX.
Context {PF : PixelFormatAPI}.

Lemma slice_all (b : ArrayBuffer) : slice b 0 (byteLength b) = b.
Proof.
  unfold slice, byteLength. rewrite Nat2Z.id. simpl. apply firstn_all.
Qed.

Lemma elements_Uint8Array_of data : elements (Uint8Array_of data) = contents data.
Proof.
  destruct data as [b|v]; unfold elements; simpl.
  - apply slice_all.
  - apply (slice_all (elements v)).
Qed.

(** The identifier loop accepts exactly the buffers that start with the
    twelve numbers of [fileIdentifier]. *)
Lemma isKTX_from_spec ids v i0 :
  isKTX_from ids v i0 = true
  <-> byte_value <$> take (List.length ids) (drop i0 (elements v)) = ids.
Proof.
  revert i0. induction ids as [|x rest IH]; intros i0; simpl.
  - split; reflexivity.
  - unfold index. destruct (elements v !! i0) as [y|] eqn:E.
    + rewrite (drop_S _ _ _ E). simpl. destruct (decide (Some x = Some (byte_value y))) as [D|D].
      * injection D as ->. split.
        -- intros Hr. apply IH in Hr. f_equal. exact Hr.
        -- intros [= Hr]. apply IH. exact Hr.
      * split; [discriminate|]. intros [= ? ?]. congruence.
    + rewrite drop_ge by (apply lookup_ge_None; exact E). simpl.
      destruct (decide (Some x = None)); split; discriminate.
Qed.

Lemma isKTX_spec data :
  isKTX_from fileIdentifier (Uint8Array_of data) 0 = true
  <-> byte_value <$> take 12 (contents data) = fileIdentifier.
Proof.
  pose proof (isKTX_from_spec fileIdentifier (Uint8Array_of data) 0) as Hs.
  rewrite elements_Uint8Array_of in Hs. exact Hs.
Qed.

(** The first two checks, for any binding of [RuntimeError]. *)
Lemma parseKTX_first_checks binding data :
  (byte_value <$> take 12 (contents data) <> fileIdentifier ->
   parseKTX_with binding data
   = Throw (new_error "RuntimeError" binding "Invalid KTX file."))
  /\ (forall marker,
        byte_value <$> take 12 (contents data) = fileIdentifier ->
        getUint32 (underlying data).1 ((underlying data).2 + 12) = Normal marker ->
        marker <> endiannessTest ->
        parseKTX_with binding data
        = Throw (new_error "RuntimeError" binding "File is the wrong endianness.")).
Proof.
  split.
  - intros Hm. unfold parseKTX_with.
    destruct (isKTX_from fileIdentifier (Uint8Array_of data) 0) eqn:E; [|reflexivity].
    apply isKTX_spec in E. contradiction.
  - intros marker Hm Hg Hne. unfold parseKTX_with.
    rewrite (proj2 (isKTX_spec data) Hm). simpl negb. cbv iota.
    destruct (underlying data) as [view off]. simpl in Hg. rewrite Hg. simpl.
    rewrite bool_decide_eq_false_2 by exact Hne. reflexivity.
Qed.

Lemma RuntimeError_unbound message :
  new_error "RuntimeError" RuntimeError message
  = TypeError "RuntimeError is not a constructor".
Proof. reflexivity. Qed.

(** C5, as the code has it.  The identifier is tested first and the
    endianness marker second, before any other field is looked at, but
    [RuntimeError] holds [Cesium.RuntimError], which is [undefined]: in both
    cases [new RuntimeError(...)] raises the same [TypeError], not the two
    [RuntimeError]s that the function documents. *)
Theorem magic_and_endianness_raise_TypeError data :
  (byte_value <$> take 12 (contents data) <> fileIdentifier ->
   parseKTX data = Throw (TypeError "RuntimeError is not a constructor"))
  /\ (forall marker,
        byte_value <$> take 12 (contents data) = fileIdentifier ->
        getUint32 (underlying data).1 ((underlying data).2 + 12) = Normal marker ->
        marker <> endiannessTest ->
        parseKTX data = Throw (TypeError "RuntimeError is not a constructor")).
Proof.
  destruct (parseKTX_first_checks RuntimeError data) as [Hm He]. split.
  - intros Hne. unfold parseKTX. rewrite (Hm Hne), RuntimeError_unbound. reflexivity.
  - intros marker Hid Hg Hne. unfold parseKTX.
    rewrite (He marker Hid Hg Hne), RuntimeError_unbound. reflexivity.
Qed.

(** With the name spelled as the package exports it, the two checks raise
    the two documented errors. *)
Lemma parseKTX_with_exported_RuntimeError data :
  (byte_value <$> take 12 (contents data) <> fileIdentifier ->
   parseKTX_with (Cesium !! "RuntimeError") data
   = Throw (Js.RuntimeError "Invalid KTX file."))
  /\ (forall marker,
        byte_value <$> take 12 (contents data) = fileIdentifier ->
        getUint32 (underlying data).1 ((underlying data).2 + 12) = Normal marker ->
        marker <> endiannessTest ->
        parseKTX_with (Cesium !! "RuntimeError") data
        = Throw (Js.RuntimeError "File is the wrong endianness.")).
Proof.
  destruct (parseKTX_first_checks (Cesium !! "RuntimeError") data) as [Hm He]. split.
  - intros Hne. rewrite (Hm Hne). reflexivity.
  - intros marker Hid Hg Hne. rewrite (He marker Hid Hg Hne). reflexivity.
Qed.

Lemma new_Uint8Array_buffer data off len texture :
  new_Uint8Array data off len = Normal texture -> buffer texture = contents data.
Proof.
  destruct data as [b|v]; simpl.
  - unfold Uint8Array_on. destruct (decide _); [|discriminate]. intros [= <-]. reflexivity.
  - intros [= <-]. reflexivity.
Qed.

Lemma bind_returns {A B} (c : completion A) (k : A -> completion B) r :
  Js.bind c k = Normal r -> exists a, c = Normal a /\ k a = Normal r.
Proof. destruct c as [a|e]; simpl; [eauto|discriminate]. Qed.

Lemma check_passed {A} (b : bool) (e : error) (rest : completion A) r :
  (if b then Throw e else rest) = Normal r -> b = false /\ rest = Normal r.
Proof. destruct b; [discriminate|auto]. Qed.

(** One step through [parseKTX_with] along a run that returns. *)
Ltac parse_step H :=
  first [ apply check_passed in H as [? H]
        | apply bind_returns in H as (? & ? & H) ].

Lemma mipmapped_view_with binding data r levels :
  parseKTX_with binding data = Normal r ->
  isCompressedFormat (internalFormat r) = true ->
  getUint32 (underlying data).1 ((underlying data).2 + 56) = Normal levels ->
  levels > 1 ->
  bufferView r
  = mkUint8Array (contents data) 0
      (compressedTextureSize (internalFormat r) (width r) (height r)).
Proof.
  unfold parseKTX_with, raise. intros Hp Hc Hl Hgt.
  destruct (underlying data) as [view off]. simpl in Hl.
  do 14 parse_step Hp.
  match goal with
  | E : getUint32 _ ?o = Normal ?a |- _ =>
      replace o with (off + 56) in E by (unfold sizeOfUint32; lia);
      assert (a = levels) by congruence; subst a; clear E
  end.
  repeat parse_step Hp.
  injection Hp as <-.
  cbn [internalFormat width height bufferView _format _width _height _buffer] in *.
  match goal with
  | T : new_Uint8Array _ _ _ = Normal ?t, U : (if _ && _ then _ else _) = Normal ?u |- _ =>
      rewrite Hc, (bool_decide_eq_true_2 _ Hgt) in U; cbn [andb] in U;
      rewrite (new_Uint8Array_buffer _ _ _ _ T) in U; unfold Uint8Array_on in U;
      destruct (decide _) in U; [|discriminate U]; injection U as <-
  end.
  reflexivity.
Qed.

(** C2, as the code has it.  When the container holds a compressed format
    and declares more than one mipmap level, the view that [parseKTX]
    returns has the length of level 0, but it is taken from offset 0 of the
    buffer: its bytes are the first bytes of the file, the identifier
    included, not the first bytes of the texture data. *)
Theorem mipmapped_view_starts_at_offset_zero data r levels :
  parseKTX data = Normal r ->
  isCompressedFormat (internalFormat r) = true ->
  getUint32 (underlying data).1 ((underlying data).2 + 56) = Normal levels ->
  levels > 1 ->
  let levelSize := compressedTextureSize (internalFormat r) (width r) (height r) in
  bufferView r = mkUint8Array (contents data) 0 levelSize
  /\ length (bufferView r) = levelSize
  /\ elements (bufferView r) = take (Z.to_nat levelSize) (contents data).
Proof.
  intros Hp Hc Hl Hgt levelSize.
  pose proof (mipmapped_view_with RuntimeError data r levels Hp Hc Hl Hgt) as Hv.
  fold levelSize in Hv. rewrite Hv. repeat split.
Qed.

End ParseKTX.

(** ** previousPowerOfTwo *)

Section PreviousPowerOfTwo.
Import Js Compress Invariants.

Lemma ToUint32_small x : 0 <= x < 2 ^ 32 -> ToUint32 x = x.
Proof. intros Hx. unfold ToUint32. apply Z.mod_small. exact Hx. Qed.

Lemma ToInt32_small x : 0 <= x < 2 ^ 31 -> ToInt32 x = x.
Proof.
  intros Hx. unfold ToInt32. rewrite ToUint32_small by lia.
  destruct (Z.ltb_spec x (2 ^ 31)); lia.
Qed.

Lemma lor_below a b k : 0 <= k -> 0 <= a < 2 ^ k -> 0 <= b < 2 ^ k -> 0 <= Z.lor a b < 2 ^ k.
Proof.
  intros Hk Ha Hb. split; [apply Z.lor_nonneg; lia|].
  destruct (Z.eq_dec (Z.lor a b) 0) as [->|Hne]; [lia|].
  assert (0 < Z.lor a b) by (pose proof (proj2 (Z.lor_nonneg a b)); lia).
  apply Z.log2_lt_pow2; [lia|]. rewrite Z.log2_lor by lia.
  destruct (Z.eq_dec a 0) as [->|]; destruct (Z.eq_dec b 0) as [->|];
    rewrite ?Z.lor_0_l, ?Z.lor_0_r in *; try lia.
  - simpl. rewrite Z.max_r by apply Z.log2_nonneg. apply Z.log2_lt_pow2; lia.
  - rewrite Z.max_l by (simpl; apply Z.log2_nonneg). apply Z.log2_lt_pow2; lia.
  - apply Z.max_lub_lt; apply Z.log2_lt_pow2; lia.
Qed.

Lemma shiftr_below a s k : 0 <= s -> 0 <= a < 2 ^ k -> 0 <= Z.shiftr a s < 2 ^ k.
Proof.
  intros Hs Ha. rewrite Z.shiftr_div_pow2 by lia.
  assert (0 < 2 ^ s) by lia. split; [apply Z.div_pos; lia|].
  apply Z.le_lt_trans with a; [|lia]. apply Z.div_le_upper_bound; nia.
Qed.

Lemma bit_or_small a b : 0 <= a < 2 ^ 31 -> 0 <= b < 2 ^ 31 -> bit_or a b = Z.lor a b.
Proof.
  intros Ha Hb. unfold bit_or. rewrite !ToUint32_small by lia.
  apply ToInt32_small. apply lor_below; lia.
Qed.

Lemma shift_right_small a s : 0 <= a < 2 ^ 31 -> 0 <= s < 32 -> shift_right a s = Z.shiftr a s.
Proof.
  intros Ha Hs. unfold shift_right. rewrite ToInt32_small by lia.
  rewrite Z.mod_small by lia. reflexivity.
Qed.

(** One smearing step [n | (n >> s)] on a number below 2^31. *)
Lemma smear_step n s :
  0 <= n < 2 ^ 31 -> 0 <= s < 32 ->
  bit_or n (shift_right n s) = Z.lor n (Z.shiftr n s)
  /\ 0 <= Z.lor n (Z.shiftr n s) < 2 ^ 31.
Proof.
  intros Hn Hs. rewrite shift_right_small by lia.
  pose proof (shiftr_below n s 31 ltac:(lia) Hn).
  rewrite bit_or_small by lia. split; [reflexivity|]. apply lor_below; lia.
Qed.

Lemma smeared_start n : 0 < n -> smeared (Z.log2 n) 1 n.
Proof.
  intros Hn. split.
  - pose proof (Z.log2_spec n Hn). replace (Z.log2 n + 1) with (Z.succ (Z.log2 n)) by lia. lia.
  - intros i Hi Hr. replace i with (Z.log2 n) by lia. apply Z.bit_log2. exact Hn.
Qed.

Lemma smeared_step l w m :
  0 <= l -> 0 < w -> smeared l w m -> smeared l (2 * w) (Z.lor m (Z.shiftr m w)).
Proof.
  intros Hl Hw [Hm Hbits].
  assert (0 < 2 ^ l) by lia.
  split.
  - split.
    + assert (0 <= Z.shiftr m w) by (apply Z.shiftr_nonneg; lia).
      assert (0 < m) by lia.
      assert (0 < Z.lor m (Z.shiftr m w)).
      { assert (0 <= Z.lor m (Z.shiftr m w)) by (apply Z.lor_nonneg; lia).
        assert (Z.lor m (Z.shiftr m w) <> 0); [|lia].
        intros E. apply Z.lor_eq_0_iff in E. lia. }
      apply Z.log2_le_pow2; [lia|]. rewrite Z.log2_lor by lia.
      apply Z.le_trans with (Z.log2 m); [|apply Z.le_max_l].
      apply Z.log2_le_pow2; lia.
    + apply lor_below; [lia|lia|]. apply shiftr_below; lia.
  - intros i Hi Hr. rewrite Z.lor_spec. rewrite Z.shiftr_spec by lia.
    destruct (Z.le_gt_cases i (l - w)).
    + rewrite (Hbits (i + w)) by lia. apply orb_true_r.
    + rewrite (Hbits i) by lia. reflexivity.
Qed.

Lemma smeared_full l w m : 0 <= l < w -> smeared l w m -> m = 2 ^ (l + 1) - 1.
Proof.
  intros Hl [Hm Hbits].
  replace (2 ^ (l + 1) - 1) with (Z.ones (l + 1)) by (rewrite Z.ones_equiv; lia).
  apply Z.bits_inj'. intros i Hi.
  destruct (Z.le_gt_cases i l).
  - rewrite Hbits by lia. rewrite Z.ones_spec_low by lia. reflexivity.
  - rewrite Z.ones_spec_high by lia.
    apply Z.bits_above_log2; [lia|].
    apply Z.log2_lt_pow2; [assert (0 < 2 ^ l) by lia; lia|].
    apply Z.lt_le_trans with (2 ^ (l + 1)); [lia|].
    apply Z.pow_le_mono_r; lia.
Qed.

(** One step of the smearing, with what it preserves. *)
Lemma smear_smeared l w n :
  0 <= l -> 0 < w < 32 -> 0 <= n < 2 ^ 31 -> smeared l w n ->
  exists m, bit_or n (shift_right n w) = m /\ 0 <= m < 2 ^ 31 /\ smeared l (2 * w) m.
Proof.
  intros Hl Hw Hn S. exists (Z.lor n (Z.shiftr n w)).
  destruct (smear_step n w Hn ltac:(lia)) as [E B].
  split; [exact E|]. split; [exact B|]. apply smeared_step; [lia|lia|exact S].
Qed.

Lemma previousPowerOfTwo_pow2 n :
  0 < n < 2 ^ 31 -> previousPowerOfTwo n = 2 ^ Z.log2 n.
Proof.
  intros Hn. unfold previousPowerOfTwo.
  assert (Hl : 0 <= Z.log2 n < 31).
  { split; [apply Z.log2_nonneg|]. apply Z.log2_lt_pow2; lia. }
  pose proof (smeared_start n ltac:(lia)) as S0.
  destruct (smear_smeared (Z.log2 n) 1 n ltac:(lia) ltac:(lia) ltac:(lia) S0) as (n1 & -> & B1 & S1).
  destruct (smear_smeared (Z.log2 n) 2 n1 ltac:(lia) ltac:(lia) B1 S1) as (n2 & -> & B2 & S2).
  destruct (smear_smeared (Z.log2 n) 4 n2 ltac:(lia) ltac:(lia) B2 S2) as (n3 & -> & B3 & S3).
  destruct (smear_smeared (Z.log2 n) 8 n3 ltac:(lia) ltac:(lia) B3 S3) as (n4 & -> & B4 & S4).
  destruct (smear_smeared (Z.log2 n) 16 n4 ltac:(lia) ltac:(lia) B4 S4) as (n5 & -> & B5 & S5).
  apply (smeared_full _ 32) in S5; [|lia]. subst n5.
  rewrite shift_right_small by lia.
  rewrite Z.shiftr_div_pow2 by lia.
  replace (2 ^ (Z.log2 n + 1)) with (2 * 2 ^ Z.log2 n) by (rewrite Z.pow_add_r; lia).
  assert (0 < 2 ^ Z.log2 n) by lia.
  replace ((2 * 2 ^ Z.log2 n - 1) / 2 ^ 1) with (2 ^ Z.log2 n - 1); [lia|].
  apply Z.div_unique with 1; lia.
Qed.

Lemma isPowerOfTwo_pow2 a : 0 <= a -> isPowerOfTwo (2 ^ a) = Normal true.
Proof.
  intros Ha. unfold isPowerOfTwo.
  assert (0 < 2 ^ a) by lia.
  destruct (Z.ltb_spec (2 ^ a) 0); [lia|].
  destruct (Z.eqb_spec (2 ^ a) 0); [lia|]. simpl.
  assert (E : bit_and (2 ^ a) (2 ^ a - 1) = 0); [|rewrite E; reflexivity].
  unfold bit_and. assert (L : Z.land (ToUint32 (2 ^ a)) (ToUint32 (2 ^ a - 1)) = 0);
    [|rewrite L; reflexivity].
  unfold ToUint32. destruct (Z.lt_ge_cases a 32).
  - assert (2 ^ a < 2 ^ 32) by (apply Z.pow_lt_mono_r; lia).
    rewrite !Z.mod_small by lia.
    replace (2 ^ a - 1) with (Z.ones a) by (rewrite Z.ones_equiv; lia).
    rewrite Z.land_ones by lia. apply Z.mod_same. lia.
  - replace (2 ^ a) with (2 ^ (a - 32) * 2 ^ 32) by (rewrite <- Z.pow_add_r; [f_equal|..]; lia).
    rewrite Z.mod_mul by lia. apply Z.land_0_l.
Qed.

End PreviousPowerOfTwo.

(** ** The per-image branch of compressTextures *)

Section PerImage.
Import Js Compress.
Context {H : Host}.

Lemma compressFile_trace imageId inputPath tempDirectory compressFunction options p :
  compressFile imageId inputPath tempDirectory compressFunction options = Normal p ->
  Forall (fun e => isPixelOperation e = false) (trace p).
Proof.
  unfold compressFile. destruct (containerExtension options); simpl; [|discriminate].
  destruct (call_compressFunction _ _ _ _); simpl; [|discriminate].
  intros [= <-]. destruct (createProcess _ _); simpl; repeat constructor.
Qed.

Lemma compressBuffer_trace imageId buffer extension tempDirectory compressFunction options :
  Forall (fun e => isPixelOperation e = false)
    (trace (compressBuffer imageId buffer extension tempDirectory compressFunction options)).
Proof.
  unfold compressBuffer. destruct (fs_outputFile _ _); simpl; [repeat constructor|].
  destruct (compressFile _ _ _ _ _) eqn:E; simpl; [|repeat constructor].
  constructor; [reflexivity|]. eapply compressFile_trace, E.
Qed.

Lemma compressJimpImage_trace imageId jimpImage tempDirectory compressFunction options :
  exists rest,
    trace (compressJimpImage imageId jimpImage tempDirectory compressFunction options)
    = EncodePNG jimpImage :: rest
    /\ Forall (fun e => isPixelOperation e = false) rest.
Proof.
  unfold compressJimpImage. destruct (Jimp_getBuffer_PNG jimpImage); simpl.
  - eexists. split; [reflexivity|]. apply compressBuffer_trace.
  - exists []. split; [reflexivity|constructor].
Qed.

Lemma no_pixel_operation_no_resize (l : list io) :
  Forall (fun e => isPixelOperation e = false) l -> Forall (fun e => isResize e = false) l.
Proof.
  intros Hl. eapply Forall_impl; [exact Hl|]. intros [] E; simpl in *; congruence.
Qed.

(** The raw branch of the loop body, on an image that has been decoded. *)
Lemma startImage_raw format options inputExtensions compressFunction tempDirectory
    imageId image jimp jimp' resized :
  jimpImage image = Some jimp ->
  resizeStep true jimp = Normal (jimp', resized) ->
  startImage format options inputExtensions compressFunction true tempDirectory imageId image
  = let p := compressJimpImage imageId jimp' tempDirectory compressFunction
               (combine options {[ "transparent" := VBoolean (transparent image) ]}) in
    Normal (mkPipelineExtras (absolutePath image) (Some jimp') (source image)
              (transparent image) (extension image) (imageChanged image),
            mkPromise (resized ++ trace p)%list (outcome p)).
Proof.
  intros Hj Hr. unfold startImage, needsRawImage. rewrite Hj. cbn [orb Js.bind].
  rewrite Hr. reflexivity.
Qed.

(** C3.  [previousPowerOfTwo(n)] is the largest power of two that is at
    most [n], for every positive [n] of the 32-bit integers the operators
    [|] and [>>] work on, that is below 2^31.  Under a format that sets
    [resizeToPowerOfTwo], an image of 211 by 211 pixels is resized to 128 by
    128, and an image whose two dimensions are powers of two is not
    resized. *)
Theorem previousPowerOfTwo_largest_power_below :
  (forall n, 0 < n < 2 ^ 31 ->
     exists k, 0 <= k /\ previousPowerOfTwo n = 2 ^ k /\ 2 ^ k <= n < 2 ^ (k + 1))
  /\ (forall format options inputExtensions compressFunction tempDirectory imageId image jimp,
        chooseTool format = (inputExtensions, compressFunction, true) ->
        jimpImage image = Some jimp ->
        bitmap_width jimp = 211 -> bitmap_height jimp = 211 ->
        exists image' p,
          startImage format options inputExtensions compressFunction true
            tempDirectory imageId image = Normal (image', p)
          /\ jimpImage image' = Some (resize jimp 128 128)
          /\ bitmap_width (resize jimp 128 128) = 128
          /\ bitmap_height (resize jimp 128 128) = 128
          /\ head (trace p) = Some (Resize 128 128))
  /\ (forall format options inputExtensions compressFunction tempDirectory imageId image jimp a b,
        chooseTool format = (inputExtensions, compressFunction, true) ->
        jimpImage image = Some jimp ->
        0 <= a -> 0 <= b ->
        bitmap_width jimp = 2 ^ a -> bitmap_height jimp = 2 ^ b ->
        exists p,
          startImage format options inputExtensions compressFunction true
            tempDirectory imageId image = Normal (image, p)
          /\ Forall (fun e => isResize e = false) (trace p)).
Proof.
  split; [|split].
  - intros n Hn. exists (Z.log2 n). split; [apply Z.log2_nonneg|].
    split; [apply previousPowerOfTwo_pow2; exact Hn|].
    replace (Z.log2 n + 1) with (Z.succ (Z.log2 n)) by lia. apply Z.log2_spec. lia.
  - intros format options inputExtensions compressFunction tempDirectory imageId image jimp
      _ Hj Hw Hh.
    assert (Hr : resizeStep true jimp = Normal (resize jimp 128 128, [Resize 128 128])).
    { unfold resizeStep. rewrite Hw, Hh. reflexivity. }
    rewrite (startImage_raw _ _ _ _ _ _ _ _ _ _ Hj Hr). simpl.
    eexists _, _. split; [reflexivity|]. repeat split.
  - intros format options inputExtensions compressFunction tempDirectory imageId image jimp a b
      _ Hj Ha Hb Hw Hh.
    assert (Hr : resizeStep true jimp = Normal (jimp, [])).
    { unfold resizeStep. rewrite Hw, Hh, !isPowerOfTwo_pow2 by lia. reflexivity. }
    rewrite (startImage_raw _ _ _ _ _ _ _ _ _ _ Hj Hr). simpl.
    eexists. split.
    + f_equal. f_equal. destruct image; simpl in *. congruence.
    + simpl. destruct (compressJimpImage_trace imageId jimp tempDirectory compressFunction
        (combine options {[ "transparent" := VBoolean (transparent image) ]})) as (rest & -> & Hrest).
      constructor; [reflexivity|]. apply no_pixel_operation_no_resize, Hrest.
Qed.

Lemma get_combine_l (o o' : gmap string value) k v :
  get o k = v -> v <> VUndefined -> get (combine o o') k = v.
Proof.
  unfold get, combine. intros E Hv. destruct (o !! k) as [x|] eqn:L; simpl in E.
  - subst x. erewrite lookup_union_Some_l by exact L. reflexivity.
  - congruence.
Qed.

Lemma compressFile_container imageId inputPath tempDirectory compressFunction options p c :
  compressFile imageId inputPath tempDirectory compressFunction options = Normal p ->
  outcome p = Fulfilled c ->
  containerExtension options = Normal (container c).
Proof.
  unfold compressFile. destruct (containerExtension options) as [ext|]; simpl; [|discriminate].
  destruct (call_compressFunction _ _ _ _); simpl; [|discriminate].
  intros [= <-]. destruct (createProcess _ _); simpl; [|discriminate].
  destruct (fs_readFile _); [|discriminate]. intros [= <-]. reflexivity.
Qed.

Lemma compressBuffer_container imageId buffer extension tempDirectory compressFunction options c :
  outcome (compressBuffer imageId buffer extension tempDirectory compressFunction options)
  = Fulfilled c ->
  containerExtension options = Normal (container c).
Proof.
  unfold compressBuffer. destruct (fs_outputFile _ _); simpl; [discriminate|].
  destruct (compressFile _ _ _ _ _) eqn:E; simpl; [|discriminate].
  intros Hc. eapply compressFile_container; eassumption.
Qed.

Lemma compressJimpImage_container imageId jimpImage tempDirectory compressFunction options c :
  outcome (compressJimpImage imageId jimpImage tempDirectory compressFunction options)
  = Fulfilled c ->
  containerExtension options = Normal (container c).
Proof.
  unfold compressJimpImage. destruct (Jimp_getBuffer_PNG _); simpl; [|discriminate].
  apply compressBuffer_container.
Qed.

Lemma startImage_container format options inputExtensions compressFunction resizeToPowerOfTwo
    tempDirectory imageId image image' p c :
  startImage format options inputExtensions compressFunction resizeToPowerOfTwo
    tempDirectory imageId image = Normal (image', p) ->
  outcome p = Fulfilled c ->
  containerExtension (combine options {[ "transparent" := VBoolean (transparent image) ]})
  = Normal (container c).
Proof.
  unfold startImage. destruct (needsRawImage _ _ _) as [[|]|]; simpl; [| |discriminate].
  - destruct (jimpImage image); [|discriminate].
    destruct (resizeStep _ _) as [[jimp' resized]|]; simpl; [|discriminate].
    intros [= <- <-]. simpl. apply compressJimpImage_container.
  - destruct (absolutePath image).
    + destruct (compressFile _ _ _ _ _) eqn:E; simpl; [|discriminate].
      intros [= <- <-] Hc. eapply compressFile_container; eassumption.
    + intros [= <- <-]. apply compressBuffer_container.
Qed.

(** C8.  A compression that succeeds yields the extension [.ktx] for
    pvrtc1, pvrtc2, etc1, etc2, astc, dxt1, dxt3 and dxt5, and the crunch
    extension [.crn] exactly for crunch-dxt1, crunch-dxt3 and crunch-dxt5;
    [replaceImage] installs that extension in the image. *)
Theorem container_extension_by_format format options inputExtensions compressFunction
    resizeToPowerOfTwo tempDirectory imageId image image' p c :
  format ∈ formats ->
  get options "format" = VString format ->
  startImage format options inputExtensions compressFunction resizeToPowerOfTwo
    tempDirectory imageId image = Normal (image', p) ->
  outcome p = Fulfilled c ->
  (format ∈ ["pvrtc1"; "pvrtc2"; "etc1"; "etc2"; "astc"; "dxt1"; "dxt3"; "dxt5"]
     -> container c = ".ktx")
  /\ (container c = ".crn" <-> format ∈ ["crunch-dxt1"; "crunch-dxt3"; "crunch-dxt5"])
  /\ extension (replaceImage image' c) = container c.
Proof.
  intros Hf Hg Hs Hc.
  pose proof (startImage_container _ _ _ _ _ _ _ _ _ _ _ Hs Hc) as E.
  unfold containerExtension in E.
  erewrite get_combine_l in E; [|exact Hg|discriminate].
  split; [|split; [|reflexivity]]; revert E; generalize (container c); intros ext E.
  - intros Hk. repeat (apply elem_of_cons in Hk as [->|Hk]; [vm_compute in E; congruence|]).
    inversion Hk.
  - unfold formats in Hf.
    repeat (apply elem_of_cons in Hf as [->|Hf];
            [vm_compute in E; injection E as <-;
             split; [first [discriminate | intros _; decide_true]
                    |first [reflexivity | intros Hk; decide_false Hk]]|]).
    inversion Hf.
Qed.

Lemma startImage_passthrough format options exts compressFunction tempDirectory imageId image :
  extension image ∈ exts ->
  imageChanged image = false ->
  startImage format options (Some exts) compressFunction false tempDirectory imageId image
  = match absolutePath image with
    | Some a =>
        let! p := compressFile imageId a tempDirectory compressFunction
                    (combine options {[ "transparent" := VBoolean (transparent image) ]}) in
        Normal (image, p)
    | None =>
        Normal (image, compressBuffer imageId (source image) (extension image) tempDirectory
                         compressFunction
                         (combine options {[ "transparent" := VBoolean (transparent image) ]}))
    end.
Proof.
  intros He Hc. unfold startImage, needsRawImage. rewrite Hc. cbn [orb includes].
  rewrite bool_decide_eq_true_2 by exact He. reflexivity.
Qed.

(** Every encoder is given the input path among its arguments. *)
Lemma call_compressFunction_input compressFunction inputPath outputPath options cli :
  call_compressFunction compressFunction inputPath outputPath options = Normal cli ->
  VString inputPath ∈ Compress.options cli.
Proof.
  destruct compressFunction as [[]|]; simpl; [| | | |discriminate].
  - intros [= <-]. simpl. set_solver.
  - intros [= <-]. simpl. set_solver.
  - unfold compressWithCrunch. destruct (get options "format"); try discriminate.
    destruct (0 <=? indexOf s "crunch"); intros [= <-]; simpl; set_solver.
  - unfold compressWithAstcenc.
    destruct (negb (strict_equal (get options "bitrate") (VNumber (Fin 2)))).
    + destruct (numberToString (get options "bitrate")); simpl; [|discriminate].
      destruct (ToBoolean (get options "transparent")); intros [= <-]; simpl; set_solver.
    + simpl. destruct (ToBoolean (get options "transparent")); intros [= <-]; simpl; set_solver.
Qed.

Lemma compressFile_spawns imageId inputPath tempDirectory compressFunction options p :
  compressFile imageId inputPath tempDirectory compressFunction options = Normal p ->
  exists toolPath args rest,
    trace p = Spawn toolPath args :: rest /\ VString inputPath ∈ args.
Proof.
  unfold compressFile. destruct (containerExtension options); simpl; [|discriminate].
  destruct (call_compressFunction _ _ _ _) as [cli|] eqn:E; simpl; [|discriminate].
  apply call_compressFunction_input in E.
  intros [= <-]. destruct (createProcess _ _); simpl; eauto.
Qed.

(** With a format that leaves [resizeToPowerOfTwo] unset and the encoder
    chosen for it, [compressFile] does not throw. *)
Lemma compressFile_returns imageId inputPath tempDirectory format options :
  format ∈ ["pvrtc1"; "pvrtc2"; "dxt1"; "dxt3"; "dxt5";
            "crunch-dxt1"; "crunch-dxt3"; "crunch-dxt5"] ->
  get options "format" = VString format ->
  exists p, compressFile imageId inputPath tempDirectory (chooseTool format).1.2 options
            = Normal p.
Proof.
  intros Hf Hg. unfold compressFile, containerExtension. rewrite Hg.
  assert (Hc : forall i o, exists cli,
             call_compressFunction (chooseTool format).1.2 i o options = Normal cli).
  { intros i o.
    repeat (apply elem_of_cons in Hf as [->|Hf];
            [simpl; unfold compressWithCrunch; rewrite ?Hg; simpl; eauto|]).
    inversion Hf. }
  destruct (0 <=? indexOf format "crunch"); simpl;
    match goal with |- context [call_compressFunction ?t ?i ?o ?opts] =>
      destruct (Hc i o) as [cli ->] end; simpl; eauto.
Qed.

Lemma chooseTool_without_resize format exts compressFunction :
  format ∈ formats ->
  chooseTool format = (exts, compressFunction, false) ->
  format ∈ ["pvrtc1"; "pvrtc2"; "dxt1"; "dxt3"; "dxt5";
            "crunch-dxt1"; "crunch-dxt3"; "crunch-dxt5"].
Proof.
  intros Hf Hc. unfold formats in Hf.
  repeat (apply elem_of_cons in Hf as [->|Hf];
          [first [discriminate Hc | decide_true]|]).
  inversion Hf.
Qed.

(** C1, as the code has it.  Under a supported format that leaves
    [resizeToPowerOfTwo] unset (pvrtc1, pvrtc2, dxt1, dxt3, dxt5 and the
    three crunch formats), an image whose extension the encoder accepts and
    that has not changed is passed through: the image is left as it is, no
    resize and no PNG encoding takes place, and the encoder is started on
    the external file itself or on a temporary file holding the bytes of
    [source].  Under a format that sets [resizeToPowerOfTwo] (etc1, etc2,
    astc) every promise that is started encodes the decoded pixels again. *)
Theorem passthrough_without_resize_flag format options tempDirectory imageId image :
  (forall exts compressFunction,
     format ∈ formats ->
     chooseTool format = (Some exts, compressFunction, false) ->
     get options "format" = VString format ->
     extension image ∈ exts ->
     imageChanged image = false ->
     exists p,
       startImage format options (Some exts) compressFunction false
         tempDirectory imageId image = Normal (image, p)
       /\ Forall (fun e => isPixelOperation e = false) (trace p)
       /\ match absolutePath image with
          | Some a =>
              exists toolPath args rest,
                trace p = Spawn toolPath args :: rest /\ VString a ∈ args
          | None =>
              let inputPath :=
                getTempImagePath (InputOf imageId) tempDirectory (extension image) in
              exists after,
                trace p = WriteFile inputPath (source image) :: after
                /\ (fs_outputFile inputPath (source image) = None ->
                    exists toolPath args rest,
                      after = Spawn toolPath args :: rest /\ VString inputPath ∈ args)
          end)
  /\ (forall exts compressFunction image' p,
        chooseTool format = (exts, compressFunction, true) ->
        startImage format options exts compressFunction true
          tempDirectory imageId image = Normal (image', p) ->
        exists jimp, EncodePNG jimp ∈ trace p).
Proof.
  split.
  - intros exts compressFunction Hf Hc Hg He Hch.
    pose proof (chooseTool_without_resize _ _ _ Hf Hc) as H8.
    assert (Htool : compressFunction = (chooseTool format).1.2) by (rewrite Hc; reflexivity).
    set (copts := combine options {[ "transparent" := VBoolean (transparent image) ]}).
    assert (Hg' : get copts "format" = VString format)
      by (apply get_combine_l; [exact Hg|discriminate]).
    rewrite startImage_passthrough by assumption. fold copts.
    destruct (absolutePath image) as [a|].
    + destruct (compressFile_returns imageId a tempDirectory format copts H8 Hg') as [p Hp].
      rewrite <- Htool in Hp. rewrite Hp. simpl. exists p.
      split; [reflexivity|]. split; [eapply compressFile_trace, Hp|].
      eapply compressFile_spawns, Hp.
    + eexists. split; [reflexivity|]. split; [apply compressBuffer_trace|].
      unfold compressBuffer.
      set (inputPath := getTempImagePath (InputOf imageId) tempDirectory (extension image)).
      destruct (compressFile_returns imageId inputPath tempDirectory format copts H8 Hg')
        as [p Hp].
      rewrite <- Htool in Hp.
      destruct (fs_outputFile inputPath (source image)); simpl.
      * eexists. split; [reflexivity|]. discriminate.
      * rewrite Hp. simpl. eexists. split; [reflexivity|]. intros _.
        eapply compressFile_spawns, Hp.
  - intros exts compressFunction image' p _. unfold startImage, needsRawImage.
    cbn [orb Js.bind]. destruct (jimpImage image) as [jimp|]; [|discriminate].
    destruct (resizeStep true jimp) as [[jimp' resized]|]; simpl; [|discriminate].
    intros [= <- <-]. simpl.
    destruct (compressJimpImage_trace imageId jimp' tempDirectory compressFunction
      (combine options {[ "transparent" := VBoolean (transparent image) ]}))
      as (rest & -> & _).
    exists jimp'. apply elem_of_app. right. left.
Qed.

End PerImage.

(** ** compressTextures: options, validation and the loop *)

Section Orchestration.
Import Js Compress.
Context {H : Host}.

Lemma get_insert_eq (o : gmap string value) k v : get (<[ k := v ]> o) k = v.
Proof. unfold get. rewrite lookup_insert_eq. reflexivity. Qed.

Lemma get_insert_ne (o : gmap string value) k k' v :
  k <> k' -> get (<[ k := v ]> o) k' = get o k'.
Proof. intros Hk. unfold get. rewrite lookup_insert_ne by exact Hk. reflexivity. Qed.

Lemma get_setDefaults options :
  get (setDefaults options) "quality" = defaultValue (get options "quality") (VNumber (Fin 5))
  /\ get (setDefaults options) "bitrate" = defaultValue (get options "bitrate") (VNumber (Fin 2))
  /\ get (setDefaults options) "blockSize" = defaultValue (get options "blockSize") (VString "8x8")
  /\ get (setDefaults options) "alphaBit" = defaultValue (get options "alphaBit") (VBoolean false).
Proof.
  unfold setDefaults.
  repeat split;
    repeat first [ rewrite get_insert_eq | rewrite get_insert_ne by discriminate ];
    reflexivity.
Qed.

Lemma lookup_setDefaults options k d :
  (k, d) ∈ [("quality", VNumber (Fin 5)); ("bitrate", VNumber (Fin 2));
            ("blockSize", VString "8x8"); ("alphaBit", VBoolean false)] ->
  setDefaults options !! k = Some (defaultValue (get options k) d).
Proof.
  intros Hk. unfold setDefaults.
  repeat (apply elem_of_cons in Hk as [[= -> ->]|Hk];
          [rewrite ?lookup_insert_ne by discriminate; rewrite lookup_insert_eq;
           rewrite ?get_insert_ne by discriminate; reflexivity|]).
  inversion Hk.
Qed.

Lemma lookup_setDefaults_other options k :
  k ∉ ["quality"; "bitrate"; "blockSize"; "alphaBit"] ->
  setDefaults options !! k = options !! k.
Proof.
  intros Hk. unfold setDefaults.
  rewrite !lookup_insert_ne; [reflexivity|..]; intros <-; apply Hk; decide_true.
Qed.

Lemma defaultValue_defined v d : defined v = true -> defaultValue v d = v.
Proof. destruct v; simpl; congruence. Qed.

(** The checks on the options throw nothing but a [DeveloperError]. *)
Lemma checkOptions_throws format options e :
  checkOptions format options = Throw e -> exists message, e = DeveloperError message.
Proof.
  unfold checkOptions.
  repeat match goal with
         | |- context [if ?b then _ else _] => destruct b
         end; intros [= <-]; eauto.
Qed.

(** What the function does once the format has been accepted. *)
Lemma compressTextures_accepted gltf options format :
  get options "format" = VString format ->
  format ∈ formats ->
  compressTextures (Some gltf) (Some options)
  = match checkOptions format (setDefaults options) with
    | Throw e => mkOutcome (setDefaults options) (images gltf) [] (Throw e)
    | Normal _ =>
        let '(inputExtensions, compressFunction, resizeToPowerOfTwo) := chooseTool format in
        let '(st, unvisited, thrown) :=
          forEachImage format (setDefaults options) inputExtensions compressFunction
            resizeToPowerOfTwo getTempDirectory (images gltf) (mkLoop [] []) in
        mkOutcome (setDefaults options) (visited st ++ unvisited)%list (promises st)
          match thrown with
          | Some e => Throw e
          | None => Normal (mkBatch getTempDirectory (promises st))
          end
    end.
Proof.
  intros Hg Hf. unfold compressTextures. simpl default. rewrite Hg. simpl.
  rewrite bool_decide_eq_true_2 by exact Hf. reflexivity.
Qed.

(** Before the format has been accepted nothing is written and nothing is
    started. *)
Lemma compressTextures_rejected gltf options :
  includes formats (get options "format") = false ->
  exists message,
    compressTextures gltf (Some options)
    = mkOutcome options (match gltf with Some g => images g | None => [] end) []
        (Throw (DeveloperError message)).
Proof.
  intros Hi. unfold compressTextures. simpl default. destruct gltf as [g|]; [|eauto].
  destruct (defined (get options "format")); simpl; [|eauto].
  rewrite Hi. simpl. eauto.
Qed.

Lemma includes_inv array v :
  includes array v = true -> exists s, v = VString s /\ s ∈ array.
Proof.
  destruct v; simpl; try discriminate. intros Hb. apply bool_decide_eq_true in Hb. eauto.
Qed.

(** C4.  [compressTextures] throws a [DeveloperError] from the call itself,
    with no promise started, whenever the format is not one of the eleven
    names, the quality is below 0 or above 10, the bitrate given with
    pvrtc1 or pvrtc2 is neither 2 nor 4, or the block size given with astc is
    not one of the fourteen values. *)
Theorem invalid_options_throw_synchronously gltf options :
  includes formats (get options "format") = false
  \/ lt (ToNumber (get options "quality")) (Fin 0) || lt (Fin 10) (ToNumber (get options "quality")) = true
  \/ ((get options "format" = VString "pvrtc1" \/ get options "format" = VString "pvrtc2")
      /\ defined (get options "bitrate") = true
      /\ strict_equal (get options "bitrate") (VNumber (Fin 2)) = false
      /\ strict_equal (get options "bitrate") (VNumber (Fin 4)) = false)
  \/ (get options "format" = VString "astc"
      /\ defined (get options "blockSize") = true
      /\ includes astcBlockSizes (get options "blockSize") = false) ->
  exists message,
    returned (compressTextures gltf (Some options)) = Throw (DeveloperError message)
    /\ started (compressTextures gltf (Some options)) = [].
Proof.
  intros Hbad.
  destruct (includes formats (get options "format")) eqn:Hi.
  2:{ destruct (compressTextures_rejected gltf options Hi) as [message ->]. eauto. }
  destruct gltf as [g|]; [|simpl; eauto].
  destruct (includes_inv _ _ Hi) as (format & Hg & Hf).
  rewrite (compressTextures_accepted g options format Hg Hf).
  destruct (checkOptions format (setDefaults options)) as [[]|e] eqn:Hc.
  2:{ destruct (checkOptions_throws _ _ _ Hc) as [message ->]. simpl. eauto. }
  exfalso. revert Hc. unfold checkOptions.
  destruct (get_setDefaults options) as (Eq & Eb & Es & _). rewrite Eq, Eb, Es.
  destruct Hbad as [Hbad|[Hq|[(Hfmt & Hd & H2 & H4)|(Hfmt & Hd & Hs)]]].
  - discriminate.
  - assert (Hdq : defined (get options "quality") = true)
      by (destruct (get options "quality"); [discriminate Hq|reflexivity..]).
    rewrite (defaultValue_defined _ _ Hdq), Hq. discriminate.
  - rewrite (defaultValue_defined _ _ Hd), H2, H4.
    assert (Ep : String.eqb format "pvrtc1" || String.eqb format "pvrtc2" = true)
      by (destruct Hfmt as [Hfmt|Hfmt]; rewrite Hfmt in Hg; injection Hg as <-; reflexivity).
    rewrite Ep. destruct (lt _ _ || lt _ _); [discriminate|]. cbn [andb negb]. discriminate.
  - rewrite (defaultValue_defined _ _ Hd), Hs.
    rewrite Hfmt in Hg; injection Hg as <-.
    destruct (lt _ _ || lt _ _); [discriminate|]. simpl. discriminate.
Qed.

(** C9, as the code has it.  Once [gltf] is defined and the format is one
    of the eleven names, the four defaults are written into the caller's
    options object before the checks on quality, bitrate and block size, and
    stay there whether or not those checks throw: a property that was absent
    holds its default, a property that was set keeps its value, and every
    other property is unchanged.  When [gltf] is undefined, or the format is
    missing or is not one of the eleven names, the call throws a
    [DeveloperError] before anything is written: the options object is as the
    caller gave it and nothing has been started; with no options object at
    all the call throws in the same way. *)
Theorem defaults_written_into_options gltf options :
  (includes formats (get options "format") = true ->
   let after := optionsAfter (compressTextures (Some gltf) (Some options)) in
   (forall k d,
      (k, d) ∈ [("quality", VNumber (Fin 5)); ("bitrate", VNumber (Fin 2));
                ("blockSize", VString "8x8"); ("alphaBit", VBoolean false)] ->
      (get options k = VUndefined -> after !! k = Some d)
      /\ (get options k <> VUndefined -> after !! k = options !! k))
   /\ (forall k, k ∉ ["quality"; "bitrate"; "blockSize"; "alphaBit"] ->
         after !! k = options !! k))
  /\ (forall given : option Gltf,
        given = None \/ includes formats (get options "format") = false ->
        exists message,
          returned (compressTextures given (Some options)) = Throw (DeveloperError message)
          /\ optionsAfter (compressTextures given (Some options)) = options
          /\ started (compressTextures given (Some options)) = [])
  /\ (forall given : option Gltf,
        exists message,
          returned (compressTextures given None) = Throw (DeveloperError message)
          /\ optionsAfter (compressTextures given None) = ∅
          /\ started (compressTextures given None) = []).
Proof.
  split; [|split].
  - intros Hi after.
    destruct (includes_inv _ _ Hi) as (format & Hg & Hf).
    assert (Ha : after = setDefaults options).
    { unfold after. rewrite (compressTextures_accepted gltf options format Hg Hf).
      destruct (checkOptions _ _); [|reflexivity].
      destruct (chooseTool format) as [[exts tool] rz].
      destruct (forEachImage _ _ _ _ _ _ _ _) as [[st unvisited] thrown]. reflexivity. }
    rewrite Ha. split; [|apply lookup_setDefaults_other].
    intros k d Hk. rewrite (lookup_setDefaults options k d Hk). unfold get.
    destruct (options !! k) as [[]|]; simpl; split; congruence.
  - intros given [-> |Hi].
    + eexists. unfold compressTextures. simpl. repeat split.
    + destruct (compressTextures_rejected given options Hi) as [message ->].
      exists message. repeat split.
  - intros [g|]; eexists; unfold compressTextures; simpl; repeat split.
Qed.

(** The loop stops at the first image whose iteration throws: the images
    before it have their promises, the images from it on have none. *)
Lemma forEachImage_stops format options inputExtensions compressFunction resizeToPowerOfTwo
    tempDirectory before imageId image rest e :
  Forall (fun x => exists r,
            startImage format options inputExtensions compressFunction resizeToPowerOfTwo
              tempDirectory x.1 x.2 = Normal r) before ->
  startImage format options inputExtensions compressFunction resizeToPowerOfTwo
    tempDirectory imageId image = Throw e ->
  forall st, exists st',
    forEachImage format options inputExtensions compressFunction resizeToPowerOfTwo
      tempDirectory (before ++ (imageId, image) :: rest)%list st
    = (st', (imageId, image) :: rest, Some e)
    /\ (promises st').*1 = ((promises st).*1 ++ before.*1)%list.
Proof.
  intros Hb He. induction Hb as [|[i x] before [[x' p] Hx] Hb IH]; intros st.
  - simpl. rewrite He. exists st. split; [reflexivity|]. rewrite app_nil_r. reflexivity.
  - simpl in Hx |- *. rewrite Hx.
    destruct (IH (mkLoop (visited st ++ [(i, x')])%list (promises st ++ [(i, p)])%list))
      as (st' & -> & Hp).
    exists st'. split; [reflexivity|]. rewrite Hp. simpl.
    rewrite fmap_app, <- app_assoc. reflexivity.
Qed.

(** Every promise the loop pushes is the one [startImage] starts for an
    image of the list. *)
Lemma forEachImage_promises format options inputExtensions compressFunction resizeToPowerOfTwo
    tempDirectory (all : list (string * PipelineExtras)) todo st :
  let started_by (y : string * Promise) :=
    exists image image',
      (y.1, image) ∈ all
      /\ startImage format options inputExtensions compressFunction resizeToPowerOfTwo
           tempDirectory y.1 image = Normal (image', y.2) in
  todo ⊆ all ->
  Forall started_by (promises st) ->
  Forall started_by
    (promises (forEachImage format options inputExtensions compressFunction
                 resizeToPowerOfTwo tempDirectory todo st).1.1).
Proof.
  intros started_by. revert st. induction todo as [|[imageId image] todo IH]; intros st Hsub Hst.
  - exact Hst.
  - simpl. destruct (startImage _ _ _ _ _ _ imageId image) as [[image' p]|e] eqn:E.
    + apply IH; [intros x Hx; apply Hsub; right; exact Hx|].
      simpl. apply Forall_app. split; [exact Hst|]. constructor; [|constructor].
      exists image, image'. split; [apply Hsub; left|exact E].
    + exact Hst.
Qed.

(** What [compressTextures] has started when it returns or throws. *)
Lemma compressTextures_started gltf options format
    inputExtensions compressFunction resizeToPowerOfTwo :
  get options "format" = VString format ->
  format ∈ formats ->
  chooseTool format = (inputExtensions, compressFunction, resizeToPowerOfTwo) ->
  Forall (fun y => exists image image',
            (y.1, image) ∈ images gltf
            /\ startImage format (setDefaults options) inputExtensions compressFunction
                 resizeToPowerOfTwo getTempDirectory y.1 image = Normal (image', y.2))
    (started (compressTextures (Some gltf) (Some options))).
Proof.
  intros Hg Hf Ht. rewrite (compressTextures_accepted gltf options format Hg Hf), Ht.
  destruct (checkOptions _ _); [|constructor].
  pose proof (forEachImage_promises format (setDefaults options) inputExtensions
                compressFunction resizeToPowerOfTwo getTempDirectory (images gltf)
                (images gltf) (mkLoop [] []) ltac:(intros x Hx; exact Hx) ltac:(constructor))
    as Hp.
  destruct (forEachImage _ _ _ _ _ _ _ _) as [[st unvisited] thrown]. exact Hp.
Qed.

(** C7, as the code has it.  At the first image, in iteration order, that
    needs the raw image data and has none, [compressTextures] throws, from
    the call itself, a [DeveloperError] whose message names the compression
    format; the loop stops there: the promises started are those of the
    images before it, no image after it is started and no promise is
    returned. *)
Theorem undecoded_image_throws_and_stops gltf options format
    inputExtensions compressFunction resizeToPowerOfTwo before imageId image rest :
  get options "format" = VString format ->
  format ∈ formats ->
  checkOptions format (setDefaults options) = Normal tt ->
  chooseTool format = (inputExtensions, compressFunction, resizeToPowerOfTwo) ->
  images gltf = (before ++ (imageId, image) :: rest)%list ->
  Forall (fun x => exists r,
            startImage format (setDefaults options) inputExtensions compressFunction
              resizeToPowerOfTwo getTempDirectory x.1 x.2 = Normal r) before ->
  needsRawImage resizeToPowerOfTwo inputExtensions image = Normal true ->
  jimpImage image = None ->
  returned (compressTextures (Some gltf) (Some options))
  = Throw (DeveloperError ("The input image format " ++ quote ++ format
                           ++ quote ++ " is not supported for texture compression."))
  /\ (started (compressTextures (Some gltf) (Some options))).*1 = before.*1.
Proof.
  intros Hg Hf Hc Ht Hi Hb Hraw Hj.
  rewrite (compressTextures_accepted gltf options format Hg Hf), Hc, Ht, Hi.
  assert (He : startImage format (setDefaults options) inputExtensions compressFunction
                 resizeToPowerOfTwo getTempDirectory imageId image
               = Throw (DeveloperError ("The input image format " ++ quote ++ format
                           ++ quote ++ " is not supported for texture compression."))).
  { unfold startImage. rewrite Hraw. simpl. rewrite Hj. reflexivity. }
  destruct (forEachImage_stops _ _ _ _ _ _ _ _ _ rest _ Hb He (mkLoop [] []))
    as (st' & -> & Hp).
  simpl. split; [reflexivity|exact Hp].
Qed.

End Orchestration.

(** ** The quality tiers *)


Section Logarithm.
Import Js.

Lemma ilog2_below a : (0 <= a)%Q -> (a < 8)%Q -> ilog2 a <= 2.
Proof.
  destruct a as [n d]. unfold Qle, Qlt. simpl. intros Hn Hlt. unfold ilog2. simpl Qnum. simpl Qden.
  assert (Hk : Z.log2 n - Z.log2 (Z.pos d) <= 3).
  { destruct (Z.eq_dec n 0) as [->|Hn0].
    - change (Z.log2 0) with 0. pose proof (Z.log2_nonneg (Z.pos d)). lia.
    - pose proof (Z.log2_spec n ltac:(lia)) as [Hl _].
      pose proof (Z.log2_spec (Z.pos d) ltac:(lia)) as [_ Hu].
      assert (2 ^ Z.log2 n < 2 ^ (Z.log2 (Z.pos d) + 4)).
      { replace (Z.log2 (Z.pos d) + 4) with (3 + Z.succ (Z.log2 (Z.pos d))) by lia.
        rewrite Z.pow_add_r; [|lia|pose proof (Z.log2_nonneg (Z.pos d)); lia].
        change (2 ^ 3) with 8. lia. }
      apply Z.pow_lt_mono_r_iff in H; [lia|lia|].
      pose proof (Z.log2_nonneg (Z.pos d)). lia. }
  destruct (Qle_bool _ _) eqn:Hb; [|lia].
  destruct (Z.eq_dec (Z.log2 n - Z.log2 (Z.pos d)) 3) as [E|E]; [|lia].
  rewrite E in Hb. apply Qle_bool_iff in Hb. unfold Qle in Hb. simpl in Hb. lia.
Qed.

End Logarithm.

Section Rounding.
Import Js Compress.
Local Open Scope Q_scope.

Lemma round_half_even_near y :
  y - (1 # 2) <= inject_Z (round_half_even y) <= y + (1 # 2).
Proof.
  unfold round_half_even.
  pose proof (Qfloor_le y) as Hlo. pose proof (Qlt_floor y) as Hhi.
  rewrite inject_Z_plus in Hhi. change (inject_Z 1) with 1 in Hhi.
  destruct (Qcompare_spec (y - inject_Z (Qfloor y)) (1 # 2)) as [E|E|E].
  - destruct (Z.even (Qfloor y)); rewrite ?inject_Z_plus; change (inject_Z 1) with 1; lra.
  - lra.
  - rewrite inject_Z_plus. change (inject_Z 1) with 1. lra.
Qed.

Lemma round_half_even_nonneg y : 0 <= y -> (0 <= round_half_even y)%Z.
Proof.
  intros Hy. unfold round_half_even.
  assert (0 <= Qfloor y)%Z.
  { change 0%Z with (Qfloor 0). apply Qfloor_resp_le. exact Hy. }
  destruct (Qcompare _ _); [destruct (Z.even _)| |]; lia.
Qed.

(** Rounding a small non-negative number gives a finite number close
    to it. *)
Lemma round64_small x :
  0 <= x -> x <= 24 # 5 -> exists r, round64 x = Fin (Qred r) /\ 0 <= r /\ r < 5.
Proof.
  intros H0 Hx. unfold round64.
  set (e := Z.max (ilog2 (Qabs x) - 52) (-1074)).
  assert (He : (e <= -50)%Z).
  { assert (ilog2 (Qabs x) <= 2)%Z; [|unfold e; lia].
    apply ilog2_below; [apply Qabs_nonneg|]. rewrite Qabs_pos by exact H0. lra. }
  assert (Hp : 0 < 2 ^ e) by (apply Qpower_0_lt; reflexivity).
  assert (Hp' : 2 ^ e <= 2 ^ (-50)) by (apply Qpower_le_compat_l; [exact He|discriminate]).
  assert (Hsmall : 2 ^ (-50) <= 1 # 10) by (vm_compute; discriminate).
  pose proof (round_half_even_near (x / 2 ^ e)) as [_ Hm].
  assert (Hq : 0 <= x / 2 ^ e).
  { apply Qle_shift_div_l; [exact Hp|]. lra. }
  pose proof (round_half_even_nonneg _ Hq) as Hn.
  set (m := round_half_even (x / 2 ^ e)) in *.
  assert (Hm0 : 0 <= inject_Z m) by (change 0 with (inject_Z 0); rewrite <- Zle_Qle; exact Hn).
  assert (Hr0 : 0 <= inject_Z m * 2 ^ e) by (apply Qmult_le_0_compat; lra).
  assert (Hr5 : inject_Z m * 2 ^ e < 5).
  { apply Qle_lt_trans with ((x / 2 ^ e + (1 # 2)) * 2 ^ e).
    - apply Qmult_le_compat_r; lra.
    - assert (E : (x / 2 ^ e + (1 # 2)) * 2 ^ e == x + (1 # 2) * 2 ^ e) by (field; lra).
      rewrite E. lra. }
  assert (Hbig : 8 <= 2 ^ 1024).
  { change 8 with (2 ^ 3). apply Qpower_le_compat_l; [lia|discriminate]. }
  destruct (Qle_bool (2 ^ 1024) _) eqn:B1; [apply Qle_bool_iff in B1; lra|].
  destruct (Qle_bool _ (- 2 ^ 1024)) eqn:B2; [apply Qle_bool_iff in B2; lra|].
  eauto.
Qed.

Lemma tier_range q :
  0 <= q -> q <= 10 ->
  exists t : Z,
    Math_floor (div_by (Fin q) lit_2_1) = Fin (inject_Z t) /\ (0 <= t <= 4)%Z.
Proof.
  intros H0 H10. simpl div_by.
  assert (Hd : 0 < lit_2_1) by reflexivity.
  assert (Hx0 : 0 <= q / lit_2_1) by (apply Qle_shift_div_l; [exact Hd|lra]).
  assert (Hx1 : q / lit_2_1 <= 24 # 5).
  { apply Qle_shift_div_r; [exact Hd|]. unfold lit_2_1. lra. }
  destruct (round64_small _ Hx0 Hx1) as (r & -> & Hr0 & Hr5).
  simpl Math_floor. rewrite (Qfloor_comp _ _ (Qred_correct r)).
  exists (Qfloor r). split; [reflexivity|]. split.
  - change 0%Z with (Qfloor 0). apply Qfloor_resp_le. exact Hr0.
  - pose proof (Qfloor_le r) as Hf.
    assert (inject_Z (Qfloor r) < inject_Z 5) by (change (inject_Z 5) with 5; lra).
    rewrite <- Zlt_Qlt in H. lia.
Qed.

Lemma at_index_integer {A} (array : list A) t :
  (0 <= t)%Z -> at_index array (Fin (inject_Z t)) = array !! Z.to_nat t.
Proof.
  intros Ht. unfold at_index. rewrite Qfloor_Z.
  rewrite (proj2 (Qeq_bool_iff _ _) (Qeq_refl _)).
  destruct (Z.leb_spec 0 t); [reflexivity|lia].
Qed.

End Rounding.

Section Tiers.
Import Js Compress.
Context {H : Host}.

(** The literal [2.1] denotes the binary64 number nearest to 21/10. *)
Remark lit_2_1_nearest : round64 (21 # 10) = Fin lit_2_1.
Proof. vm_compute. reflexivity. Qed.

(** C10.  For a quality between 0 and 10 the tier
    [Math.floor(quality / 2.1)] is one of 0, 1, 2, 3, 4, so each of the three
    tables of five quality names yields a name at it; quality 0 gives tier 0
    and quality 10 gives tier 4. *)
Theorem quality_tier_names_defined options q :
  ToNumber (get options "quality") = Fin q ->
  (0 <= q)%Q -> (q <= 10)%Q ->
  exists tier : Z,
    Math_floor (div_by (ToNumber (get options "quality")) lit_2_1) = Fin (inject_Z tier)
    /\ 0 <= tier <= 4
    /\ (forall inputPath outputPath, exists name,
          ["pvrtcfastest"; "pvrtcfast"; "pvrtcnormal"; "pvrtchigh"; "pvrtcbest"]
            !! Z.to_nat tier = Some name
          /\ Compress.options (compressWithPVRTexTool inputPath outputPath options) !! 7%nat
             = Some (VString name))
    /\ (forall inputPath outputPath cli,
          compressWithCrunch inputPath outputPath options = Normal cli ->
          exists name,
            ["superfast"; "fast"; "normal"; "better"; "uber"] !! Z.to_nat tier = Some name
            /\ Compress.options cli !! 9%nat = Some (VString name))
    /\ (forall inputPath outputPath cli,
          compressWithAstcenc inputPath outputPath options = Normal cli ->
          exists name,
            ["-veryfast"; "-fast"; "-medium"; "-thorough"; "-exhaustive"]
              !! Z.to_nat tier = Some name
            /\ Compress.options cli !! 6%nat = Some (VString name))
    /\ (q = 0%Q -> tier = 0)
    /\ (q = 10%Q -> tier = 4).
Proof.
  intros Hq H0 H10. destruct (tier_range q H0 H10) as (tier & Ht & Hr).
  exists tier. rewrite Hq. split; [exact Ht|]. split; [exact Hr|].
  assert (Hname : forall names : list string, List.length names = 5%nat ->
            exists name, names !! Z.to_nat tier = Some name
                         /\ of_option (at_index names (Fin (inject_Z tier))) = VString name).
  { intros names Hl. rewrite at_index_integer by lia.
    destruct (names !! Z.to_nat tier) as [name|] eqn:E; [eauto|].
    apply lookup_ge_None in E. lia. }
  split; [|split; [|split; [|split]]].
  - intros i o. unfold compressWithPVRTexTool. rewrite Hq, Ht.
    destruct (Hname ["pvrtcfastest"; "pvrtcfast"; "pvrtcnormal"; "pvrtchigh"; "pvrtcbest"]
                eq_refl) as (name & Hn & ->).
    exists name. split; [exact Hn|reflexivity].
  - intros i o cli. unfold compressWithCrunch. rewrite Hq, Ht.
    destruct (Hname ["superfast"; "fast"; "normal"; "better"; "uber"] eq_refl)
      as (name & Hn & ->).
    destruct (get options "format"); try discriminate.
    destruct (0 <=? indexOf s "crunch"); intros [= <-]; exists name; split; auto.
  - intros i o cli. unfold compressWithAstcenc. rewrite Hq, Ht.
    destruct (Hname ["-veryfast"; "-fast"; "-medium"; "-thorough"; "-exhaustive"] eq_refl)
      as (name & Hn & ->).
    destruct (negb _); [destruct (numberToString _); simpl; [|discriminate]|simpl];
      destruct (ToBoolean _); intros [= <-]; exists name; split; auto.
  - intros ->. assert (E : Fin (inject_Z tier) = Fin (inject_Z 0))
      by (rewrite <- Ht; vm_compute; reflexivity).
    injection E. lia.
  - intros ->. assert (E : Fin (inject_Z tier) = Fin (inject_Z 4))
      by (rewrite <- Ht; vm_compute; reflexivity).
    injection E. lia.
Qed.

End Tiers.

(** ** The returned promise *)

Section BatchRun.
Import Js Compress Invariants.

Lemma all_pending (b : Batch) : awaited b <> [] -> all b [] = None.
Proof.
  intros Hne. unfold all. simpl.
  rewrite bool_decide_eq_false_2; [reflexivity|].
  destruct (awaited b) as [|p l]; [contradiction|]. simpl.
  intros Hs. specialize (Hs 0%nat ltac:(left)). inversion Hs.
Qed.

Lemma all_rejected (b : Batch) settled i :
  i ∈ settled -> fulfilledAt b i = false -> all b settled = Some false.
Proof.
  intros Hi Hf. unfold all.
  destruct (forallb (fulfilledAt b) settled) eqn:E; [|reflexivity].
  rewrite forallb_forall in E. apply list_elem_of_In in Hi. rewrite (E i Hi) in Hf. discriminate.
Qed.

Lemma settleBatch_settled (b : Batch) r ok : batch r = Some ok -> settleBatch b r = r.
Proof.
  intros Hb. unfold settleBatch. rewrite Hb.
  rewrite (bool_decide_eq_true_2 (is_Some (Some ok))) by eauto.
  rewrite andb_false_r. reflexivity.
Qed.

Lemma settleBatch_pending (b : Batch) r : all b (settled r) = None -> settleBatch b r = r.
Proof.
  intros Ha. unfold settleBatch. rewrite Ha. destruct (_ && _); reflexivity.
Qed.

Lemma settleBatch_fires (b : Batch) r ok :
  waiting r = true -> batch r = None -> all b (settled r) = Some ok ->
  settleBatch b r
  = mkRun true (settled r) (Some ok)
      (log r ++ [RemoveCalled (tempDirectory b); BatchSettled ok]).
Proof.
  intros Hw Hb Ha. unfold settleBatch. rewrite Hw, Hb, Ha.
  rewrite (bool_decide_eq_false_2 (is_Some None)) by (intros [? ?]; discriminate).
  reflexivity.
Qed.

Lemma step_settles (b : Batch) r i :
  i ∉ settled r -> is_Some (awaited b !! i) ->
  step b r (Settles i)
  = settleBatch b
      (mkRun (waiting r) (settled r ++ [i]) (batch r)
             (log r ++ [TaskSettled i (fulfilledAt b i)])).
Proof.
  intros Hi Hs. cbn [step].
  rewrite (bool_decide_eq_false_2 _ Hi), (bool_decide_eq_true_2 _ Hs). reflexivity.
Qed.

(** C6, as the code has it.  When the promise of image [i] is rejected
    while the promise of image [j] is still pending, [Promise.all] is
    rejected at once: the temporary directory is asked to be removed and the
    returned promise settles before image [j] has settled, and before the
    removal has finished. *)
Theorem removal_starts_at_first_rejection (b : Batch) i j pi pj r :
  i <> j ->
  awaited b !! i = Some pi -> outcome pi.2 = Rejected r ->
  awaited b !! j = Some pj ->
  log (run b [EnsureDirDone None; Settles i; Settles j; RemoveDone])
  = [TaskSettled i false; RemoveCalled (tempDirectory b); BatchSettled false;
     TaskSettled j (isFulfilled (outcome pj.2)); RemoveFinished].
Proof.
  intros Hij Hi Hr Hj.
  assert (Hne : awaited b <> []) by (intros E; rewrite E in Hi; discriminate).
  assert (Hfi : fulfilledAt b i = false).
  { unfold fulfilledAt. rewrite Hi. destruct pi as [name p]. simpl in Hr. rewrite Hr. reflexivity. }
  assert (Hfj : fulfilledAt b j = isFulfilled (outcome pj.2)).
  { unfold fulfilledAt. rewrite Hj. destruct pj. reflexivity. }
  unfold run. cbn [fold_left].
  (* ensureDir resolves: Promise.all is pending *)
  assert (E1 : step b (mkRun false [] None []) (EnsureDirDone None) = mkRun true [] None []).
  { cbn [step waiting batch orb].
    rewrite (bool_decide_eq_false_2 (is_Some None)) by (intros [? ?]; discriminate).
    apply settleBatch_pending, all_pending, Hne. }
  rewrite E1.
  (* image i is rejected *)
  rewrite (step_settles b _ i); cbn [waiting settled batch log app];
    [|intros Hin; inversion Hin|rewrite Hi; eauto].
  rewrite Hfi.
  rewrite (settleBatch_fires b _ false); cbn [waiting settled batch log app];
    [|reflexivity|reflexivity|apply (all_rejected b [i] i); [left|exact Hfi]].
  (* image j settles *)
  rewrite (step_settles b _ j); cbn [waiting settled batch log app];
    [|intros Hin; apply list_elem_of_singleton in Hin; congruence|rewrite Hj; eauto].
  rewrite Hfj. rewrite (settleBatch_settled b _ false) by reflexivity.
  (* the removal finishes *)
  cbn [step waiting settled batch log app].
  rewrite bool_decide_eq_true_2 by (right; left).
  rewrite bool_decide_eq_false_2; [reflexivity|].
  intros Hin. repeat (apply elem_of_cons in Hin as [Hin|Hin]; [discriminate Hin|]).
  inversion Hin.
Qed.

Lemma settleBatch_at_most_once b r : at_most_once b r -> at_most_once b (settleBatch b r).
Proof.
  intros [H0 H1]. unfold settleBatch.
  destruct (waiting r); cbn [andb]; [|split; assumption].
  destruct (batch r) as [ok|] eqn:Hb.
  - rewrite (bool_decide_eq_true_2 (is_Some (Some ok))) by eauto. cbn [negb].
    split; [rewrite Hb|]; assumption.
  - rewrite (bool_decide_eq_false_2 (is_Some None)) by (intros [? ?]; discriminate).
    cbn [negb]. destruct (all b (settled r)) as [ok|]; [|split; [rewrite Hb|]; assumption].
    unfold at_most_once, removals. cbn [batch log]. rewrite count_occ_app.
    fold (removals b r). rewrite (H0 eq_refl). split; [discriminate|].
    cbn [count_occ].
    destruct (event_eq_dec (RemoveCalled _) _); [|contradiction].
    destruct (event_eq_dec (BatchSettled _) _); [discriminate|]. lia.
Qed.

Lemma step_at_most_once b r t : at_most_once b r -> at_most_once b (step b r t).
Proof.
  intros Hr. pose proof Hr as [H0 H1]. destruct t as [failure|i|]; cbn [step].
  - destruct (waiting r || bool_decide (is_Some (batch r))); [exact Hr|].
    destruct failure.
    + unfold at_most_once, removals in *. cbn [batch log]. rewrite count_occ_app.
      cbn [count_occ]. destruct (event_eq_dec _ _); [discriminate|].
      split; [discriminate|lia].
    + apply settleBatch_at_most_once. exact Hr.
  - destruct (_ || _); [exact Hr|]. apply settleBatch_at_most_once.
    unfold at_most_once, removals in *. cbn [batch log]. rewrite count_occ_app.
    cbn [count_occ]. destruct (event_eq_dec _ _); [discriminate|].
    split; [intros Hb; rewrite (H0 Hb); reflexivity|lia].
  - destruct (_ && _); [|exact Hr].
    unfold at_most_once, removals in *. cbn [batch log]. rewrite count_occ_app.
    cbn [count_occ]. destruct (event_eq_dec _ _); [discriminate|].
    split; [intros Hb; rewrite (H0 Hb); reflexivity|lia].
Qed.

(** Whatever the schedule, [fsExtraRemove] is called at most once. *)
Lemma remove_called_at_most_once b schedule :
  (removals b (run b schedule) <= 1)%nat.
Proof.
  unfold run.
  assert (Hi : at_most_once b (mkRun false [] None [])) by (split; [reflexivity|unfold removals; simpl; lia]).
  revert Hi. generalize (mkRun false [] None []).
  induction schedule as [|t schedule IH]; intros r Hr; simpl.
  - apply Hr.
  - apply IH, step_at_most_once, Hr.
Qed.

End BatchRun.

(** ** parseKTX: what is accepted, what is returned, what is thrown *)

Section ParseKTXReturns.
Import Js KTX Invariants.
Context {PF : PixelFormatAPI}.

Ltac at_offset E k :=
  match type of E with
  | getUint32 ?v ?o = _ => replace o with k in E by (unfold sizeOfUint32; lia)
  end.

Lemma le_combine_range l : 0 <= le_combine l < 2 ^ (8 * Z.of_nat (List.length l)).
Proof.
  induction l as [|x l IH].
  - simpl. lia.
  - cbn [le_combine List.length].
    assert (Hx : 0 <= byte_value x < 2 ^ 8).
    { unfold byte_value. pose proof (Byte.to_N_bounded x). change (2 ^ 8) with 256. lia. }
    replace (8 * Z.of_nat (S (List.length l))) with (8 + 8 * Z.of_nat (List.length l)) by lia.
    rewrite Z.shiftl_mul_pow2 by lia.
    assert (H8 : 0 <= le_combine l * 2 ^ 8 < 2 ^ (8 + 8 * Z.of_nat (List.length l))).
    { rewrite Z.pow_add_r by lia. nia. }
    split; [apply Z.lor_nonneg; lia|].
    destruct (Z.eq_dec (Z.lor (byte_value x) (le_combine l * 2 ^ 8)) 0) as [->|Hne]; [lia|].
    apply Z.log2_lt_pow2; [pose proof (proj2 (Z.lor_nonneg (byte_value x) (le_combine l * 2 ^ 8))); lia|].
    rewrite Z.log2_lor by lia. apply Z.max_lub_lt.
    + destruct (Z.eq_dec (byte_value x) 0) as [->|]; [simpl; lia|].
      apply Z.log2_lt_pow2; [lia|]. apply Z.lt_le_trans with (2 ^ 8); [lia|].
      apply Z.pow_le_mono_r; lia.
    + destruct (Z.eq_dec (le_combine l * 2 ^ 8) 0) as [->|]; [simpl; lia|].
      apply Z.log2_lt_pow2; lia.
Qed.

(** A 32-bit read gives an unsigned 32-bit number. *)
Lemma getUint32_range view off x : getUint32 view off = Normal x -> 0 <= x < 2 ^ 32.
Proof.
  unfold getUint32. destruct (decide _); [|discriminate]. intros [= <-].
  pose proof (le_combine_range (slice view off 4)) as Hr.
  assert (Hl : (List.length (slice view off 4) <= 4)%nat).
  { unfold slice. rewrite length_take. lia. }
  split; [apply Hr|]. apply Z.lt_le_trans with (1 := proj2 Hr).
  apply Z.pow_le_mono_r; lia.
Qed.

(** Everything that holds of a container when [parseKTX_with] returns. *)
Lemma parseKTX_returns binding data r :
  parseKTX_with binding data = Normal r ->
  exists glType glTypeSize glFormat glInternalFormat glBaseInternalFormat
         levels keyValueBytes imageSize texture,
    byte_value <$> take 12 (contents data) = fileIdentifier
    /\ field data 12 = Normal endiannessTest
    /\ field data 16 = Normal glType
    /\ field data 20 = Normal glTypeSize
    /\ field data 24 = Normal glFormat
    /\ field data 28 = Normal glInternalFormat
    /\ field data 32 = Normal glBaseInternalFormat
    /\ field data 36 = Normal (width r)
    /\ field data 40 = Normal (height r)
    /\ field data 44 = Normal 0
    /\ field data 48 = Normal 0
    /\ field data 52 = Normal 1
    /\ field data 56 = Normal levels
    /\ field data 60 = Normal keyValueBytes
    /\ field data (64 + keyValueBytes) = Normal imageSize
    /\ new_Uint8Array data ((underlying data).2 + (68 + keyValueBytes)) imageSize
       = Normal texture
    /\ internalFormat r = baseFormat glInternalFormat
    /\ validate (internalFormat r) = true
    /\ (if isCompressedFormat (internalFormat r)
        then glType = 0 /\ glTypeSize = 1 /\ glFormat = 0 /\ levels <> 0
        else glBaseInternalFormat = glFormat)
    /\ (if isCompressedFormat (internalFormat r) && bool_decide (levels > 1)
        then Uint8Array_on (buffer texture) 0
               (compressedTextureSize (internalFormat r) (width r) (height r))
        else Normal texture) = Normal (bufferView r).
Proof.
  unfold parseKTX_with, raise, field. intros Hp.
  destruct (underlying data) as [view off]. cbn [fst snd].
  apply check_passed in Hp as [Hid Hp].
  apply bind_returns in Hp as (endianness & E12 & Hp).
  apply check_passed in Hp as [Hend Hp].
  apply bind_returns in Hp as (glType & E16 & Hp).
  apply bind_returns in Hp as (glTypeSize & E20 & Hp).
  apply bind_returns in Hp as (glFormat & E24 & Hp).
  apply bind_returns in Hp as (glInternalFormat & E28 & Hp).
  apply bind_returns in Hp as (glBaseInternalFormat & E32 & Hp).
  apply bind_returns in Hp as (pixelWidth & E36 & Hp).
  apply bind_returns in Hp as (pixelHeight & E40 & Hp).
  apply bind_returns in Hp as (pixelDepth & E44 & Hp).
  apply bind_returns in Hp as (numberOfArrayElements & E48 & Hp).
  apply bind_returns in Hp as (numberOfFaces & E52 & Hp).
  apply bind_returns in Hp as (levels & E56 & Hp).
  apply bind_returns in Hp as (keyValueBytes & E60 & Hp).
  apply bind_returns in Hp as (imageSize & E64 & Hp).
  apply bind_returns in Hp as (texture & Etex & Hp).
  apply check_passed in Hp as [Hvalid Hp].
  apply bind_returns in Hp as (u & Hkind & Hp).
  apply check_passed in Hp as [Hdepth Hp].
  apply check_passed in Hp as [Harray Hp].
  apply check_passed in Hp as [Hfaces Hp].
  apply bind_returns in Hp as (view' & Hview & Hp).
  injection Hp as <-.
  cbn [internalFormat width height bufferView _format _width _height _buffer].
  fold (baseFormat glInternalFormat) in *.
  apply negb_false_iff in Hid, Hend, Hvalid, Hdepth, Harray, Hfaces.
  apply bool_decide_eq_true in Hend, Hdepth, Harray, Hfaces. subst.
  at_offset E16 (off + 16). at_offset E20 (off + 20). at_offset E24 (off + 24).
  at_offset E28 (off + 28). at_offset E32 (off + 32). at_offset E36 (off + 36).
  at_offset E40 (off + 40). at_offset E44 (off + 44). at_offset E48 (off + 48).
  at_offset E52 (off + 52). at_offset E56 (off + 56). at_offset E60 (off + 60).
  at_offset E64 (off + (64 + keyValueBytes)).
  match type of Etex with
  | new_Uint8Array _ ?o _ = _ =>
      replace o with (off + (68 + keyValueBytes)) in Etex by (unfold sizeOfUint32; lia)
  end.
  exists glType, glTypeSize, glFormat, glInternalFormat, glBaseInternalFormat,
         levels, keyValueBytes, imageSize, texture.
  repeat (split; [first [assumption | reflexivity | idtac]|]); [..|exact Hview].
  - apply isKTX_spec. exact Hid.
  - destruct (isCompressedFormat (baseFormat glInternalFormat)).
    + apply check_passed in Hkind as [H1 Hkind]. apply check_passed in Hkind as [H2 Hkind].
      apply check_passed in Hkind as [H3 Hkind]. apply check_passed in Hkind as [H4 _].
      apply negb_false_iff, bool_decide_eq_true in H1, H2, H3.
      apply bool_decide_eq_false in H4. auto.
    + apply check_passed in Hkind as [H1 _].
      apply negb_false_iff, bool_decide_eq_true in H1. exact H1.
Qed.

(** X1.  A container that [parseKTX] accepts starts with the twelve bytes of
    the identifier, and its endianness field is 0x04030201. *)
Theorem accepted_container_is_little_endian_ktx data r :
  parseKTX data = Normal r ->
  byte_value <$> take 12 (contents data) = fileIdentifier
  /\ field data 12 = Normal 0x04030201.
Proof.
  intros Hp. destruct (parseKTX_returns _ _ _ Hp) as (? & ? & ? & ? & ? & ? & ? & ? & ? & H).
  split; apply H.
Qed.

(** X2.  The result carries the header's [pixelWidth] and [pixelHeight], and
    the header's [glInternalFormat] with the sized formats 0x8051 and 0x8058
    replaced by [RGB] and [RGBA]; that format passes [PixelFormat.validate]
    and the two dimensions are unsigned 32-bit numbers. *)
Theorem result_fields_come_from_header data r :
  parseKTX data = Normal r ->
  exists glInternalFormat,
    field data 28 = Normal glInternalFormat
    /\ internalFormat r
       = (if bool_decide (glInternalFormat = 0x8051) then RGB
          else if bool_decide (glInternalFormat = 0x8058) then RGBA
          else glInternalFormat)
    /\ validate (internalFormat r) = true
    /\ field data 36 = Normal (width r)
    /\ field data 40 = Normal (height r)
    /\ 0 <= width r < 2 ^ 32
    /\ 0 <= height r < 2 ^ 32.
Proof.
  intros Hp.
  destruct (parseKTX_returns _ _ _ Hp)
    as (? & ? & ? & f & ? & ? & ? & ? & ? & _ & _ & _ & _ & _ & Hf & _ & Hw & Hh & _ & _ & _
        & _ & _ & _ & _ & Hfmt & Hv & _).
  exists f. repeat split; try assumption.
  all: first [ eapply getUint32_range, Hw | eapply getUint32_range, Hh ].
Qed.

(** X3.  [parseKTX] never returns a 3D texture, a texture array or a cubemap;
    a compressed texture it returns has [glType] 0, [glTypeSize] 1,
    [glFormat] 0 and at least one mipmap level, and an uncompressed one has
    [glBaseInternalFormat] equal to [glFormat]. *)
Theorem accepted_container_has_supported_features data r :
  parseKTX data = Normal r ->
  field data 44 = Normal 0
  /\ field data 48 = Normal 0
  /\ field data 52 = Normal 1
  /\ (isCompressedFormat (internalFormat r) = true ->
      field data 16 = Normal 0 /\ field data 20 = Normal 1 /\ field data 24 = Normal 0
      /\ exists levels, field data 56 = Normal levels /\ 1 <= levels)
  /\ (isCompressedFormat (internalFormat r) = false ->
      exists glFormat, field data 24 = Normal glFormat /\ field data 32 = Normal glFormat).
Proof.
  intros Hp.
  destruct (parseKTX_returns _ _ _ Hp)
    as (t & ts & f & fi & fb & levels & ? & ? & ? & _ & _ & Ht & Hts & Hf & _ & Hfb & _ & _
        & Hd & Ha & Hfc & Hl & _ & _ & _ & _ & _ & Hkind & _).
  repeat split; try assumption.
  - destruct (isCompressedFormat (internalFormat r)); [|discriminate].
    destruct Hkind as (-> & _). exact Ht.
  - destruct (isCompressedFormat (internalFormat r)); [|discriminate].
    destruct Hkind as (_ & -> & _). exact Hts.
  - destruct (isCompressedFormat (internalFormat r)); [|discriminate].
    destruct Hkind as (_ & _ & -> & _). exact Hf.
  - destruct (isCompressedFormat (internalFormat r)); [|discriminate].
    destruct Hkind as (_ & _ & _ & Hne). exists levels. split; [exact Hl|].
    pose proof (getUint32_range _ _ _ Hl). lia.
  - intros Hc. rewrite Hc in Hkind. subst fb. eauto.
Qed.

(** X4.  Parsing an [ArrayBuffer] that holds an uncompressed texture, or a
    compressed one with a single mipmap level, returns a view of the same
    buffer: [imageSize] bytes from offset 68 plus the length of the
    key/value data, all within the buffer. *)
Theorem single_level_view_aliases_buffer b r levels :
  parseKTX (OfArrayBuffer b) = Normal r ->
  field (OfArrayBuffer b) 56 = Normal levels ->
  isCompressedFormat (internalFormat r) = false \/ levels <= 1 ->
  exists keyValueBytes imageSize,
    field (OfArrayBuffer b) 60 = Normal keyValueBytes
    /\ field (OfArrayBuffer b) (64 + keyValueBytes) = Normal imageSize
    /\ bufferView r = mkUint8Array b (68 + keyValueBytes) imageSize
    /\ 68 + keyValueBytes + imageSize <= byteLength b
    /\ elements (bufferView r) = slice b (68 + keyValueBytes) imageSize.
Proof.
  intros Hp Hl Hsingle.
  destruct (parseKTX_returns _ _ _ Hp)
    as (? & ? & ? & ? & ? & levels' & kv & size & texture & _ & _ & _ & _ & _ & _ & _ & _ & _
        & _ & _ & _ & Hl' & Hkv & Hsize & Htex & _ & _ & _ & Hview).
  assert (levels' = levels) by congruence. subst levels'.
  assert (Hb : isCompressedFormat (internalFormat r) && bool_decide (levels > 1) = false).
  { destruct Hsingle as [-> | Hle]; [reflexivity|].
    rewrite (bool_decide_eq_false_2 (levels > 1)) by lia. apply andb_false_r. }
  rewrite Hb in Hview. injection Hview as <-.
  simpl in Htex. unfold Uint8Array_on in Htex.
  destruct (decide _) as [Hin|] in Htex; [|discriminate]. injection Htex as <-.
  exists kv, size. repeat split; try assumption. lia.
Qed.

(** X5.  When the argument is itself a typed array, the view returned for a
    single level is a copy of the whole argument, header included: the
    constructor ignores the offset and the length it is given. *)
Theorem single_level_of_typed_array_is_whole_input v r levels :
  parseKTX (OfUint8Array v) = Normal r ->
  field (OfUint8Array v) 56 = Normal levels ->
  isCompressedFormat (internalFormat r) = false \/ levels <= 1 ->
  elements (bufferView r) = elements v.
Proof.
  intros Hp Hl Hsingle.
  destruct (parseKTX_returns _ _ _ Hp)
    as (? & ? & ? & ? & ? & levels' & kv & size & texture & _ & _ & _ & _ & _ & _ & _ & _ & _
        & _ & _ & _ & Hl' & Hkv & Hsize & Htex & _ & _ & _ & Hview).
  assert (levels' = levels) by congruence. subst levels'.
  assert (Hb : isCompressedFormat (internalFormat r) && bool_decide (levels > 1) = false).
  { destruct Hsingle as [-> | Hle]; [reflexivity|].
    rewrite (bool_decide_eq_false_2 (levels > 1)) by lia. apply andb_false_r. }
  rewrite Hb in Hview. injection Hview as <-.
  simpl in Htex. injection Htex as <-. apply (slice_all (elements v)).
Qed.

End ParseKTXReturns.

Section ParseKTXThrows.
Import Js KTX Invariants.
Context {PF : PixelFormatAPI}.

Lemma bind_throws {A B} (c : completion A) (k : A -> completion B) e :
  Js.bind c k = Throw e -> c = Throw e \/ exists a, k a = Throw e.
Proof. destruct c as [a|e']; simpl; [eauto|intros [= ->]; auto]. Qed.

Lemma check_throws {A} (b : bool) (e' : error) (rest : completion A) e :
  (if b then Throw e' else rest) = Throw e -> e = e' \/ rest = Throw e.
Proof. destruct b; [intros [= ->]; auto|auto]. Qed.

Lemma getUint32_throws view off e :
  getUint32 view off = Throw e -> exists message, e = RangeError message.
Proof. unfold getUint32. destruct (decide _); [discriminate|]. intros [= <-]. eauto. Qed.

Lemma Uint8Array_on_throws b off len e :
  Uint8Array_on b off len = Throw e -> exists message, e = RangeError message.
Proof. unfold Uint8Array_on. destruct (decide _); [discriminate|]. intros [= <-]. eauto. Qed.

Lemma new_Uint8Array_throws data off len e :
  new_Uint8Array data off len = Throw e -> exists message, e = RangeError message.
Proof. destruct data; simpl; [apply Uint8Array_on_throws|discriminate]. Qed.

(** What [parseKTX_with] can throw: the error made from the binding of
    [RuntimeError], or a [RangeError] of a read outside the buffer. *)
Lemma parseKTX_throws binding data e :
  parseKTX_with binding data = Throw e ->
  (exists message, e = new_error "RuntimeError" binding message)
  \/ (exists message, e = RangeError message).
Proof.
  unfold parseKTX_with, raise. intros Hp.
  destruct (underlying data) as [view off].
  repeat first
    [ apply check_throws in Hp as [-> | Hp]; [left; eauto|]
    | apply bind_throws in Hp as [Hp | [? Hp]];
      [ first [ right; eapply getUint32_throws, Hp
              | right; eapply new_Uint8Array_throws, Hp
              | idtac ] | ] ].
  - destruct (isCompressedFormat _).
    + repeat (apply check_throws in Hp as [-> | Hp]; [left; eauto|]). discriminate.
    + apply check_throws in Hp as [-> | Hp]; [left; eauto|]. discriminate.
  - destruct (_ && _); [|discriminate]. right. eapply Uint8Array_on_throws, Hp.
  - discriminate.
Qed.

(** X6.  Whatever [parseKTX] throws is a [TypeError] (from constructing the
    unbound [RuntimeError]) or a [RangeError] (from reading outside the
    buffer): a caller never receives a [RuntimeError] or a [DeveloperError]
    from it. *)
Theorem parseKTX_throws_only_TypeError_or_RangeError data e :
  parseKTX data = Throw e ->
  e = TypeError "RuntimeError is not a constructor"
  \/ exists message, e = RangeError message.
Proof.
  intros Hp. destruct (parseKTX_throws RuntimeError data e Hp) as [[message ->]|Hr].
  - left. reflexivity.
  - right. exact Hr.
Qed.

End ParseKTXThrows.

(** ** compressTextures: further properties *)

Section ResizeAgain.
Import Js Compress Invariants.
Context {H : Host}.

Lemma isPowerOfTwo_returns n : 0 <= n -> exists b, isPowerOfTwo n = Normal b.
Proof. intros Hn. unfold isPowerOfTwo. destruct (Z.ltb_spec n 0); [lia|eauto]. Qed.

(** X7.  For dimensions between 1 and 2^31 - 1 the resizing step never
    enlarges an image, keeps more than half of each dimension, and leaves an
    image on which a second resizing step does nothing. *)
Theorem resizing_shrinks_once jimp jimp' resized :
  0 < bitmap_width jimp < 2 ^ 31 ->
  0 < bitmap_height jimp < 2 ^ 31 ->
  resizeStep true jimp = Normal (jimp', resized) ->
  bitmap_width jimp' <= bitmap_width jimp < 2 * bitmap_width jimp'
  /\ bitmap_height jimp' <= bitmap_height jimp < 2 * bitmap_height jimp'
  /\ resizeStep true jimp' = Normal (jimp', []).
Proof.
  intros Hw Hh. unfold resizeStep.
  destruct (isPowerOfTwo_returns (bitmap_width jimp) ltac:(lia)) as [bw Ew].
  destruct (isPowerOfTwo_returns (bitmap_height jimp) ltac:(lia)) as [bh Eh].
  rewrite Ew. cbn [Js.bind].
  assert (Hboth : (if bw then isPowerOfTwo (bitmap_height jimp) else Normal false)
                  = Normal (bw && bh)) by (destruct bw; [exact Eh|reflexivity]).
  rewrite Hboth. cbn [Js.bind]. destruct (bw && bh) eqn:Eb; cbn [negb].
  - intros [= <- <-]. apply andb_true_iff in Eb as [-> ->].
    rewrite Ew. cbn [Js.bind]. rewrite Eh. cbn [Js.bind negb]. repeat split; lia.
  - intros [= <- <-]. cbn [resize bitmap_width bitmap_height].
    rewrite !previousPowerOfTwo_pow2 by lia.
    pose proof (Z.log2_spec (bitmap_width jimp) ltac:(lia)) as Lw.
    pose proof (Z.log2_spec (bitmap_height jimp) ltac:(lia)) as Lh.
    rewrite Z.pow_succ_r in Lw, Lh by apply Z.log2_nonneg.
    rewrite !isPowerOfTwo_pow2 by apply Z.log2_nonneg. cbn [Js.bind negb].
    repeat split; lia.
Qed.

(** X8.  Between 1 and 2^31 - 1, [previousPowerOfTwo] is monotone and its
    fixed points are exactly the powers of two. *)
Theorem previousPowerOfTwo_monotone_and_fixed_points m n :
  0 < m <= n -> n < 2 ^ 31 ->
  previousPowerOfTwo m <= previousPowerOfTwo n
  /\ (previousPowerOfTwo n = n <-> exists k, 0 <= k /\ n = 2 ^ k).
Proof.
  intros Hm Hn. rewrite !previousPowerOfTwo_pow2 by lia. split.
  - apply Z.pow_le_mono_r; [lia|]. apply Z.log2_le_mono. lia.
  - split.
    + intros E. exists (Z.log2 n). split; [apply Z.log2_nonneg|lia].
    + intros (k & Hk & ->). rewrite Z.log2_pow2 by lia. reflexivity.
Qed.

End ResizeAgain.

Section OptionsMore.
Import Js Compress.
Context {H : Host}.

(** X9.  Writing the defaults a second time changes nothing: an options
    object that went through one call is left as it is by the next. *)
Theorem setDefaults_idempotent options :
  setDefaults (setDefaults options) = setDefaults options.
Proof.
  apply map_eq. intros k.
  destruct (decide (k ∈ ["quality"; "bitrate"; "blockSize"; "alphaBit"])) as [Hk|Hk].
  - assert (Hd : exists d, (k, d) ∈ [("quality", VNumber (Fin 5)); ("bitrate", VNumber (Fin 2));
                                     ("blockSize", VString "8x8"); ("alphaBit", VBoolean false)]).
    { apply elem_of_cons in Hk as [->|Hk]; [exists (VNumber (Fin 5)); decide_true|].
      apply elem_of_cons in Hk as [->|Hk]; [exists (VNumber (Fin 2)); decide_true|].
      apply elem_of_cons in Hk as [->|Hk]; [exists (VString "8x8"); decide_true|].
      apply elem_of_cons in Hk as [->|Hk]; [exists (VBoolean false); decide_true|].
      inversion Hk. }
    destruct Hd as [d Hd].
    rewrite (lookup_setDefaults (setDefaults options) k d Hd).
    rewrite (lookup_setDefaults options k d Hd). f_equal.
    unfold get at 1. rewrite (lookup_setDefaults options k d Hd). simpl.
    assert (Hdef : d <> VUndefined).
    { repeat (apply elem_of_cons in Hd as [[= -> ->]|Hd]; [discriminate|]). inversion Hd. }
    destruct (get options k), d; try reflexivity; congruence.
  - rewrite !lookup_setDefaults_other by exact Hk. reflexivity.
Qed.

End OptionsMore.

Section LoopResult.
Import Js Compress.
Context {H : Host}.

(** What the loop over the images has done when it is left: the images
    before the first one that throws have each been given a promise, in
    order, and the images from that one on have not been touched. *)
Lemma forEachImage_spec format options inputExtensions compressFunction resizeToPowerOfTwo
    tempDirectory todo st :
  exists done vs ps unvisited thrown,
    forEachImage format options inputExtensions compressFunction resizeToPowerOfTwo
      tempDirectory todo st
    = (mkLoop (visited st ++ vs) (promises st ++ ps), unvisited, thrown)
    /\ todo = (done ++ unvisited)%list
    /\ Forall3 (fun x v y =>
                  v.1 = x.1 /\ y.1 = x.1
                  /\ startImage format options inputExtensions compressFunction
                       resizeToPowerOfTwo tempDirectory x.1 x.2 = Normal (v.2, y.2))
         done vs ps
    /\ match thrown with
       | None => unvisited = []
       | Some e =>
           exists imageId image rest,
             unvisited = (imageId, image) :: rest
             /\ startImage format options inputExtensions compressFunction
                  resizeToPowerOfTwo tempDirectory imageId image = Throw e
       end.
Proof.
  revert st. induction todo as [|[imageId image] todo IH]; intros st.
  - exists [], [], [], [], None. simpl. rewrite !app_nil_r. destruct st.
    repeat split; constructor.
  - simpl. destruct (startImage _ _ _ _ _ _ imageId image) as [[image' p]|e] eqn:E.
    + destruct (IH (mkLoop (visited st ++ [(imageId, image')])%list
                           (promises st ++ [(imageId, p)])%list))
        as (done & vs & ps & unvisited & thrown & -> & -> & HF & Ht).
      exists ((imageId, image) :: done), ((imageId, image') :: vs), ((imageId, p) :: ps),
        unvisited, thrown.
      simpl. rewrite <- !app_assoc. simpl. split; [reflexivity|]. split; [reflexivity|].
      split; [|exact Ht]. constructor; [|exact HF]. simpl. auto.
    + exists [], [], [], ((imageId, image) :: todo), (Some e).
      rewrite !app_nil_r. destruct st. simpl. split; [reflexivity|]. split; [reflexivity|].
      split; [constructor|]. eauto.
Qed.

(** What a call has done: either it threw before the loop, with nothing
    started and no image touched, or it ran the loop with the options
    completed by their defaults. *)
Lemma compressTextures_cases gltf options :
  (exists e,
     started (compressTextures (Some gltf) options) = []
     /\ imagesAfter (compressTextures (Some gltf) options) = images gltf
     /\ returned (compressTextures (Some gltf) options) = Throw e)
  \/ exists given format inputExtensions compressFunction resizeToPowerOfTwo
       done vs ps unvisited thrown,
       options = Some given
       /\ get given "format" = VString format
       /\ format ∈ formats
       /\ checkOptions format (setDefaults given) = Normal tt
       /\ chooseTool format = (inputExtensions, compressFunction, resizeToPowerOfTwo)
       /\ compressTextures (Some gltf) options
          = mkOutcome (setDefaults given) (vs ++ unvisited) ps
              match thrown with
              | Some e => Throw e
              | None => Normal (mkBatch getTempDirectory ps)
              end
       /\ images gltf = (done ++ unvisited)%list
       /\ Forall3 (fun x v y =>
                     v.1 = x.1 /\ y.1 = x.1
                     /\ startImage format (setDefaults given) inputExtensions compressFunction
                          resizeToPowerOfTwo getTempDirectory x.1 x.2 = Normal (v.2, y.2))
            done vs ps
       /\ match thrown with
          | None => unvisited = []
          | Some e =>
              exists imageId image rest,
                unvisited = (imageId, image) :: rest
                /\ startImage format (setDefaults given) inputExtensions compressFunction
                     resizeToPowerOfTwo getTempDirectory imageId image = Throw e
          end.
Proof.
  destruct options as [given|].
  2:{ left. eexists. unfold compressTextures. simpl. repeat split. }
  destruct (includes formats (get given "format")) eqn:Hi.
  2:{ left. destruct (compressTextures_rejected (Some gltf) given Hi) as [message ->].
      eexists. repeat split. }
  destruct (includes_inv _ _ Hi) as (format & Hg & Hf).
  rewrite (compressTextures_accepted gltf given format Hg Hf).
  destruct (checkOptions format (setDefaults given)) as [[]|e] eqn:Hc.
  2:{ left. eexists. repeat split. }
  right. destruct (chooseTool format) as [[exts tool] flag] eqn:Ht.
  destruct (forEachImage_spec format (setDefaults given) exts tool flag getTempDirectory
              (images gltf) (mkLoop [] []))
    as (done & vs & ps & unvisited & thrown & -> & Hd & HF & Hthrown).
  exists given, format, exts, tool, flag, done, vs, ps, unvisited, thrown.
  repeat (split; [first [reflexivity | assumption]|]). exact Hthrown.
Qed.

(** X10.  When [compressTextures] returns its promise, every image of the
    asset has been given exactly one promise, in the order of the images, the
    returned promise waits for exactly those, and the images are still
    listed under the same names. *)
Theorem returned_promise_awaits_every_image gltf options b :
  returned (compressTextures (Some gltf) options) = Normal b ->
  awaited b = started (compressTextures (Some gltf) options)
  /\ (awaited b).*1 = (images gltf).*1
  /\ (imagesAfter (compressTextures (Some gltf) options)).*1 = (images gltf).*1
  /\ tempDirectory b = getTempDirectory.
Proof.
  destruct (compressTextures_cases gltf options)
    as [(e & _ & _ & ->)|(given & format & exts & tool & flag & done & vs & ps & unvisited
                           & thrown & -> & _ & _ & _ & _ & -> & -> & HF & Ht)];
    [discriminate|].
  destruct thrown; [discriminate|]. subst unvisited. intros [= <-]. simpl.
  rewrite !app_nil_r. split; [reflexivity|].
  assert (Hn : vs.*1 = done.*1 /\ ps.*1 = done.*1).
  { clear -HF. induction HF as [|x v y done vs ps (Hv & Hy & _) _ [IHv IHp]]; [split; reflexivity|].
    rewrite !fmap_cons, Hv, Hy, IHv, IHp. split; reflexivity. }
  destruct Hn as [-> ->]. repeat split.
Qed.

Lemma startImage_image format options inputExtensions compressFunction resizeToPowerOfTwo
    tempDirectory imageId image image' p :
  startImage format options inputExtensions compressFunction resizeToPowerOfTwo
    tempDirectory imageId image = Normal (image', p) ->
  absolutePath image' = absolutePath image /\ source image' = source image
  /\ transparent image' = transparent image /\ extension image' = extension image
  /\ imageChanged image' = imageChanged image
  /\ (jimpImage image' = jimpImage image
      \/ exists jimp,
           resizeToPowerOfTwo = true
           /\ jimpImage image = Some jimp
           /\ jimpImage image'
              = Some (resize jimp (previousPowerOfTwo (bitmap_width jimp))
                                  (previousPowerOfTwo (bitmap_height jimp)))).
Proof.
  unfold startImage. intros Hs. apply bind_returns in Hs as (raw & _ & Hs).
  destruct raw.
  - destruct (jimpImage image) as [jimp|] eqn:Hj; [|discriminate].
    apply bind_returns in Hs as ([jimp' resized] & Hr & Hs). injection Hs as <- <-.
    simpl. repeat (split; [reflexivity|]).
    unfold resizeStep in Hr. destruct resizeToPowerOfTwo; [|injection Hr as <- <-; left; reflexivity].
    apply bind_returns in Hr as (bw & _ & Hr). apply bind_returns in Hr as (bh & _ & Hr).
    destruct (negb bh); injection Hr as <- <-; [right; eauto|left; reflexivity].
  - assert (E : image' = image).
    { destruct (absolutePath image); [apply bind_returns in Hs as (q & _ & Hs)|]; congruence. }
    rewrite E. repeat split. left. reflexivity.
Qed.

(** X11.  The call itself changes nothing of an image but its decoded
    pixels: name, path, source bytes, transparency, extension and the changed
    flag are as before, also when the call throws; the decoded pixels change
    only under a format that resizes (etc1, etc2, astc), and then to the
    image resized to the previous powers of two. *)
Theorem call_changes_only_decoded_pixels gltf options :
  Forall2 (fun x v =>
             v.1 = x.1 /\ absolutePath v.2 = absolutePath x.2 /\ source v.2 = source x.2
             /\ transparent v.2 = transparent x.2 /\ extension v.2 = extension x.2
             /\ imageChanged v.2 = imageChanged x.2
             /\ (jimpImage v.2 = jimpImage x.2
                 \/ exists given jimp,
                      options = Some given
                      /\ get given "format" ∈ [VString "etc1"; VString "etc2"; VString "astc"]
                      /\ jimpImage x.2 = Some jimp
                      /\ jimpImage v.2
                         = Some (resize jimp (previousPowerOfTwo (bitmap_width jimp))
                                             (previousPowerOfTwo (bitmap_height jimp)))))
    (images gltf) (imagesAfter (compressTextures (Some gltf) options)).
Proof.
  destruct (compressTextures_cases gltf options)
    as [(e & _ & -> & _)|(given & format & exts & tool & flag & done & vs & ps & unvisited
                           & thrown & -> & Hg & Hf & _ & Hc & -> & -> & HF & _)].
  - apply Forall2_same_length_lookup_2; [reflexivity|].
    intros i x v Hx Hv. rewrite Hx in Hv. injection Hv as <-. repeat split. left. reflexivity.
  - simpl. apply Forall2_app.
    + clear -HF Hg Hf Hc. induction HF as [|[i x] [i' v] [i'' p] done vs ps (Hv & _ & Hs) _ IH];
        constructor; [|exact IH].
      simpl in *. apply startImage_image in Hs as (Ha & Hsrc & Ht & He & Hch & Hj).
      repeat (split; [assumption|]). destruct Hj as [Hj|(jimp & -> & Hj & Hj')]; [left; exact Hj|].
      right. exists given, jimp. split; [reflexivity|]. split; [|split; assumption].
      rewrite Hg. unfold formats in Hf.
      repeat (apply elem_of_cons in Hf as [->|Hf]; [first [discriminate Hc | decide_true]|]).
      inversion Hf.
    + apply Forall2_same_length_lookup_2; [reflexivity|].
      intros i x v Hx Hv. rewrite Hx in Hv. injection Hv as <-. repeat split. left. reflexivity.
Qed.

End LoopResult.

Section Tasks.
Import Js Compress Invariants.
Context {H : Host}.

Lemma compressFile_task imageId inputPath tempDirectory compressFunction options p :
  compressFile imageId inputPath tempDirectory compressFunction options = Normal p ->
  encoderRun imageId tempDirectory compressFunction options inputPath (trace p) (outcome p).
Proof.
  unfold compressFile. intros Hp.
  apply bind_returns in Hp as (extension & He & Hp).
  apply bind_returns in Hp as (cli & Hc & Hp). injection Hp as <-.
  exists extension, cli. split; [exact He|]. split; [exact Hc|].
  unfold createProcess.
  destruct (child_process_spawn (path cli) (Compress.options cli)) as [code|r] eqn:Es.
  - destruct (Z.eqb_spec code 0) as [->|Hne]; simpl.
    + left. repeat split.
    + right. split; [congruence|]. repeat split.
  - right. split; [discriminate|]. repeat split.
Qed.

Lemma compressBuffer_task imageId bytes extension tempDirectory compressFunction options :
  let inputPath := getTempImagePath (InputOf imageId) tempDirectory extension in
  let p := compressBuffer imageId bytes extension tempDirectory compressFunction options in
  exists ran,
    trace p = WriteFile inputPath bytes :: ran
    /\ (forall r, fs_outputFile inputPath bytes = Some r -> ran = [] /\ outcome p = Rejected r)
    /\ ((ran = [] /\ exists r, outcome p = Rejected r)
        \/ (fs_outputFile inputPath bytes = None
            /\ encoderRun imageId tempDirectory compressFunction options inputPath
                 ran (outcome p))).
Proof.
  intros inputPath p. unfold p, compressBuffer. fold inputPath.
  destruct (fs_outputFile inputPath bytes) as [r|] eqn:Ew.
  - exists []. split; [reflexivity|]. split; [intros r' [= <-]; split; reflexivity|].
    left. split; [reflexivity|]. eauto.
  - destruct (compressFile imageId inputPath tempDirectory compressFunction options)
      as [q|e] eqn:Eq; simpl.
    + exists (trace q). split; [reflexivity|]. split; [discriminate|]. right.
      split; [reflexivity|]. apply compressFile_task, Eq.
    + exists []. split; [reflexivity|]. split; [discriminate|]. left. split; [reflexivity|]. eauto.
Qed.

(** The shape of the task that one iteration of the loop starts. *)
Lemma startImage_task format options inputExtensions compressFunction resizeToPowerOfTwo
    tempDirectory imageId image image' p :
  startImage format options inputExtensions compressFunction resizeToPowerOfTwo
    tempDirectory imageId image = Normal (image', p) ->
  let compressOptions := combine options {[ "transparent" := VBoolean (transparent image) ]} in
  exists resized encoded written ran inputPath,
    trace p = (resized ++ encoded ++ written ++ ran)%list
    /\ (resized = [] \/ exists jimp, jimpImage image' = Some jimp
                          /\ resized = [Resize (bitmap_width jimp) (bitmap_height jimp)])
    /\ ((encoded = [] /\ resized = []
         /\ (written = [] \/ written = [WriteFile inputPath (source image)]))
        \/ exists jimp,
             jimpImage image' = Some jimp /\ encoded = [EncodePNG jimp]
             /\ match Jimp_getBuffer_PNG jimp with
                | inr r => written = [] /\ ran = [] /\ outcome p = Rejected r
                | inl bytes =>
                    inputPath = getTempImagePath (InputOf imageId) tempDirectory ".png"
                    /\ written = [WriteFile inputPath bytes]
                end)
    /\ (written = []
        \/ exists extension bytes,
             inputPath = getTempImagePath (InputOf imageId) tempDirectory extension
             /\ written = [WriteFile inputPath bytes]
             /\ (forall r, fs_outputFile inputPath bytes = Some r ->
                   ran = [] /\ outcome p = Rejected r)
             /\ (ran <> [] -> fs_outputFile inputPath bytes = None))
    /\ ((ran = [] /\ exists r, outcome p = Rejected r)
        \/ encoderRun imageId tempDirectory compressFunction compressOptions inputPath
             ran (outcome p)).
Proof.
  intros Hs compressOptions. unfold startImage in Hs. fold compressOptions in Hs.
  apply bind_returns in Hs as (raw & _ & Hs). destruct raw.
  - destruct (jimpImage image) as [jimp0|]; [|discriminate].
    apply bind_returns in Hs as ([jimp resized] & Hr & Hs). injection Hs as <- <-.
    cbn [trace outcome jimpImage].
    assert (Hres : resized = [] \/ resized = [Resize (bitmap_width jimp) (bitmap_height jimp)]).
    { unfold resizeStep in Hr. destruct resizeToPowerOfTwo; [|injection Hr as <- <-; left; reflexivity].
      apply bind_returns in Hr as (bw & _ & Hr). apply bind_returns in Hr as (bh & _ & Hr).
      destruct (negb bh); injection Hr as <- <-; [right|left; reflexivity].
      unfold resize. cbn [bitmap_width bitmap_height]. reflexivity. }
    assert (Hres' : resized = [] \/ exists j, Some jimp = Some j
                      /\ resized = [Resize (bitmap_width j) (bitmap_height j)])
      by (destruct Hres; eauto).
    unfold compressJimpImage. destruct (Jimp_getBuffer_PNG jimp) as [bytes|r] eqn:Eg.
    + destruct (compressBuffer_task imageId bytes ".png" tempDirectory compressFunction
                  compressOptions) as (ran & Ht & Hw & Hran).
      cbn [trace outcome]. rewrite Ht.
      exists resized, [EncodePNG jimp],
        [WriteFile (getTempImagePath (InputOf imageId) tempDirectory ".png") bytes], ran,
        (getTempImagePath (InputOf imageId) tempDirectory ".png").
      split; [reflexivity|]. split; [exact Hres'|]. split.
      { right. exists jimp. rewrite Eg. repeat split. }
      split.
      { right. exists ".png", bytes. split; [reflexivity|]. split; [reflexivity|].
        split; [exact Hw|]. intros Hne. destruct Hran as [[-> _]|[Hnone _]]; [contradiction|exact Hnone]. }
      destruct Hran as [Hran|[_ Hran]]; [left|right]; exact Hran.
    + cbn [trace outcome].
      exists resized, [EncodePNG jimp], [], [], EmptyString.
      split; [reflexivity|]. split; [exact Hres'|]. split.
      { right. exists jimp. rewrite Eg. repeat split. }
      split; [left; reflexivity|]. left. split; [reflexivity|]. eauto.
  - destruct (absolutePath image) as [a|].
    + apply bind_returns in Hs as (q & Hq & Hs). injection Hs as <- <-.
      exists [], [], [], (trace q), a.
      split; [reflexivity|]. split; [left; reflexivity|].
      split; [left; repeat split; left; reflexivity|].
      split; [left; reflexivity|]. right. apply compressFile_task, Hq.
    + injection Hs as <- <-.
      destruct (compressBuffer_task imageId (source image) (extension image) tempDirectory
                  compressFunction compressOptions) as (ran & Ht & Hw & Hran).
      rewrite Ht.
      exists [], [], [WriteFile (getTempImagePath (InputOf imageId) tempDirectory
                                   (extension image)) (source image)], ran,
        (getTempImagePath (InputOf imageId) tempDirectory (extension image)).
      split; [reflexivity|]. split; [left; reflexivity|].
      split; [left; repeat split; right; reflexivity|].
      split.
      { right. exists (extension image), (source image). split; [reflexivity|].
        split; [reflexivity|]. split; [exact Hw|]. intros Hne. destruct Hran as [[-> _]|[Hnone _]]; [contradiction|exact Hnone]. }
      destruct Hran as [Hran|[_ Hran]]; [left|right]; exact Hran.
Qed.

End Tasks.

Section TaskProperties.
Import Js Compress Invariants.
Context {H : Host}.

(** A task seen as what comes before the encoder and what comes from its
    start on. *)
Lemma startImage_run format options inputExtensions compressFunction resizeToPowerOfTwo
    tempDirectory imageId image image' p :
  startImage format options inputExtensions compressFunction resizeToPowerOfTwo
    tempDirectory imageId image = Normal (image', p) ->
  let compressOptions := combine options {[ "transparent" := VBoolean (transparent image) ]} in
  exists before ran inputPath,
    trace p = (before ++ ran)%list
    /\ Forall (fun e => (stage e < 3)%nat) before
    /\ (forall path bytes, WriteFile path bytes ∈ before ->
          path = inputPath
          /\ (exists extension,
                path = getTempImagePath (InputOf imageId) tempDirectory extension)
          /\ (forall r, fs_outputFile path bytes = Some r -> ran = [] /\ outcome p = Rejected r)
          /\ (ran <> [] -> fs_outputFile path bytes = None))
    /\ ((ran = [] /\ exists r, outcome p = Rejected r)
        \/ encoderRun imageId tempDirectory compressFunction compressOptions inputPath
             ran (outcome p)).
Proof.
  intros Hs compressOptions.
  destruct (startImage_task _ _ _ _ _ _ _ _ _ _ Hs)
    as (resized & encoded & written & ran & inputPath & Ht & Hres & Henc & Hw & Hran).
  exists (resized ++ encoded ++ written)%list, ran, inputPath.
  split; [rewrite Ht, <- !app_assoc; reflexivity|].
  assert (Hr : Forall (fun e => (stage e < 3)%nat) resized /\ forall path bytes,
               WriteFile path bytes ∉ resized).
  { destruct Hres as [->|(j & _ & ->)]; (split; [repeat constructor|]);
      intros path bytes Hin; [inversion Hin|].
    apply list_elem_of_singleton in Hin. discriminate. }
  assert (He : Forall (fun e => (stage e < 3)%nat) encoded /\ forall path bytes,
               WriteFile path bytes ∉ encoded).
  { destruct Henc as [(-> & _)|(j & _ & -> & _)]; (split; [repeat constructor|]);
      intros path bytes Hin; [inversion Hin|].
    apply list_elem_of_singleton in Hin. discriminate. }
  destruct Hr as [Hr Hr'], He as [He He'].
  split.
  { apply Forall_app. split; [exact Hr|]. apply Forall_app. split; [exact He|].
    destruct Hw as [->|(ext & bytes & _ & -> & _)]; repeat constructor. }
  split; [|exact Hran].
  intros path bytes Hin.
  apply elem_of_app in Hin as [Hin|Hin]; [destruct (Hr' _ _ Hin)|].
  apply elem_of_app in Hin as [Hin|Hin]; [destruct (He' _ _ Hin)|].
  destruct Hw as [->|(ext & bytes' & Hi & -> & Hfail & Hok)]; [inversion Hin|].
  apply list_elem_of_singleton in Hin. injection Hin as -> ->.
  split; [reflexivity|]. split; [eauto|]. split; assumption.
Qed.

(** What one iteration started, for every promise the call has started. *)
Lemma started_task gltf options i y :
  started (compressTextures (Some gltf) options) !! i = Some y ->
  exists given format inputExtensions compressFunction resizeToPowerOfTwo image v,
    options = Some given
    /\ images gltf !! i = Some (y.1, image)
    /\ imagesAfter (compressTextures (Some gltf) options) !! i = Some v
    /\ v.1 = y.1
    /\ startImage format (setDefaults given) inputExtensions compressFunction
         resizeToPowerOfTwo getTempDirectory y.1 image = Normal (v.2, y.2).
Proof.
  destruct (compressTextures_cases gltf options)
    as [(e & -> & _)|(given & format & exts & tool & flag & done & vs & ps & unvisited
                      & thrown & -> & _ & _ & _ & _ & -> & -> & HF & _)];
    [discriminate|].
  simpl. intros Hy.
  destruct (Forall3_lookup_r _ _ _ _ _ _ HF Hy) as ([name image] & v & Hx & Hv & Ev & Ey & Hs).
  simpl in *. exists given, format, exts, tool, flag, image, v.
  split; [reflexivity|]. rewrite Ey.
  split; [apply lookup_app_l_Some, Hx|]. split; [apply lookup_app_l_Some, Hv|].
  split; [exact Ev|exact Hs].
Qed.

Lemma call_compressFunction_output compressFunction inputPath outputPath options cli :
  call_compressFunction compressFunction inputPath outputPath options = Normal cli ->
  VString outputPath ∈ Compress.options cli
  /\ path cli ∈ [pvrTexToolPath; etc2compPath; crunchPath; astcencPath].
Proof.
  destruct compressFunction as [[]|]; simpl; [| | | |discriminate].
  - intros [= <-]. simpl. set_solver.
  - intros [= <-]. simpl. set_solver.
  - unfold compressWithCrunch. destruct (get options "format"); try discriminate.
    destruct (0 <=? indexOf s "crunch"); intros [= <-]; simpl; set_solver.
  - unfold compressWithAstcenc.
    destruct (negb (strict_equal (get options "bitrate") (VNumber (Fin 2)))).
    + destruct (numberToString (get options "bitrate")); simpl; [|discriminate].
      destruct (ToBoolean (get options "transparent")); intros [= <-]; simpl; set_solver.
    + simpl. destruct (ToBoolean (get options "transparent")); intros [= <-]; simpl; set_solver.
Qed.

(** X12.  Each promise the call starts goes through its steps in one order,
    each at most once: resize, encode as PNG, write the temporary input,
    start the encoder, read its output. *)
Theorem task_steps_in_order gltf options y :
  y ∈ started (compressTextures (Some gltf) options) ->
  StronglySorted Nat.lt (stage <$> trace y.2).
Proof.
  intros Hy. apply list_elem_of_lookup in Hy as [i Hy].
  destruct (started_task gltf options i y Hy)
    as (given & format & exts & tool & flag & image & v & _ & _ & _ & _ & Hs).
  destruct (startImage_task _ _ _ _ _ _ _ _ _ _ Hs)
    as (resized & encoded & written & ran & inputPath & -> & Hres & Henc & _ & Hran).
  assert (Hran' : ran = [] \/ (exists t a out, ran = [Spawn t a; ReadFile out])
                  \/ exists t a, ran = [Spawn t a]).
  { destruct Hran as [[-> _]|(ext & cli & _ & _ & [(_ & -> & _)|(_ & -> & _)])]; eauto 6. }
  clear Hran Hs.
  destruct Henc as [(-> & -> & Hw)|(jimp & Hj & -> & Hg)].
  - destruct Hw as [->| ->];
      destruct Hran' as [->|[(t & a & out & ->)|(t & a & ->)]];
      simpl; repeat constructor.
  - assert (Hw : written = [] \/ exists path bytes, written = [WriteFile path bytes])
      by (destruct (Jimp_getBuffer_PNG jimp); [destruct Hg as [_ ->]|destruct Hg as [-> _]]; eauto).
    destruct Hres as [->|(j & _ & ->)];
      destruct Hw as [->|(path & bytes & ->)];
      destruct Hran' as [->|[(t & a & out & ->)|(t & a & ->)]];
      simpl; repeat constructor.
Qed.

(** X13.  A promise that is fulfilled ends with the start of one of the four
    encoders, which exited with code 0, followed by the reading of the output
    file: the file named by the call's temporary directory, the image's name
    and the container extension, which the encoder was given among its
    arguments; the promise carries the bytes read from it. *)
Theorem fulfilled_task_read_encoder_output gltf options imageId p c :
  (imageId, p) ∈ started (compressTextures (Some gltf) options) ->
  outcome p = Fulfilled c ->
  let outputPath := getTempImagePath (OutputOf imageId) getTempDirectory (container c) in
  exists before toolPath args,
    trace p = (before ++ [Spawn toolPath args; ReadFile outputPath])%list
    /\ toolPath ∈ [pvrTexToolPath; etc2compPath; crunchPath; astcencPath]
    /\ VString outputPath ∈ args
    /\ child_process_spawn toolPath args = ExitCode 0
    /\ fs_readFile outputPath = inl (buffer c).
Proof.
  intros Hy Hc outputPath. apply list_elem_of_lookup in Hy as [i Hy].
  destruct (started_task gltf options i _ Hy)
    as (given & format & exts & tool & flag & image & v & _ & _ & _ & _ & Hs).
  simpl in Hs.
  destruct (startImage_run _ _ _ _ _ _ _ _ _ _ Hs)
    as (before & ran & inputPath & Ht & _ & _ & Hran).
  destruct Hran as [(_ & r & Hr)|(ext & cli & _ & Hcli & Hrun)]; [congruence|].
  destruct Hrun as [(Hexit & -> & Ho)|(_ & _ & Ho)]; [|congruence].
  rewrite Hc in Ho.
  destruct (fs_readFile (getTempImagePath (OutputOf imageId) getTempDirectory ext))
    as [bytes|r] eqn:Er; [|discriminate].
  injection Ho as ->. simpl in outputPath. unfold outputPath.
  apply call_compressFunction_output in Hcli as [Hout Hpath].
  exists before, (path cli), (Compress.options cli).
  repeat (split; [assumption|]). exact Er.
Qed.

(** X14.  When the encoder a promise has started does not exit with code 0,
    the promise is rejected, with the error of the process or with the
    message that names the exit code, and the output file is never read. *)
Theorem failed_encoder_rejects_without_reading gltf options y toolPath args :
  y ∈ started (compressTextures (Some gltf) options) ->
  Spawn toolPath args ∈ trace y.2 ->
  child_process_spawn toolPath args <> ExitCode 0 ->
  outcome y.2 = Rejected (failure (child_process_spawn toolPath args))
  /\ forall path, ReadFile path ∉ trace y.2.
Proof.
  intros Hy Hin Hexit. apply list_elem_of_lookup in Hy as [i Hy].
  destruct (started_task gltf options i _ Hy)
    as (given & format & exts & tool & flag & image & v & _ & _ & _ & _ & Hs).
  destruct (startImage_run _ _ _ _ _ _ _ _ _ _ Hs)
    as (before & ran & inputPath & Ht & Hb & _ & Hran).
  rewrite Ht in Hin |- *. rewrite Forall_forall in Hb.
  apply elem_of_app in Hin as [Hin|Hin]; [apply Hb in Hin; simpl in Hin; lia|].
  destruct Hran as [(-> & _)|(ext & cli & _ & _ & Hrun)]; [inversion Hin|].
  destruct Hrun as [(Hzero & -> & _)|(_ & -> & Ho)].
  - apply elem_of_cons in Hin as [[= -> ->]|Hin]; [contradiction|].
    apply list_elem_of_singleton in Hin. discriminate.
  - apply list_elem_of_singleton in Hin. injection Hin as -> ->.
    split; [exact Ho|]. intros path Hr.
    apply elem_of_app in Hr as [Hr|Hr]; [apply Hb in Hr; simpl in Hr; lia|].
    apply list_elem_of_singleton in Hr. discriminate.
Qed.

(** X15.  A file a promise writes is its temporary input: it is named by the
    call's temporary directory and the image's name; when the write fails
    the promise is rejected with that error and no encoder is started, and an
    encoder that is started is given that file among its arguments. *)
Theorem written_file_is_encoder_input gltf options imageId p path bytes :
  (imageId, p) ∈ started (compressTextures (Some gltf) options) ->
  WriteFile path bytes ∈ trace p ->
  (exists extension, path = getTempImagePath (InputOf imageId) getTempDirectory extension)
  /\ (forall r, fs_outputFile path bytes = Some r ->
        outcome p = Rejected r /\ forall toolPath args, Spawn toolPath args ∉ trace p)
  /\ (forall toolPath args, Spawn toolPath args ∈ trace p ->
        fs_outputFile path bytes = None /\ VString path ∈ args).
Proof.
  intros Hy Hin. apply list_elem_of_lookup in Hy as [i Hy].
  destruct (started_task gltf options i _ Hy)
    as (given & format & exts & tool & flag & image & v & _ & _ & _ & _ & Hs).
  simpl in Hs.
  destruct (startImage_run _ _ _ _ _ _ _ _ _ _ Hs)
    as (before & ran & inputPath & Ht & Hb & Hw & Hran).
  rewrite Ht in Hin |- *. rewrite Forall_forall in Hb.
  assert (Hin' : WriteFile path bytes ∈ before).
  { apply elem_of_app in Hin as [Hin|Hin]; [exact Hin|].
    destruct Hran as [(-> & _)|(ext & cli & _ & _ & [(_ & -> & _)|(_ & -> & _)])];
      [inversion Hin| |].
    - apply elem_of_cons in Hin as [Hin|Hin]; [discriminate|].
      apply list_elem_of_singleton in Hin. discriminate.
    - apply list_elem_of_singleton in Hin. discriminate. }
  destruct (Hw _ _ Hin') as (-> & Hext & Hfail & Hok).
  split; [exact Hext|]. split.
  - intros r Hr. destruct (Hfail r Hr) as [-> Ho]. split; [exact Ho|].
    intros t a Hsp. rewrite app_nil_r in Hsp. apply Hb in Hsp. simpl in Hsp. lia.
  - intros t a Hsp.
    apply elem_of_app in Hsp as [Hsp|Hsp]; [apply Hb in Hsp; simpl in Hsp; lia|].
    destruct Hran as [(-> & _)|(ext & cli & _ & Hcli & Hrun)]; [inversion Hsp|].
    apply call_compressFunction_input in Hcli.
    assert (Hne : ran <> []) by (intros ->; inversion Hsp).
    split; [apply Hok, Hne|].
    destruct Hrun as [(_ & -> & _)|(_ & -> & _)].
    + apply elem_of_cons in Hsp as [[= -> ->]|Hsp]; [exact Hcli|].
      apply list_elem_of_singleton in Hsp. discriminate.
    + apply list_elem_of_singleton in Hsp. injection Hsp as -> ->. exact Hcli.
Qed.

(** X16.  The pixels a promise encodes as PNG are those the call leaves in
    the image, after resizing if there was any; the PNG bytes are what is
    written to the temporary [.png] input, and when encoding fails the
    promise is rejected with that error and goes no further. *)
Theorem encoded_pixels_are_the_stored_pixels gltf options i imageId p v jimp :
  started (compressTextures (Some gltf) options) !! i = Some (imageId, p) ->
  imagesAfter (compressTextures (Some gltf) options) !! i = Some v ->
  EncodePNG jimp ∈ trace p ->
  v.1 = imageId
  /\ jimpImage v.2 = Some jimp
  /\ (forall w h, Resize w h ∈ trace p -> w = bitmap_width jimp /\ h = bitmap_height jimp)
  /\ match Jimp_getBuffer_PNG jimp with
     | inl bytes =>
         WriteFile (getTempImagePath (InputOf imageId) getTempDirectory ".png") bytes ∈ trace p
     | inr r =>
         outcome p = Rejected r /\ Forall (fun e => (stage e <= 1)%nat) (trace p)
     end.
Proof.
  intros Hy Hv Hin.
  destruct (started_task gltf options i _ Hy)
    as (given & format & exts & tool & flag & image & v' & _ & _ & Hv' & Hname & Hs).
  rewrite Hv in Hv'. injection Hv' as <-. simpl in Hs, Hname.
  split; [exact Hname|].
  destruct (startImage_task _ _ _ _ _ _ _ _ _ _ Hs)
    as (resized & encoded & written & ran & inputPath & Ht & Hres & Henc & _ & Hran).
  assert (Hran' : Forall (fun e => (3 <= stage e)%nat) ran).
  { destruct Hran as [[-> _]|(ext & cli & _ & _ & [(_ & -> & _)|(_ & -> & _)])];
      repeat constructor. }
  rewrite Forall_forall in Hran'.
  destruct Henc as [(-> & -> & Hw)|(j & Hj & -> & Hg)].
  - exfalso. rewrite Ht in Hin. simpl in Hin.
    apply elem_of_app in Hin as [Hin|Hin]; [|apply Hran' in Hin; simpl in Hin; lia].
    destruct Hw as [->| ->]; [inversion Hin|].
    apply list_elem_of_singleton in Hin. discriminate.
  - assert (Hres' : Forall (fun e => e = Resize (bitmap_width j) (bitmap_height j)) resized).
    { destruct Hres as [->|(j' & Hj' & ->)]; [constructor|].
      rewrite Hj in Hj'. injection Hj' as <-. repeat constructor. }
    rewrite Forall_forall in Hres'.
    assert (Hw : Forall (fun e => stage e = 2%nat) written).
    { destruct (Jimp_getBuffer_PNG j); [destruct Hg as [_ ->]|destruct Hg as [-> _]];
        repeat constructor. }
    rewrite Forall_forall in Hw.
    assert (E : jimp = j).
    { rewrite Ht in Hin.
      apply elem_of_app in Hin as [Hin|Hin]; [apply Hres' in Hin; discriminate|].
      apply elem_of_cons in Hin as [Hin|Hin]; [congruence|].
      apply elem_of_app in Hin as [Hin|Hin]; [apply Hw in Hin; discriminate|].
      apply Hran' in Hin. simpl in Hin. lia. }
    subst j. split; [exact Hj|]. split.
    + intros w h Hr. rewrite Ht in Hr.
      apply elem_of_app in Hr as [Hr|Hr]; [apply Hres' in Hr; injection Hr as -> ->; auto|].
      apply elem_of_cons in Hr as [Hr|Hr]; [discriminate|].
      apply elem_of_app in Hr as [Hr|Hr]; [apply Hw in Hr; discriminate|].
      apply Hran' in Hr. simpl in Hr. lia.
    + destruct (Jimp_getBuffer_PNG jimp) as [bytes|r].
      * destruct Hg as [-> ->]. rewrite Ht. apply elem_of_app. right. right. left.
      * destruct Hg as (-> & -> & Ho). split; [exact Ho|]. rewrite Ht, !app_nil_r.
        apply Forall_app. split; [|repeat constructor].
        apply Forall_forall. intros e He. apply Hres' in He. subst e. simpl. lia.
Qed.

End TaskProperties.

Section Thrown.
Import Js Compress Invariants.
Context {H : Host}.

Lemma startImage_throws format options exts compressFunction resizeToPowerOfTwo
    tempDirectory imageId image e :
  format ∈ formats ->
  get options "format" = VString format ->
  chooseTool format = (Some exts, compressFunction, resizeToPowerOfTwo) ->
  startImage format options (Some exts) compressFunction resizeToPowerOfTwo
    tempDirectory imageId image = Throw e ->
  exists message, e = DeveloperError message.
Proof.
  intros Hf Hg Hc. unfold startImage.
  destruct (needsRawImage resizeToPowerOfTwo (Some exts) image) as [raw|e'] eqn:Hraw.
  2:{ unfold needsRawImage in Hraw. destruct (_ || _); discriminate. }
  cbn [Js.bind]. destruct raw.
  - destruct (jimpImage image) as [jimp|]; [|intros [= <-]; eauto].
    destruct (resizeStep resizeToPowerOfTwo jimp) as [[jimp' resized]|e'] eqn:Hr;
      [discriminate|].
    cbn [Js.bind]. intros [= <-]. unfold resizeStep in Hr.
    destruct resizeToPowerOfTwo; [|discriminate].
    assert (Hp : forall n e0, isPowerOfTwo n = Throw e0 -> exists message, e0 = DeveloperError message).
    { intros n e0. unfold isPowerOfTwo. destruct (n <? 0); intros [= <-]; eauto. }
    destruct (isPowerOfTwo (bitmap_width jimp)) as [bw|e0] eqn:Ew; cbn [Js.bind] in Hr.
    + destruct bw.
      * destruct (isPowerOfTwo (bitmap_height jimp)) as [bh|e0] eqn:Eh; cbn [Js.bind] in Hr.
        -- destruct (negb bh); discriminate.
        -- injection Hr as <-. eapply Hp, Eh.
      * discriminate.
    + injection Hr as <-. eapply Hp, Ew.
  - assert (Hflag : resizeToPowerOfTwo = false).
    { unfold needsRawImage in Hraw. destruct resizeToPowerOfTwo; [discriminate|reflexivity]. }
    subst resizeToPowerOfTwo.
    pose proof (chooseTool_without_resize _ _ _ Hf Hc) as H8.
    assert (Htool : compressFunction = (chooseTool format).1.2) by (rewrite Hc; reflexivity).
    destruct (absolutePath image) as [a|]; [|discriminate].
    destruct (compressFile_returns imageId a tempDirectory format
                (combine options {[ "transparent" := VBoolean (transparent image) ]}) H8)
      as [p Hp]; [apply get_combine_l; [exact Hg|discriminate]|].
    rewrite <- Htool in Hp. rewrite Hp. discriminate.
Qed.

Lemma chooseTool_extensions format :
  format ∈ formats -> exists exts, (chooseTool format).1.1 = Some exts.
Proof.
  intros Hf. unfold formats in Hf.
  repeat (apply elem_of_cons in Hf as [->|Hf]; [eexists; reflexivity|]). inversion Hf.
Qed.

(** X17.  Everything [compressTextures] throws from the call itself is a
    [DeveloperError]: a missing asset, options that fail a check, an image
    that has not been decoded or has a negative dimension.  Whatever else
    goes wrong rejects a promise instead.  (The images carry their pipeline
    extras, and Jimp's [resize] is taken not to throw.) *)
Theorem compressTextures_throws_only_DeveloperError gltf options e :
  returned (compressTextures gltf options) = Throw e ->
  exists message, e = DeveloperError message.
Proof.
  destruct gltf as [gltf|]; [|intros [= <-]; eauto].
  destruct options as [given|]; [|intros [= <-]; eauto].
  destruct (includes formats (get given "format")) eqn:Hi.
  2:{ destruct (compressTextures_rejected (Some gltf) given Hi) as [message ->].
      intros [= <-]. eauto. }
  destruct (includes_inv _ _ Hi) as (format & Hg & Hf).
  rewrite (compressTextures_accepted gltf given format Hg Hf).
  destruct (checkOptions format (setDefaults given)) as [[]|e0] eqn:Hc.
  2:{ simpl. intros [= ->]. eapply checkOptions_throws, Hc. }
  destruct (chooseTool format) as [[exts tool] flag] eqn:Ht.
  destruct (forEachImage_spec format (setDefaults given) exts tool flag getTempDirectory
              (images gltf) (mkLoop [] []))
    as (done & vs & ps & unvisited & thrown & -> & _ & _ & Hthrown).
  simpl. destruct thrown as [e0|]; [|discriminate]. intros [= ->].
  destruct Hthrown as (imageId & image & rest & _ & Hs).
  destruct (chooseTool_extensions format Hf) as [exts' He']. rewrite Ht in He'.
  simpl in He'. subst exts.
  eapply startImage_throws; [exact Hf| |exact Ht|exact Hs].
  rewrite <- Hg. unfold get. rewrite lookup_setDefaults_other; [reflexivity|].
  intros Hin. decide_false Hin.
Qed.

End Thrown.

Section Arguments.
Import Js Compress Invariants.
Context {H : Host}.

(** What the checks have established when they pass. *)
Lemma checkOptions_passed format options :
  checkOptions format options = Normal tt ->
  lt (ToNumber (get options "quality")) (Fin 0) = false
  /\ lt (Fin 10) (ToNumber (get options "quality")) = false
  /\ (format = "pvrtc1" \/ format = "pvrtc2" ->
      strict_equal (get options "bitrate") (VNumber (Fin 2)) = true
      \/ strict_equal (get options "bitrate") (VNumber (Fin 4)) = true)
  /\ (format = "astc" -> includes astcBlockSizes (get options "blockSize") = true).
Proof.
  unfold checkOptions.
  destruct (lt (ToNumber (get options "quality")) (Fin 0)); [discriminate|].
  destruct (lt (Fin 10) (ToNumber (get options "quality"))); [discriminate|].
  cbn [orb]. intros Hc. split; [reflexivity|]. split; [reflexivity|]. split.
  - intros Hp.
    assert (Ep : String.eqb format "pvrtc1" || String.eqb format "pvrtc2" = true)
      by (destruct Hp as [-> | ->]; reflexivity).
    rewrite Ep in Hc. cbn [andb] in Hc.
    destruct (strict_equal (get options "bitrate") (VNumber (Fin 2))); [left; reflexivity|].
    destruct (strict_equal (get options "bitrate") (VNumber (Fin 4))); [right; reflexivity|].
    discriminate.
  - intros ->. destruct (String.eqb "astc" "pvrtc1" || String.eqb "astc" "pvrtc2") eqn:E;
      [discriminate E|].
    cbn [andb] in Hc. change (String.eqb "astc" "astc") with true in Hc. cbn [andb] in Hc.
    destruct (includes astcBlockSizes (get options "blockSize")); [reflexivity|discriminate].
Qed.

Lemma quality_in_range q :
  lt (Fin q) (Fin 0) = false -> lt (Fin 10) (Fin q) = false -> (0 <= q)%Q /\ (q <= 10)%Q.
Proof.
  simpl. intros H0 H10. apply negb_false_iff in H0, H10.
  apply Qle_bool_iff in H0, H10. split; assumption.
Qed.

(** A table of five names yields a name at the tier of a quality between 0
    and 10. *)
Lemma tier_name q (names : list string) :
  (0 <= q)%Q -> (q <= 10)%Q -> List.length names = 5%nat ->
  exists name,
    of_option (at_index names (Math_floor (div_by (Fin q) lit_2_1))) = VString name.
Proof.
  intros H0 H10 Hl. destruct (tier_range q H0 H10) as (tier & -> & Hr).
  rewrite at_index_integer by lia.
  destruct (names !! Z.to_nat tier) as [name|] eqn:E; [eauto|].
  apply lookup_ge_None in E. lia.
Qed.

Ltac no_undefined :=
  let Hin := fresh "Hin" in
  intros Hin; repeat (apply elem_of_cons in Hin as [Hin|Hin]; [discriminate Hin|]);
  inversion Hin.

(** With options that pass the checks and a quality that is a number, no
    argument of the command line is [undefined]. *)
Lemma arguments_defined format checked options q inputPath outputPath cli :
  format ∈ formats ->
  get options "format" = VString format ->
  get options "quality" = get checked "quality" ->
  get options "bitrate" = get checked "bitrate" ->
  get options "blockSize" = get checked "blockSize" ->
  checkOptions format checked = Normal tt ->
  ToNumber (get checked "quality") = Fin q ->
  call_compressFunction (chooseTool format).1.2 inputPath outputPath options = Normal cli ->
  VUndefined ∉ Compress.options cli.
Proof.
  intros Hf Hg Eq Eb Es Hc Hq.
  destruct (checkOptions_passed _ _ Hc) as (H0 & H10 & Hp & Ha).
  rewrite Hq in H0, H10. destruct (quality_in_range q H0 H10) as [Hq0 Hq10].
  rewrite <- Eb in Hp. rewrite <- Es in Ha. rewrite <- Eq in Hq. clear Hc Eq Eb Es H0 H10.
  unfold formats in Hf.
  repeat (apply elem_of_cons in Hf as [->|Hf]); [..|inversion Hf]; cbn [chooseTool fst snd];
    simpl call_compressFunction.
  - (* pvrtc1 *)
    intros [= <-]. unfold compressWithPVRTexTool. rewrite Hg, Hq. cbn [Compress.options].
    destruct (tier_name q ["pvrtcfastest"; "pvrtcfast"; "pvrtcnormal"; "pvrtchigh"; "pvrtcbest"]
                Hq0 Hq10 eq_refl) as [name ->].
    change (strict_equal (VString "pvrtc1") (VString "pvrtc1")) with true. cbn iota.
    destruct (strict_equal (get options "bitrate") (VNumber (Fin 2)));
      destruct (strict_equal (get options "bitrate") (VNumber (Fin 4)));
      destruct (ToBoolean (get options "transparent")); cbn [andb negb];
      try no_undefined; destruct (Hp (or_introl eq_refl)); discriminate.
  - (* pvrtc2 *)
    intros [= <-]. unfold compressWithPVRTexTool. rewrite Hg, Hq. cbn [Compress.options].
    destruct (tier_name q ["pvrtcfastest"; "pvrtcfast"; "pvrtcnormal"; "pvrtchigh"; "pvrtcbest"]
                Hq0 Hq10 eq_refl) as [name ->].
    change (strict_equal (VString "pvrtc2") (VString "pvrtc1")) with false.
    change (strict_equal (VString "pvrtc2") (VString "pvrtc2")) with true. cbn iota.
    destruct (strict_equal (get options "bitrate") (VNumber (Fin 2)));
      destruct (strict_equal (get options "bitrate") (VNumber (Fin 4)));
      try no_undefined; destruct (Hp (or_intror eq_refl)); discriminate.
  - (* etc1 *)
    intros [= <-]. unfold compressWithEtc2comp. rewrite Hg. cbn [Compress.options].
    change (strict_equal (VString "etc1") (VString "etc1")) with true. cbn iota. no_undefined.
  - (* etc2 *)
    intros [= <-]. unfold compressWithEtc2comp. rewrite Hg. cbn [Compress.options].
    change (strict_equal (VString "etc2") (VString "etc1")) with false.
    change (strict_equal (VString "etc2") (VString "etc2")) with true. cbn iota.
    destruct (ToBoolean (get options "transparent")), (ToBoolean (get options "alphaBit"));
      cbn [andb negb]; no_undefined.
  - (* astc *)
    unfold compressWithAstcenc. rewrite Hq.
    destruct (tier_name q ["-veryfast"; "-fast"; "-medium"; "-thorough"; "-exhaustive"]
                Hq0 Hq10 eq_refl) as [name ->].
    destruct (includes_inv _ _ (Ha eq_refl)) as (size & -> & _).
    destruct (negb (strict_equal (get options "bitrate") (VNumber (Fin 2))));
      [destruct (numberToString (get options "bitrate")); cbn [Js.bind]; [|discriminate]|
       cbn [Js.bind]];
      destruct (ToBoolean (get options "transparent")); intros [= <-]; cbn [Compress.options app];
      no_undefined.
  - (* dxt1 *)
    unfold compressWithCrunch. rewrite Hg, Hq.
    destruct (tier_name q ["superfast"; "fast"; "normal"; "better"; "uber"]
                Hq0 Hq10 eq_refl) as [name ->].
    cbv beta iota. change (0 <=? indexOf "dxt1" "crunch") with false. cbv beta iota.
    change (String.eqb "dxt1" "dxt1") with true. cbv beta iota.
    destruct (ToBoolean (get options "transparent")); intros [= <-]; cbn [Compress.options];
      no_undefined.
  - (* dxt3 *)
    unfold compressWithCrunch. rewrite Hg, Hq.
    destruct (tier_name q ["superfast"; "fast"; "normal"; "better"; "uber"]
                Hq0 Hq10 eq_refl) as [name ->].
    cbv beta iota. change (0 <=? indexOf "dxt3" "crunch") with false. cbv beta iota.
    change (String.eqb "dxt3" "dxt1") with false. change (String.eqb "dxt3" "dxt3") with true.
    cbv beta iota. intros [= <-]; cbn [Compress.options]; no_undefined.
  - (* dxt5 *)
    unfold compressWithCrunch. rewrite Hg, Hq.
    destruct (tier_name q ["superfast"; "fast"; "normal"; "better"; "uber"]
                Hq0 Hq10 eq_refl) as [name ->].
    cbv beta iota. change (0 <=? indexOf "dxt5" "crunch") with false. cbv beta iota.
    change (String.eqb "dxt5" "dxt1") with false. change (String.eqb "dxt5" "dxt3") with false.
    change (String.eqb "dxt5" "dxt5") with true.
    cbv beta iota. intros [= <-]; cbn [Compress.options]; no_undefined.
  - (* crunch-dxt1 *)
    unfold compressWithCrunch. rewrite Hg, Hq.
    destruct (tier_name q ["superfast"; "fast"; "normal"; "better"; "uber"]
                Hq0 Hq10 eq_refl) as [name ->].
    cbv beta iota. change (0 <=? indexOf "crunch-dxt1" "crunch") with true. cbv beta iota.
    change (slice_from 7 "crunch-dxt1") with "dxt1".
    change (String.eqb "dxt1" "dxt1") with true. cbv beta iota.
    destruct (ToBoolean (get options "transparent")); intros [= <-]; cbn [Compress.options];
      no_undefined.
  - (* crunch-dxt3 *)
    unfold compressWithCrunch. rewrite Hg, Hq.
    destruct (tier_name q ["superfast"; "fast"; "normal"; "better"; "uber"]
                Hq0 Hq10 eq_refl) as [name ->].
    cbv beta iota. change (0 <=? indexOf "crunch-dxt3" "crunch") with true. cbv beta iota.
    change (slice_from 7 "crunch-dxt3") with "dxt3".
    change (String.eqb "dxt3" "dxt1") with false. change (String.eqb "dxt3" "dxt3") with true.
    cbv beta iota. intros [= <-]; cbn [Compress.options]; no_undefined.
  - (* crunch-dxt5 *)
    unfold compressWithCrunch. rewrite Hg, Hq.
    destruct (tier_name q ["superfast"; "fast"; "normal"; "better"; "uber"]
                Hq0 Hq10 eq_refl) as [name ->].
    cbv beta iota. change (0 <=? indexOf "crunch-dxt5" "crunch") with true. cbv beta iota.
    change (slice_from 7 "crunch-dxt5") with "dxt5".
    change (String.eqb "dxt5" "dxt1") with false. change (String.eqb "dxt5" "dxt3") with false.
    change (String.eqb "dxt5" "dxt5") with true.
    cbv beta iota. intros [= <-]; cbn [Compress.options]; no_undefined.
Qed.

(** The options an encoder is called with agree with the checked ones on
    every property but [transparent]. *)
Lemma get_compressOptions given k b :
  k ∈ ["format"; "quality"; "bitrate"; "blockSize"] ->
  get given "format" <> VUndefined ->
  get (combine (setDefaults given) {[ "transparent" := VBoolean b ]}) k
  = get (setDefaults given) k.
Proof.
  intros Hk Hf. apply get_combine_l; [reflexivity|].
  destruct (get_setDefaults given) as (Eq & Eb & Es & _).
  repeat (apply elem_of_cons in Hk as [->|Hk]); [..|inversion Hk].
  - unfold get. rewrite lookup_setDefaults_other; [exact Hf|]. intros Hin. decide_false Hin.
  - rewrite Eq. destruct (get given "quality"); discriminate.
  - rewrite Eb. destruct (get given "bitrate"); discriminate.
  - rewrite Es. destruct (get given "blockSize"); discriminate.
Qed.

(** The command line behind every start of an encoder. *)
Lemma started_spawn gltf options y toolPath args :
  y ∈ started (compressTextures (Some gltf) options) ->
  Spawn toolPath args ∈ trace y.2 ->
  exists given format image inputPath outputPath cli,
    options = Some given
    /\ get given "format" = VString format
    /\ format ∈ formats
    /\ checkOptions format (setDefaults given) = Normal tt
    /\ (y.1, image) ∈ images gltf
    /\ call_compressFunction (chooseTool format).1.2 inputPath outputPath
         (combine (setDefaults given) {[ "transparent" := VBoolean (transparent image) ]})
       = Normal cli
    /\ toolPath = path cli /\ args = Compress.options cli.
Proof.
  intros Hy Hin.
  destruct (compressTextures_cases gltf options)
    as [(e & E & _)|(given & format & exts & tool & flag & done & vs & ps & unvisited
                     & thrown & -> & Hg & Hf & Hc & Ht & E & Hi & HF & _)];
    [rewrite E in Hy; inversion Hy|].
  rewrite E in Hy. simpl in Hy. apply list_elem_of_lookup in Hy as [i Hy].
  destruct (Forall3_lookup_r _ _ _ _ _ _ HF Hy) as ([name image] & v & Hx & _ & _ & Ey & Hs).
  simpl in Ey, Hs. subst name.
  destruct (startImage_run _ _ _ _ _ _ _ _ _ _ Hs)
    as (before & ran & inputPath & Htr & Hb & _ & Hran).
  rewrite Htr in Hin. rewrite Forall_forall in Hb.
  apply elem_of_app in Hin as [Hin|Hin]; [apply Hb in Hin; simpl in Hin; lia|].
  destruct Hran as [(-> & _)|(ext & cli & _ & Hcli & Hrun)]; [inversion Hin|].
  exists given, format, image, inputPath,
    (getTempImagePath (OutputOf y.1) getTempDirectory ext), cli.
  rewrite Ht. simpl. repeat (split; [first [reflexivity | assumption]|]).
  split; [rewrite Hi; apply elem_of_app; left; eapply list_elem_of_lookup_2, Hx|].
  split; [exact Hcli|].
  destruct Hrun as [(_ & -> & _)|(_ & -> & _)].
  - apply elem_of_cons in Hin as [[= -> ->]|Hin]; [auto|].
    apply list_elem_of_singleton in Hin. discriminate.
  - apply list_elem_of_singleton in Hin. injection Hin as -> ->. auto.
Qed.

(** X18.  When the quality is left out or is a number, no encoder is ever
    started with an [undefined] argument: after the checks every format name
    and every quality has its command-line spelling. *)
Theorem encoder_arguments_are_defined gltf given y toolPath args :
  y ∈ started (compressTextures (Some gltf) (Some given)) ->
  get given "quality" = VUndefined \/ (exists q, get given "quality" = VNumber (Fin q)) ->
  Spawn toolPath args ∈ trace y.2 ->
  VUndefined ∉ args.
Proof.
  intros Hy Hq Hin.
  destruct (started_spawn gltf (Some given) y toolPath args Hy Hin)
    as (given' & format & image & inputPath & outputPath & cli & [= <-] & Hg & Hf & Hc
        & _ & Hcli & _ & ->).
  assert (Hd : get given "format" <> VUndefined) by (rewrite Hg; discriminate).
  assert (Hq' : exists q, ToNumber (get (setDefaults given) "quality") = Fin q).
  { destruct (get_setDefaults given) as (-> & _).
    destruct Hq as [-> | [q ->]]; simpl; eauto. }
  destruct Hq' as [q Hq'].
  refine (arguments_defined format (setDefaults given) _ q _ _ cli Hf _ _ _ _ Hc Hq' Hcli).
  - rewrite get_compressOptions by (exact Hd || decide_true).
    unfold get. rewrite lookup_setDefaults_other; [exact Hg|]. intros Hk. decide_false Hk.
  - apply get_compressOptions; [decide_true|exact Hd].
  - apply get_compressOptions; [decide_true|exact Hd].
  - apply get_compressOptions; [decide_true|exact Hd].
Qed.

(** X19.  A quality that is not a number (a string that does not read as
    one, or [NaN]) passes the check on the quality, which only compares;
    PVRTexTool, crunch and astcenc are then given [undefined] where the name
    of the quality goes. *)
Theorem non_numeric_quality_passes_the_check format options inputPath outputPath :
  defined (get options "quality") = true ->
  ToNumber (get options "quality") = NaN ->
  (forall e, checkOptions format (setDefaults options) = Throw e ->
             e <> DeveloperError "Quality must be between 0 and 10.")
  /\ Compress.options (compressWithPVRTexTool inputPath outputPath (setDefaults options))
       !! 7%nat = Some VUndefined
  /\ (forall cli, compressWithCrunch inputPath outputPath (setDefaults options) = Normal cli ->
        Compress.options cli !! 9%nat = Some VUndefined)
  /\ (forall cli, compressWithAstcenc inputPath outputPath (setDefaults options) = Normal cli ->
        Compress.options cli !! 6%nat = Some VUndefined).
Proof.
  intros Hd Hq.
  assert (Hq' : ToNumber (get (setDefaults options) "quality") = NaN).
  { destruct (get_setDefaults options) as (-> & _). rewrite defaultValue_defined by exact Hd.
    exact Hq. }
  split; [|split; [|split]].
  - intros e. unfold checkOptions. rewrite Hq'. cbn [lt orb].
    repeat match goal with
           | |- context [if ?b then _ else _] => destruct b
           end; intros [= <-]; discriminate.
  - unfold compressWithPVRTexTool. rewrite Hq'. reflexivity.
  - intros cli. unfold compressWithCrunch. rewrite Hq'.
    destruct (get (setDefaults options) "format"); try discriminate.
    destruct (0 <=? indexOf s "crunch"); intros [= <-]; reflexivity.
  - intros cli. unfold compressWithAstcenc. rewrite Hq'.
    destruct (negb _); [destruct (numberToString _); simpl; [|discriminate]|simpl];
      destruct (ToBoolean _); intros [= <-]; reflexivity.
Qed.

(** X20.  For dxt1, dxt3 and dxt5, asking for the crunch container changes
    the command line of crunch in one place only: the file format is [crn]
    instead of [ktx]. *)
Theorem crunch_container_changes_only_file_format options format inputPath outputPath :
  format ∈ ["dxt1"; "dxt3"; "dxt5"] ->
  exists cli,
    compressWithCrunch inputPath outputPath (<[ "format" := VString format ]> options)
    = Normal cli
    /\ Compress.options cli !! 5%nat = Some (VString "ktx")
    /\ compressWithCrunch inputPath outputPath
         (<[ "format" := VString ("crunch-" ++ format) ]> options)
       = Normal (mkCli (path cli) (<[ 5%nat := VString "crn" ]> (Compress.options cli))).
Proof.
  intros Hf. unfold compressWithCrunch. rewrite !get_insert_eq.
  rewrite !get_insert_ne by discriminate.
  repeat (apply elem_of_cons in Hf as [->|Hf]); [..|inversion Hf];
    (eexists; split; [reflexivity|]; split; reflexivity).
Qed.

End Arguments.

Section Defaults.
Import Js Compress Invariants.
Context {H : Host}.

(** X21.  Options that name a supported format and leave quality, bitrate
    and block size out pass every check with the defaults 5, 2 and 8x8; on an
    asset without images the call then starts nothing and returns a promise
    that waits for nothing. *)
Theorem defaults_pass_the_checks options format :
  format ∈ formats ->
  get options "quality" = VUndefined ->
  get options "bitrate" = VUndefined ->
  get options "blockSize" = VUndefined ->
  checkOptions format (setDefaults options) = Normal tt
  /\ forall gltf,
       get options "format" = VString format ->
       images gltf = [] ->
       compressTextures (Some gltf) (Some options)
       = mkOutcome (setDefaults options) [] [] (Normal (mkBatch getTempDirectory [])).
Proof.
  intros Hf Hq Hb Hs.
  assert (Hc : checkOptions format (setDefaults options) = Normal tt).
  { unfold checkOptions. destruct (get_setDefaults options) as (-> & -> & -> & _).
    rewrite Hq, Hb, Hs. cbn [defaultValue ToNumber].
    change (lt (Fin 5) (Fin 0) || lt (Fin 10) (Fin 5)) with false.
    change (strict_equal (VNumber (Fin 2)) (VNumber (Fin 2))) with true.
    assert (E : includes astcBlockSizes (VString "8x8") = true) by (vm_compute; reflexivity).
    rewrite E. cbn [negb]. rewrite !andb_false_r. reflexivity. }
  split; [exact Hc|]. intros gltf Hg Hi.
  rewrite (compressTextures_accepted gltf options format Hg Hf), Hc, Hi.
  destruct (chooseTool format) as [[exts tool] flag]. reflexivity.
Qed.

End Defaults.

Section ResizeOrigin.
Import Js Compress Invariants.
Context {H : Host}.

Lemma startImage_resize format options inputExtensions compressFunction resizeToPowerOfTwo
    tempDirectory imageId image image' p w h :
  startImage format options inputExtensions compressFunction resizeToPowerOfTwo
    tempDirectory imageId image = Normal (image', p) ->
  Resize w h ∈ trace p ->
  resizeToPowerOfTwo = true
  /\ exists jimp,
       jimpImage image = Some jimp
       /\ w = previousPowerOfTwo (bitmap_width jimp)
       /\ h = previousPowerOfTwo (bitmap_height jimp)
       /\ (isPowerOfTwo (bitmap_width jimp) = Normal false
           \/ isPowerOfTwo (bitmap_height jimp) = Normal false).
Proof.
  unfold startImage. intros Hs Hin. apply bind_returns in Hs as (raw & _ & Hs).
  assert (Hnone : forall l, Forall (fun e => isPixelOperation e = false) l -> Resize w h ∉ l).
  { intros l Hl Hr. rewrite Forall_forall in Hl. apply Hl in Hr. discriminate. }
  destruct raw.
  - destruct (jimpImage image) as [jimp|]; [|discriminate].
    apply bind_returns in Hs as ([jimp' resized] & Hr & Hs). injection Hs as <- <-.
    cbn [trace] in Hin.
    destruct (compressJimpImage_trace imageId jimp' tempDirectory compressFunction
                (combine options {[ "transparent" := VBoolean (transparent image) ]}))
      as (rest & Erest & Hrest).
    rewrite Erest in Hin.
    apply elem_of_app in Hin as [Hin|Hin].
    2:{ apply elem_of_cons in Hin as [Hin|Hin]; [discriminate|]. destruct (Hnone _ Hrest Hin). }
    unfold resizeStep in Hr. destruct resizeToPowerOfTwo; [|injection Hr as <- <-; inversion Hin].
    split; [reflexivity|]. exists jimp. split; [reflexivity|].
    apply bind_returns in Hr as (bw & Hw & Hr). apply bind_returns in Hr as (bh & Hh & Hr).
    destruct bh; cbn [negb] in Hr; injection Hr as <- <-; [inversion Hin|].
    apply list_elem_of_singleton in Hin. injection Hin as -> ->.
    split; [reflexivity|]. split; [reflexivity|].
    destruct bw; [right; exact Hh|left; exact Hw].
  - exfalso. destruct (absolutePath image).
    + apply bind_returns in Hs as (q & Hq & Hs). injection Hs as <- <-.
      exact (Hnone _ (compressFile_trace _ _ _ _ _ _ Hq) Hin).
    + injection Hs as <- <-. exact (Hnone _ (compressBuffer_trace _ _ _ _ _ _) Hin).
Qed.

(** X22.  A promise resizes only under etc1, etc2 or astc, only an image
    whose width or height is not a power of two, and only to the previous
    powers of two of that width and height. *)
Theorem resize_only_to_previous_powers_of_two gltf options y w h :
  y ∈ started (compressTextures (Some gltf) options) ->
  Resize w h ∈ trace y.2 ->
  exists given image jimp,
    options = Some given
    /\ get given "format" ∈ [VString "etc1"; VString "etc2"; VString "astc"]
    /\ (y.1, image) ∈ images gltf
    /\ jimpImage image = Some jimp
    /\ w = previousPowerOfTwo (bitmap_width jimp)
    /\ h = previousPowerOfTwo (bitmap_height jimp)
    /\ (isPowerOfTwo (bitmap_width jimp) = Normal false
        \/ isPowerOfTwo (bitmap_height jimp) = Normal false).
Proof.
  intros Hy Hin.
  destruct (compressTextures_cases gltf options)
    as [(e & E & _)|(given & format & exts & tool & flag & done & vs & ps & unvisited
                     & thrown & -> & Hg & Hf & _ & Hc & E & Hi & HF & _)];
    [rewrite E in Hy; inversion Hy|].
  rewrite E in Hy. simpl in Hy. apply list_elem_of_lookup in Hy as [i Hy].
  destruct (Forall3_lookup_r _ _ _ _ _ _ HF Hy) as ([name image] & v & Hx & _ & _ & Ey & Hs).
  simpl in Ey, Hs. subst name.
  destruct (startImage_resize _ _ _ _ _ _ _ _ _ _ _ _ Hs Hin)
    as (-> & jimp & Hj & Hw & Hh & Hpot).
  exists given, image, jimp. split; [reflexivity|]. split.
  { rewrite Hg. unfold formats in Hf.
    repeat (apply elem_of_cons in Hf as [->|Hf]; [first [discriminate Hc | decide_true]|]).
    inversion Hf. }
  split; [rewrite Hi; apply elem_of_app; left; eapply list_elem_of_lookup_2, Hx|].
  repeat (split; [assumption|]). exact Hpot.
Qed.

(** X23.  [compressWithAstcenc] passes the block size only when the bitrate
    is exactly 2; with any other bitrate the block size has no effect on the
    command line, and a bitrate that is not a number but reads as a whole
    number makes the function throw. *)
Theorem astc_block_size_used_only_at_bitrate_2 options inputPath outputPath :
  (strict_equal (get options "bitrate") (VNumber (Fin 2)) = true ->
   exists cli,
     compressWithAstcenc inputPath outputPath options = Normal cli
     /\ Compress.options cli !! 3%nat = Some (get options "blockSize"))
  /\ (strict_equal (get options "bitrate") (VNumber (Fin 2)) = false ->
      (forall blockSize,
         compressWithAstcenc inputPath outputPath (<[ "blockSize" := blockSize ]> options)
         = compressWithAstcenc inputPath outputPath options)
      /\ (forall s, get options "bitrate" = VString s ->
            is_whole (StringToNumber s) = true ->
            compressWithAstcenc inputPath outputPath options
            = Throw (TypeError "number.toFixed is not a function"))).
Proof.
  split.
  - intros E. unfold compressWithAstcenc. rewrite E. cbn [negb Js.bind].
    destruct (ToBoolean (get options "transparent")); eexists; split; reflexivity.
  - intros E. split.
    + intros blockSize. unfold compressWithAstcenc.
      rewrite (get_insert_ne options "blockSize" "quality") by discriminate.
      rewrite (get_insert_ne options "blockSize" "bitrate") by discriminate.
      rewrite (get_insert_ne options "blockSize" "transparent") by discriminate.
      rewrite E. cbn [negb]. reflexivity.
    + intros s Hs Hwhole. unfold compressWithAstcenc. rewrite E. cbn [negb].
      unfold numberToString. rewrite Hs. cbn [ToNumber]. rewrite Hwhole. reflexivity.
Qed.

End ResizeOrigin.

(** ** The returned promise: invariants of a run *)

Section RunInvariants.
Import Js Compress Invariants.

Lemma all_false (b : Batch) l :
  all b l = Some false -> exists i, i ∈ l /\ fulfilledAt b i = false.
Proof.
  unfold all. destruct (forallb (fulfilledAt b) l) eqn:E; cbn [negb].
  - destruct (bool_decide _); discriminate.
  - intros _. induction l as [|i l IH]; [discriminate|]. simpl in E.
    destruct (fulfilledAt b i) eqn:Ei.
    + destruct (IH E) as (j & Hj & Hf). exists j. split; [right; exact Hj|exact Hf].
    + exists i. split; [left|exact Ei].
Qed.

Lemma all_true (b : Batch) l :
  all b l = Some true ->
  (forall i, i ∈ l -> fulfilledAt b i = true)
  /\ forall i, is_Some (awaited b !! i) -> i ∈ l.
Proof.
  unfold all. destruct (forallb (fulfilledAt b) l) eqn:E; cbn [negb]; [|discriminate].
  destruct (bool_decide _) eqn:Es; [|discriminate]. intros _.
  apply bool_decide_eq_true in Es. split.
  - intros i Hi. rewrite forallb_forall in E. apply E, list_elem_of_In, Hi.
  - intros i Hi. apply Es. apply lookup_lt_is_Some in Hi.
    apply list_elem_of_In, in_seq. lia.
Qed.

Lemma all_settles (b : Batch) l :
  (forall i, is_Some (awaited b !! i) -> i ∈ l) -> is_Some (all b l).
Proof.
  intros Hl. unfold all. destruct (negb _); [eauto|].
  rewrite bool_decide_eq_true_2; [eauto|].
  intros i Hi. apply Hl. apply list_elem_of_In, in_seq in Hi.
  apply lookup_lt_is_Some. lia.
Qed.

Lemma settleBatch_caught_up b r : caught_up b (settleBatch b r).
Proof.
  unfold settleBatch, caught_up. destruct (waiting r) eqn:Hw; cbn [andb].
  - destruct (batch r) as [ok|] eqn:Hb.
    + rewrite (bool_decide_eq_true_2 (is_Some (Some ok))) by eauto. cbn [negb].
      rewrite Hb. discriminate.
    + rewrite (bool_decide_eq_false_2 (is_Some None)) by (intros [? ?]; discriminate).
      cbn [negb]. destruct (all b (settled r)) eqn:Ha; [simpl; discriminate|].
      intros _ _. exact Ha.
  - rewrite Hw. discriminate.
Qed.

Lemma settleBatch_consistent b r : consistent b r -> consistent b (settleBatch b r).
Proof.
  intros Hr. pose proof Hr as (Hrm & Ht & Hf & Hs & Hfin). unfold settleBatch.
  destruct (waiting r) eqn:Hw; cbn [andb]; [|exact Hr].
  destruct (batch r) as [ok|] eqn:Hb.
  { rewrite (bool_decide_eq_true_2 (is_Some (Some ok))) by eauto. exact Hr. }
  rewrite (bool_decide_eq_false_2 (is_Some None)) by (intros [? ?]; discriminate).
  cbn [negb]. destruct (all b (settled r)) as [ok|] eqn:Ha; [|exact Hr].
  unfold consistent. cbn [waiting batch settled log].
  split; [|split; [|split; [|split]]].
  - split; [eauto|]. intros _. apply elem_of_app. right. left.
  - intros [= ->]. split; [reflexivity|exact Ha].
  - intros [= ->] _. apply all_false, Ha.
  - intros i Hi. destruct (Hs i Hi) as [Hv Hl]. split; [exact Hv|].
    apply elem_of_app. left. exact Hl.
  - intros _. apply elem_of_app. right. left.
Qed.

Lemma step_caught_up b r t : caught_up b r -> caught_up b (step b r t).
Proof.
  intros Hr. destruct t as [failure|i|]; cbn [step].
  - destruct (waiting r || bool_decide (is_Some (batch r))); [exact Hr|].
    destruct failure; [|apply settleBatch_caught_up].
    unfold caught_up. cbn [waiting]. discriminate.
  - destruct (_ || _); [exact Hr|]. apply settleBatch_caught_up.
  - destruct (_ && _); [|exact Hr]. exact Hr.
Qed.

Lemma step_consistent b r t : consistent b r -> consistent b (step b r t).
Proof.
  intros Hr. pose proof Hr as (Hrm & Ht & Hf & Hs & Hfin).
  destruct t as [failure|i|]; cbn [step].
  - destruct (waiting r) eqn:Hw; cbn [orb]; [exact Hr|].
    destruct (batch r) as [ok|] eqn:Hb.
    { rewrite (bool_decide_eq_true_2 (is_Some (Some ok))) by eauto. exact Hr. }
    rewrite (bool_decide_eq_false_2 (is_Some None)) by (intros [? ?]; discriminate).
    assert (Hno : RemoveCalled (tempDirectory b) ∉ log r).
    { intros Hin. apply Hrm in Hin as [Hin _]. discriminate. }
    destruct failure as [e|].
    + unfold consistent. cbn [waiting batch settled log].
      split; [|split; [|split; [|split]]].
      * split; [|intros [? _]; discriminate].
        intros Hin. apply elem_of_app in Hin as [Hin|Hin]; [contradiction|].
        apply list_elem_of_singleton in Hin. discriminate.
      * discriminate.
      * discriminate.
      * intros i Hi. destruct (Hs i Hi) as [Hv Hl]. split; [exact Hv|].
        apply elem_of_app. left. exact Hl.
      * intros Hin. apply elem_of_app in Hin as [Hin|Hin]; [destruct (Hno (Hfin Hin))|].
        apply list_elem_of_singleton in Hin. discriminate.
    + apply settleBatch_consistent. unfold consistent. cbn [waiting batch settled log].
      split; [|split; [|split; [|split]]].
      * split; [contradiction|]. intros [_ [? ?]]. discriminate.
      * discriminate.
      * discriminate.
      * exact Hs.
      * exact Hfin.
  - destruct (bool_decide (i ∈ settled r)) eqn:Hi; cbn [orb]; [exact Hr|].
    apply bool_decide_eq_false in Hi.
    destruct (bool_decide (is_Some (awaited b !! i))) eqn:Hv; cbn [negb]; [|exact Hr].
    apply bool_decide_eq_true in Hv.
    apply settleBatch_consistent. unfold consistent. cbn [waiting batch settled log].
    split; [|split; [|split; [|split]]].
    + rewrite <- Hrm. split.
      * intros Hin. apply elem_of_app in Hin as [Hin|Hin]; [exact Hin|].
        apply list_elem_of_singleton in Hin. discriminate.
      * intros Hin. apply elem_of_app. left. exact Hin.
    + intros Hb. destruct (Ht Hb) as [Hw Ha]. exfalso.
      apply Hi. apply (proj2 (all_true _ _ Ha)), Hv.
    + intros Hb Hw. destruct (Hf Hb Hw) as (j & Hj & Hfj). exists j.
      split; [apply elem_of_app; left; exact Hj|exact Hfj].
    + intros j Hj. apply elem_of_app in Hj as [Hj|Hj].
      * destruct (Hs j Hj) as [Hvj Hl]. split; [exact Hvj|]. apply elem_of_app. left. exact Hl.
      * apply list_elem_of_singleton in Hj. subst j. split; [exact Hv|].
        apply elem_of_app. right. left.
    + intros Hin. apply elem_of_app. left. apply Hfin.
      apply elem_of_app in Hin as [Hin|Hin]; [exact Hin|].
      apply list_elem_of_singleton in Hin. discriminate.
  - destruct (_ && _) eqn:Hc; [|exact Hr].
    apply andb_true_iff in Hc as [Hc _]. apply bool_decide_eq_true in Hc.
    unfold consistent. cbn [waiting batch settled log].
    split; [|split; [|split; [|split]]].
    + rewrite <- Hrm. split.
      * intros _. exact Hc.
      * intros Hin. apply elem_of_app. left. exact Hin.
    + exact Ht.
    + exact Hf.
    + intros j Hj. destruct (Hs j Hj) as [Hvj Hl]. split; [exact Hvj|].
      apply elem_of_app. left. exact Hl.
    + intros _. apply elem_of_app. left. exact Hc.
Qed.

Lemma run_from_consistent b schedule r :
  caught_up b r -> consistent b r ->
  caught_up b (fold_left (step b) schedule r) /\ consistent b (fold_left (step b) schedule r).
Proof.
  revert r. induction schedule as [|t schedule IH]; intros r Hc Hr; [split; assumption|].
  simpl. apply IH; [apply step_caught_up, Hc|apply step_consistent, Hr].
Qed.

Lemma run_consistent b schedule :
  caught_up b (run b schedule) /\ consistent b (run b schedule).
Proof.
  apply run_from_consistent.
  - unfold caught_up. discriminate.
  - unfold consistent. simpl. split; [|split; [|split; [|split]]].
    + split; [intros Hin; inversion Hin|intros [? _]; discriminate].
    + discriminate.
    + discriminate.
    + intros i Hi. inversion Hi.
    + intros Hin. inversion Hin.
Qed.

(** X24.  When the returned promise is fulfilled, every promise it waited
    for has settled fulfilled and the removal of the temporary directory has
    been asked for. *)
Theorem fulfilled_batch_means_every_task_fulfilled b schedule :
  batch (run b schedule) = Some true ->
  (forall i y, awaited b !! i = Some y ->
     isFulfilled (outcome y.2) = true /\ TaskSettled i true ∈ log (run b schedule))
  /\ RemoveCalled (tempDirectory b) ∈ log (run b schedule).
Proof.
  intros Hb. destruct (run_consistent b schedule) as (_ & Hrm & Ht & _ & Hs & _).
  destruct (Ht Hb) as [Hw Ha]. destruct (all_true _ _ Ha) as [Hok Hall].
  split; [|apply Hrm; split; [exact Hw|rewrite Hb; eauto]].
  intros i y Hy. assert (Hi : i ∈ settled (run b schedule)) by (apply Hall; rewrite Hy; eauto).
  pose proof (Hok i Hi) as Hfi. destruct (Hs i Hi) as [_ Hl]. rewrite Hfi in Hl.
  split; [|exact Hl]. unfold fulfilledAt in Hfi. rewrite Hy in Hfi. destruct y. exact Hfi.
Qed.

Lemma step_before_directory b r t :
  waiting r = false -> batch r = None -> (forall failure, t <> EnsureDirDone failure) ->
  waiting (step b r t) = false /\ batch (step b r t) = None.
Proof.
  intros Hw Hb Ht. destruct t as [failure|i|]; cbn [step].
  - destruct (Ht failure eq_refl).
  - destruct (_ || _); [split; assumption|]. unfold settleBatch. cbn [waiting batch].
    rewrite Hw. cbn [andb waiting batch]. auto.
  - destruct (_ && _); split; assumption.
Qed.

Lemma step_without_directory b r t :
  waiting r = false -> batch r = Some false ->
  waiting (step b r t) = false /\ batch (step b r t) = Some false.
Proof.
  intros Hw Hb. destruct t as [failure|i|]; cbn [step].
  - rewrite Hb, (bool_decide_eq_true_2 (is_Some (Some false))) by eauto.
    rewrite orb_true_r. split; assumption.
  - destruct (_ || _); [split; assumption|]. unfold settleBatch. cbn [waiting batch].
    rewrite Hw. cbn [andb waiting batch]. auto.
  - destruct (_ && _); split; assumption.
Qed.

(** X25.  Whatever the order of events, the removal of the temporary
    directory is asked for at most once; and when the directory cannot be
    made, the returned promise is rejected and the removal is never asked
    for, although the promises of the images keep running. *)
Theorem removal_at_most_once_and_never_without_directory b schedule :
  (removals b (run b schedule) <= 1)%nat
  /\ forall before e rest,
       schedule = (before ++ EnsureDirDone (Some e) :: rest)%list ->
       (forall failure, EnsureDirDone failure ∉ before) ->
       batch (run b schedule) = Some false
       /\ RemoveCalled (tempDirectory b) ∉ log (run b schedule).
Proof.
  split; [apply remove_called_at_most_once|].
  intros before e rest -> Hno.
  assert (Hstate : waiting (run b (before ++ EnsureDirDone (Some e) :: rest)) = false
                   /\ batch (run b (before ++ EnsureDirDone (Some e) :: rest)) = Some false).
  { unfold run. rewrite fold_left_app. cbn [fold_left].
    assert (Hb : waiting (fold_left (step b) before (mkRun false [] None [])) = false
                 /\ batch (fold_left (step b) before (mkRun false [] None [])) = None).
    { assert (Hi : waiting (mkRun false [] None []) = false
                   /\ batch (mkRun false [] None []) = None) by (split; reflexivity).
      revert Hi Hno. generalize (mkRun false [] None []).
      induction before as [|t before IH]; intros r Hr Hno; [exact Hr|].
      simpl. apply IH.
      - destruct Hr as [Hw Hb]. apply step_before_directory; [exact Hw|exact Hb|].
        intros failure ->. apply (Hno failure). left.
      - intros failure Hin. apply (Hno failure). right. exact Hin. }
    destruct Hb as [Hw Hb].
    assert (Hf : waiting (step b (fold_left (step b) before (mkRun false [] None []))
                            (EnsureDirDone (Some e))) = false
                 /\ batch (step b (fold_left (step b) before (mkRun false [] None []))
                             (EnsureDirDone (Some e))) = Some false).
    { cbn [step]. rewrite Hw, Hb.
      rewrite (bool_decide_eq_false_2 (is_Some None)) by (intros [? ?]; discriminate).
      split; reflexivity. }
    revert Hf. generalize (step b (fold_left (step b) before (mkRun false [] None []))
                             (EnsureDirDone (Some e))).
    induction rest as [|t rest IH]; intros r Hr; [exact Hr|].
    simpl. apply IH. destruct Hr as [Hw' Hb']. apply step_without_directory; assumption. }
  destruct Hstate as [Hw Hb]. split; [exact Hb|].
  destruct (run_consistent b (before ++ EnsureDirDone (Some e) :: rest)) as (_ & Hrm & _).
  intros Hin. apply Hrm in Hin as [Hin _]. rewrite Hw in Hin. discriminate.
Qed.

Lemma step_settled_mono b r t i : i ∈ settled r -> i ∈ settled (step b r t).
Proof.
  intros Hi.
  assert (Hs : forall r', i ∈ settled r' -> i ∈ settled (settleBatch b r')).
  { intros r' Hr'. unfold settleBatch. destruct (_ && _); [|exact Hr'].
    destruct (all b (settled r')); exact Hr'. }
  destruct t as [failure|j|]; cbn [step].
  - destruct (_ || _); [exact Hi|]. destruct failure; [exact Hi|]. apply Hs. exact Hi.
  - destruct (_ || _); [exact Hi|]. apply Hs. cbn [settled]. apply elem_of_app. left. exact Hi.
  - destruct (_ && _); exact Hi.
Qed.

Lemma run_settled_mono b schedule r i :
  i ∈ settled r -> i ∈ settled (fold_left (step b) schedule r).
Proof.
  revert r. induction schedule as [|t schedule IH]; intros r Hi; [exact Hi|].
  simpl. apply IH, step_settled_mono, Hi.
Qed.

Lemma run_settles b schedule r i :
  Settles i ∈ schedule -> is_Some (awaited b !! i) ->
  i ∈ settled (fold_left (step b) schedule r).
Proof.
  intros Hin Hv. revert r. induction schedule as [|t schedule IH]; intros r; [inversion Hin|].
  simpl. apply elem_of_cons in Hin as [<-|Hin]; [|apply IH, Hin].
  apply run_settled_mono. cbn [step].
  destruct (bool_decide (i ∈ settled r)) eqn:Hi; cbn [orb].
  - apply bool_decide_eq_true in Hi. exact Hi.
  - rewrite (bool_decide_eq_true_2 _ Hv). cbn [negb].
    unfold settleBatch. cbn [waiting batch settled].
    destruct (_ && _); [destruct (all b _)|]; cbn [settled]; apply elem_of_app; right; left.
Qed.

(** The directory has been made: the [finally] handler is set up, or the
    returned promise is still pending with nothing set up. *)
Lemma step_made b r t :
  (forall e, t <> EnsureDirDone (Some e)) ->
  (is_Some (batch r) -> waiting r = true) ->
  (is_Some (batch (step b r t)) -> waiting (step b r t) = true)
  /\ (waiting r = true -> waiting (step b r t) = true)
  /\ (t = EnsureDirDone None -> waiting (step b r t) = true).
Proof.
  intros Ht Hr.
  assert (Hs : forall r', (is_Some (batch r') -> waiting r' = true) ->
                 (is_Some (batch (settleBatch b r')) -> waiting (settleBatch b r') = true)
                 /\ (waiting r' = true -> waiting (settleBatch b r') = true)).
  { intros r' Hr'. unfold settleBatch. destruct (_ && _); [|auto].
    destruct (all b (settled r')); [cbn [waiting]; auto|auto]. }
  destruct t as [failure|i|]; cbn [step].
  - destruct (waiting r) eqn:Hw; cbn [orb]; [auto|].
    destruct (batch r) as [ok|] eqn:Hb.
    { assert (false = true) by (apply Hr; eauto). discriminate. }
    rewrite (bool_decide_eq_false_2 (is_Some None)) by (intros [? ?]; discriminate).
    destruct failure as [e|]; [destruct (Ht e eq_refl)|].
    unfold settleBatch. cbn [waiting batch settled andb].
    rewrite (bool_decide_eq_false_2 (is_Some None)) by (intros [? ?]; discriminate).
    cbn [negb]. destruct (all b (settled r)); cbn [waiting]; auto.
  - destruct (_ || _); [split; [exact Hr|split; [auto|discriminate]]|].
    destruct (Hs (mkRun (waiting r) (settled r ++ [i]) (batch r)
                    (log r ++ [TaskSettled i (fulfilledAt b i)])) Hr) as [H1 H2].
    split; [exact H1|]. split; [exact H2|discriminate].
  - destruct (_ && _); (split; [exact Hr|split; [auto|discriminate]]).
Qed.

Lemma run_made b schedule r :
  (forall e, EnsureDirDone (Some e) ∉ schedule) ->
  (is_Some (batch r) -> waiting r = true) ->
  (waiting r = true \/ EnsureDirDone None ∈ schedule) ->
  waiting (fold_left (step b) schedule r) = true.
Proof.
  revert r. induction schedule as [|t schedule IH]; intros r Hno Hr Hw.
  - destruct Hw as [Hw|Hw]; [exact Hw|inversion Hw].
  - simpl.
    assert (Ht : forall e, t <> EnsureDirDone (Some e)) by (intros e ->; apply (Hno e); left).
    destruct (step_made b r t Ht Hr) as (H1 & H2 & H3).
    apply IH; [intros e Hin; apply (Hno e); right; exact Hin|exact H1|].
    destruct Hw as [Hw|Hw]; [left; apply H2, Hw|].
    apply elem_of_cons in Hw as [Hw|Hw]; [left; apply H3; symmetry; exact Hw|right; exact Hw].
Qed.

(** X26.  Once the directory has been made and every promise has settled, in
    whatever order, the returned promise has settled, fulfilled exactly when
    every promise was, and the removal of the temporary directory has been
    asked for exactly once. *)
Theorem directory_removed_once_all_settled b schedule :
  EnsureDirDone None ∈ schedule ->
  (forall e, EnsureDirDone (Some e) ∉ schedule) ->
  (forall i, (i < List.length (awaited b))%nat -> Settles i ∈ schedule) ->
  batch (run b schedule) = Some (forallb (fun y => isFulfilled (outcome y.2)) (awaited b))
  /\ removals b (run b schedule) = 1%nat.
Proof.
  intros Hdir Hno Hall.
  destruct (run_consistent b schedule) as (Hcu & Hrm & Ht & Hf & Hs & _).
  assert (Hw : waiting (run b schedule) = true).
  { apply run_made; [exact Hno|intros [? Hb]; discriminate Hb|right; exact Hdir]. }
  assert (Hin : forall i, is_Some (awaited b !! i) -> i ∈ settled (run b schedule)).
  { intros i Hv. apply run_settles; [|exact Hv]. apply Hall, lookup_lt_is_Some, Hv. }
  destruct (batch (run b schedule)) as [ok|] eqn:Hb.
  2:{ destruct (all_settles b _ Hin) as [ok Hok]. rewrite (Hcu Hw Hb) in Hok.
      discriminate. }
  split.
  - f_equal. destruct ok.
    + destruct (Ht eq_refl) as [_ Ha]. destruct (all_true _ _ Ha) as [Hok _].
      symmetry. apply forallb_forall. intros y Hy.
      apply list_elem_of_In, list_elem_of_lookup in Hy as [i Hy].
      assert (Hi : i ∈ settled (run b schedule)) by (apply Hin; rewrite Hy; eauto).
      specialize (Hok i Hi). unfold fulfilledAt in Hok. rewrite Hy in Hok. destruct y. exact Hok.
    + destruct (Hf eq_refl Hw) as (i & Hi & Hfi). destruct (Hs i Hi) as [[y Hy] _].
      symmetry. apply not_true_is_false. intros Hall'. rewrite forallb_forall in Hall'.
      specialize (Hall' y ltac:(eapply list_elem_of_In, list_elem_of_lookup_2, Hy)).
      unfold fulfilledAt in Hfi. rewrite Hy in Hfi. destruct y. simpl in Hall'. congruence.
  - assert (Hcalled : RemoveCalled (tempDirectory b) ∈ log (run b schedule))
      by (apply Hrm; split; [exact Hw|eauto]).
    pose proof (remove_called_at_most_once b schedule) as Hle.
    apply list_elem_of_In in Hcalled.
    apply (count_occ_In event_eq_dec) in Hcalled. unfold removals in *. lia.
Qed.

End RunInvariants.

(** ** The properties at concrete inputs *)

Section Instances.
Import Js KTX Compress Examples.

(** *** parseKTX *)

Lemma mipmapped_view_starts_at_offset_zero_witness :
  parseKTX (PF := CesiumPixelFormat) (OfArrayBuffer dxt1_two_levels) = Normal parsed
  /\ elements (bufferView parsed) = take 8 dxt1_two_levels
  /\ elements (bufferView parsed) = map byte_of [0xAB; 0x4B; 0x54; 0x58; 0x20; 0x31; 0x31; 0xBB]
  /\ elements (bufferView parsed) <> level0.
Proof.
  assert (Hp : parseKTX (PF := CesiumPixelFormat) (OfArrayBuffer dxt1_two_levels)
               = Normal parsed) by (vm_compute; reflexivity).
  split; [exact Hp|].
  destruct (mipmapped_view_starts_at_offset_zero (PF := CesiumPixelFormat)
              (OfArrayBuffer dxt1_two_levels) parsed 2
              Hp eq_refl eq_refl eq_refl) as (_ & _ & Hv).
  split; [exact Hv|]. rewrite Hv. split; [vm_compute; reflexivity|vm_compute; discriminate].
Defined.

Lemma magic_and_endianness_raise_TypeError_witness :
  parseKTX (PF := CesiumPixelFormat) (OfArrayBuffer not_ktx)
  = Throw (TypeError "RuntimeError is not a constructor")
  /\ parseKTX (PF := CesiumPixelFormat) (OfArrayBuffer big_endian)
     = Throw (TypeError "RuntimeError is not a constructor").
Proof.
  split.
  - apply (proj1 (magic_and_endianness_raise_TypeError (PF := CesiumPixelFormat)
                    (OfArrayBuffer not_ktx))).
    vm_compute. discriminate.
  - apply (proj2 (magic_and_endianness_raise_TypeError (PF := CesiumPixelFormat)
                    (OfArrayBuffer big_endian)) 0x01020304).
    + vm_compute. reflexivity.
    + vm_compute. reflexivity.
    + vm_compute. discriminate.
Defined.

(** *** compressTextures *)

(** At 2^31, which the operators read as a negative 32-bit integer, the
    smearing sets every bit and the result is 0. *)
Remark previousPowerOfTwo_at_2_31 : previousPowerOfTwo (2 ^ 31) = 0.
Proof. reflexivity. Qed.

Lemma previousPowerOfTwo_largest_power_below_witness :
  (exists k, 0 <= k /\ previousPowerOfTwo 211 = 2 ^ k /\ 2 ^ k <= 211 < 2 ^ (k + 1))
  /\ (exists image' p,
        startImage (H := exampleHost) "etc1" (format_only "etc1")
          (Some etc2compExtensions) (Some Etc2comp) true "/tmp/run" "A" (png 211 211)
        = Normal (image', p)
        /\ jimpImage image' = Some (resize (H := exampleHost) (decoded 211 211) 128 128)
        /\ bitmap_width (resize (H := exampleHost) (decoded 211 211) 128 128) = 128
        /\ bitmap_height (resize (H := exampleHost) (decoded 211 211) 128 128) = 128
        /\ head (trace p) = Some (Resize 128 128))
  /\ (exists p,
        startImage (H := exampleHost) "astc" (format_only "astc")
          (Some astcencExtensions) (Some Astcenc) true "/tmp/run" "A" (png 128 256)
        = Normal (png 128 256, p)
        /\ Forall (fun e => isResize e = false) (trace p)).
Proof.
  destruct (previousPowerOfTwo_largest_power_below (H := exampleHost)) as (P1 & P2 & P3).
  split; [apply P1; lia|]. split.
  - apply (P2 "etc1" _ _ _ _ _ _ (decoded 211 211)); reflexivity.
  - apply (P3 "astc" _ _ _ _ _ _ (decoded 128 256) 7 8); try reflexivity; lia.
Defined.

Lemma container_extension_by_format_witness :
  let c := mkCompressed [x01] ".crn" in
  ("crunch-dxt3" ∈ ["pvrtc1"; "pvrtc2"; "etc1"; "etc2"; "astc"; "dxt1"; "dxt3"; "dxt5"]
     -> container c = ".ktx")
  /\ (container c = ".crn" <-> "crunch-dxt3" ∈ ["crunch-dxt1"; "crunch-dxt3"; "crunch-dxt5"])
  /\ extension (replaceImage (png 64 64) c) = container c.
Proof.
  intros c.
  assert (Hs : exists p,
             startImage (H := exampleHost) "crunch-dxt3" (format_only "crunch-dxt3")
               (Some crunchExtensions) (Some Crunch) false "/tmp/run" "A" (png 64 64)
             = Normal (png 64 64, p) /\ outcome p = Fulfilled c).
  { eexists. split; vm_compute; reflexivity. }
  destruct Hs as (p & Hs & Hc).
  apply (container_extension_by_format (H := exampleHost) "crunch-dxt3"
           (format_only "crunch-dxt3") (Some crunchExtensions) (Some Crunch) false
           "/tmp/run" "A" (png 64 64) (png 64 64) p c);
    [decide_true|reflexivity|exact Hs|exact Hc].
Defined.

Lemma passthrough_without_resize_flag_witness :
  exists p,
    startImage (H := exampleHost) "dxt1" (format_only "dxt1")
      (Some crunchExtensions) (Some Crunch) false "/tmp/run" "B" (embedded_png 211 211)
    = Normal (embedded_png 211 211, p)
    /\ Forall (fun e => isPixelOperation e = false) (trace p)
    /\ head (trace p) = Some (WriteFile "/tmp/run/in-B.png" (source (embedded_png 211 211))).
Proof.
  destruct (passthrough_without_resize_flag (H := exampleHost) "dxt1" (format_only "dxt1")
              "/tmp/run" "B" (embedded_png 211 211)) as [Hpass _].
  destruct (Hpass crunchExtensions (Some Crunch)) as (p & Hs & Hf & Ht);
    [decide_true|reflexivity|reflexivity|decide_true|reflexivity|].
  exists p. split; [exact Hs|]. split; [exact Hf|].
  simpl in Ht. destruct Ht as (after & -> & _). reflexivity.
Defined.

(** Under etc1 a png whose dimensions are powers of two and that has not
    changed is nevertheless decoded and encoded again. *)
Lemma etc1_encodes_power_of_two_png_again :
  extension (png 128 128) ∈ etc2compExtensions
  /\ isPowerOfTwo 128 = Normal true
  /\ imageChanged (png 128 128) = false
  /\ exists p,
       started (compressTextures (H := exampleHost)
                  (Some (mkGltf [("A", png 128 128)])) (Some (format_only "etc1")))
       = [("A", p)]
       /\ ~ Forall (fun e => isPixelOperation e = false) (trace p).
Proof.
  split; [decide_true|]. split; [reflexivity|]. split; [reflexivity|].
  eexists. split; [vm_compute; reflexivity|].
  intros Hf. inversion Hf as [|e l He Hl]. discriminate He.
Qed.

Lemma invalid_options_throw_synchronously_witness :
  Forall (fun options =>
            exists message,
              returned (compressTextures (H := exampleHost)
                          (Some (mkGltf [("A", png 211 211)])) (Some options))
              = Throw (DeveloperError message)
              /\ started (compressTextures (H := exampleHost)
                            (Some (mkGltf [("A", png 211 211)])) (Some options)) = [])
    [format_only "invalid-format"; etc1_quality_11; pvrtc1_bitrate_3; astc_blockSize_1x1].
Proof.
  repeat constructor; apply (invalid_options_throw_synchronously (H := exampleHost)).
  - left. reflexivity.
  - right. left. reflexivity.
  - right. right. left. repeat split; try reflexivity. left. reflexivity.
  - right. right. right. repeat split; reflexivity.
Defined.

Lemma defaults_written_into_options_witness :
  let after :=
    optionsAfter (compressTextures (H := exampleHost) (Some (mkGltf []))
                    (Some etc1_quality_11)) in
  (after !! "bitrate" = Some (VNumber (Fin 2))
   /\ after !! "quality" = Some (VNumber (Fin 11))
   /\ after !! "format" = Some (VString "etc1"))
  /\ optionsAfter (compressTextures (H := exampleHost) (Some (mkGltf []))
                     (Some (format_only "webp"))) = format_only "webp"
  /\ optionsAfter (compressTextures (H := exampleHost) None (Some etc1_quality_11))
     = etc1_quality_11.
Proof.
  destruct (defaults_written_into_options (H := exampleHost) (mkGltf []) etc1_quality_11)
    as (Hwritten & Hnone & _).
  destruct (Hwritten ltac:(vm_compute; reflexivity)) as [Hkeys Hother].
  split; [split; [|split]|split].
  - apply (Hkeys "bitrate" (VNumber (Fin 2))); [decide_true|reflexivity].
  - rewrite (proj2 (Hkeys "quality" (VNumber (Fin 5)) ltac:(decide_true)));
      [reflexivity|discriminate].
  - rewrite Hother; [reflexivity|]. intros Hin. decide_false Hin.
  - destruct (proj1 (proj2 (defaults_written_into_options (H := exampleHost) (mkGltf [])
                              (format_only "webp")))
                (Some (mkGltf [])) ltac:(right; vm_compute; reflexivity))
      as (message & _ & Hsame & _).
    exact Hsame.
  - destruct (Hnone None ltac:(left; reflexivity)) as (message & _ & Hsame & _).
    exact Hsame.
Defined.

(** With a format that is not supported the call throws before the
    defaults are written: the caller does not find them in the object. *)
Lemma defaults_not_written_for_unsupported_format :
  get (format_only "webp") "quality" = VUndefined
  /\ optionsAfter (compressTextures (H := exampleHost) (Some (mkGltf []))
                     (Some (format_only "webp"))) !! "quality"
     <> Some (VNumber (Fin 5)).
Proof.
  split; [reflexivity|]. vm_compute. discriminate.
Qed.

Lemma undecoded_image_throws_and_stops_witness :
  let gltf := mkGltf [("A", png 211 211); ("G", gif); ("B", embedded_png 128 128)] in
  returned (compressTextures (H := exampleHost) (Some gltf) (Some (format_only "etc1")))
  = Throw (DeveloperError
             ("The input image format " ++ quote ++ "etc1" ++ quote
              ++ " is not supported for texture compression."))
  /\ (started (compressTextures (H := exampleHost) (Some gltf)
                 (Some (format_only "etc1")))).*1 = ["A"].
Proof.
  intros gltf.
  apply (undecoded_image_throws_and_stops (H := exampleHost) gltf (format_only "etc1") "etc1"
           (Some etc2compExtensions) (Some Etc2comp) true
           [("A", png 211 211)] "G" gif [("B", embedded_png 128 128)]).
  - reflexivity.
  - decide_true.
  - vm_compute. reflexivity.
  - reflexivity.
  - reflexivity.
  - constructor; [|constructor]. eexists. vm_compute. reflexivity.
  - reflexivity.
  - reflexivity.
Defined.

(** The image after the one that cannot be decoded is never started. *)
Lemma sibling_of_undecoded_image_never_started :
  let gltf := mkGltf [("A", png 211 211); ("G", gif); ("B", embedded_png 128 128)] in
  let o := compressTextures (H := exampleHost) (Some gltf) (Some (format_only "etc1")) in
  needsRawImage true (Some etc2compExtensions) gif = Normal true
  /\ jimpImage gif = None
  /\ (exists message, returned o = Throw (DeveloperError message))
  /\ ~ (forall imageId, imageId ∈ (images gltf).*1 -> imageId <> "G" ->
                        imageId ∈ (started o).*1).
Proof.
  intros gltf o. split; [reflexivity|]. split; [reflexivity|].
  split; [eexists; vm_compute; reflexivity|].
  intros Hall. specialize (Hall "B" ltac:(decide_true) ltac:(discriminate)).
  assert (Hs : (started o).*1 = ["A"]) by (vm_compute; reflexivity).
  rewrite Hs in Hall. decide_false Hall.
Qed.

Lemma quality_tier_names_defined_witness :
  exists tier : Z,
    Math_floor (div_by (Fin 7) lit_2_1) = Fin (inject_Z tier) /\ 0 <= tier <= 4.
Proof.
  destruct (quality_tier_names_defined (H := exampleHost) pvrtc1_quality_7 7)
    as (tier & Ht & Hr & _).
  - reflexivity.
  - discriminate.
  - discriminate.
  - exists tier. split; [exact Ht|exact Hr].
Defined.

(** *** The returned promise *)

Lemma removal_starts_at_first_rejection_witness :
  log (run partlyFailing [EnsureDirDone None; Settles 0; Settles 1; RemoveDone])
  = [TaskSettled 0 false; RemoveCalled "/tmp/run"; BatchSettled false;
     TaskSettled 1 true; RemoveFinished].
Proof.
  destruct (awaited partlyFailing !! 0%nat) as [pa|] eqn:Ea; [|vm_compute in Ea; discriminate].
  destruct (awaited partlyFailing !! 1%nat) as [pb|] eqn:Eb; [|vm_compute in Eb; discriminate].
  destruct (outcome pa.2) as [c|r] eqn:Er.
  { vm_compute in Ea. injection Ea as <-. vm_compute in Er. discriminate. }
  rewrite (removal_starts_at_first_rejection partlyFailing 0 1 pa pb r
             ltac:(discriminate) Ea Er Eb).
  vm_compute in Eb. injection Eb as <-. reflexivity.
Defined.

(** *** parseKTX: further properties *)

Lemma accepted_container_is_little_endian_ktx_witness :
  parseKTX (PF := CesiumPixelFormat) (OfArrayBuffer dxt1_one_level) = Normal parsed_one_level
  /\ byte_value <$> take 12 dxt1_one_level = fileIdentifier
  /\ Invariants.field (OfArrayBuffer dxt1_one_level) 12 = Normal 0x04030201.
Proof.
  assert (Hp : parseKTX (PF := CesiumPixelFormat) (OfArrayBuffer dxt1_one_level)
               = Normal parsed_one_level) by (vm_compute; reflexivity).
  split; [exact Hp|].
  exact (accepted_container_is_little_endian_ktx (PF := CesiumPixelFormat) _ _ Hp).
Defined.

Lemma result_fields_come_from_header_witness :
  parseKTX (PF := CesiumPixelFormat) (OfArrayBuffer dxt1_one_level) = Normal parsed_one_level
  /\ Invariants.field (OfArrayBuffer dxt1_one_level) 36 = Normal 4
  /\ Invariants.field (OfArrayBuffer dxt1_one_level) 40 = Normal 4.
Proof.
  assert (Hp : parseKTX (PF := CesiumPixelFormat) (OfArrayBuffer dxt1_one_level)
               = Normal parsed_one_level) by (vm_compute; reflexivity).
  split; [exact Hp|].
  destruct (result_fields_come_from_header (PF := CesiumPixelFormat) _ _ Hp)
    as (f & _ & _ & _ & Hw & Hh & _).
  split; [exact Hw|exact Hh].
Defined.

Lemma accepted_container_has_supported_features_witness :
  parseKTX (PF := CesiumPixelFormat) (OfArrayBuffer dxt1_one_level) = Normal parsed_one_level
  /\ Invariants.field (OfArrayBuffer dxt1_one_level) 44 = Normal 0
  /\ Invariants.field (OfArrayBuffer dxt1_one_level) 48 = Normal 0
  /\ Invariants.field (OfArrayBuffer dxt1_one_level) 52 = Normal 1.
Proof.
  assert (Hp : parseKTX (PF := CesiumPixelFormat) (OfArrayBuffer dxt1_one_level)
               = Normal parsed_one_level) by (vm_compute; reflexivity).
  split; [exact Hp|].
  destruct (accepted_container_has_supported_features (PF := CesiumPixelFormat) _ _ Hp)
    as (Hd & Ha & Hf & _).
  split; [exact Hd|]. split; [exact Ha|exact Hf].
Defined.

Lemma single_level_view_aliases_buffer_witness :
  parseKTX (PF := CesiumPixelFormat) (OfArrayBuffer dxt1_one_level) = Normal parsed_one_level
  /\ exists keyValueBytes imageSize,
       bufferView parsed_one_level = mkUint8Array dxt1_one_level (68 + keyValueBytes) imageSize
       /\ elements (bufferView parsed_one_level)
          = slice dxt1_one_level (68 + keyValueBytes) imageSize.
Proof.
  assert (Hp : parseKTX (PF := CesiumPixelFormat) (OfArrayBuffer dxt1_one_level)
               = Normal parsed_one_level) by (vm_compute; reflexivity).
  split; [exact Hp|].
  destruct (single_level_view_aliases_buffer (PF := CesiumPixelFormat) dxt1_one_level
              parsed_one_level 1 Hp ltac:(vm_compute; reflexivity) ltac:(right; lia))
    as (kv & size & _ & _ & Hv & _ & He).
  exists kv, size. split; [exact Hv|exact He].
Defined.

Lemma single_level_of_typed_array_is_whole_input_witness :
  parseKTX (PF := CesiumPixelFormat) (OfUint8Array dxt1_in_view) = Normal parsed_in_view
  /\ elements (bufferView parsed_in_view) = elements dxt1_in_view.
Proof.
  assert (Hp : parseKTX (PF := CesiumPixelFormat) (OfUint8Array dxt1_in_view)
               = Normal parsed_in_view) by (vm_compute; reflexivity).
  split; [exact Hp|].
  exact (single_level_of_typed_array_is_whole_input (PF := CesiumPixelFormat) dxt1_in_view
           parsed_in_view 1 Hp ltac:(vm_compute; reflexivity) ltac:(right; lia)).
Defined.

Lemma parseKTX_throws_only_TypeError_or_RangeError_witness :
  exists e,
    parseKTX (PF := CesiumPixelFormat) (OfArrayBuffer truncated) = Throw e
    /\ (e = TypeError "RuntimeError is not a constructor" \/ exists message, e = RangeError message).
Proof.
  eexists. split; [vm_compute; reflexivity|].
  apply (parseKTX_throws_only_TypeError_or_RangeError (PF := CesiumPixelFormat)
           (OfArrayBuffer truncated)).
  vm_compute. reflexivity.
Defined.

(** *** compressTextures: further properties *)

Lemma resizing_shrinks_once_witness :
  resizeStep (H := exampleHost) true (decoded 211 100)
  = Normal (resize (H := exampleHost) (decoded 211 100) 128 64, [Resize 128 64])
  /\ resizeStep (H := exampleHost) true (resize (H := exampleHost) (decoded 211 100) 128 64)
     = Normal (resize (H := exampleHost) (decoded 211 100) 128 64, []).
Proof.
  assert (Hr : resizeStep (H := exampleHost) true (decoded 211 100)
               = Normal (resize (H := exampleHost) (decoded 211 100) 128 64, [Resize 128 64]))
    by (vm_compute; reflexivity).
  split; [exact Hr|].
  destruct (resizing_shrinks_once (H := exampleHost) (decoded 211 100) _ _
              ltac:(simpl; lia) ltac:(simpl; lia) Hr) as (_ & _ & Hagain).
  exact Hagain.
Defined.

Lemma previousPowerOfTwo_monotone_and_fixed_points_witness :
  previousPowerOfTwo 100 <= previousPowerOfTwo 211
  /\ (previousPowerOfTwo 211 = 211 <-> exists k, 0 <= k /\ 211 = 2 ^ k).
Proof.
  apply (previousPowerOfTwo_monotone_and_fixed_points 100 211); lia.
Defined.

Lemma returned_promise_awaits_every_image_witness :
  returned (compressTextures (H := failingHost) (Some two_images) (Some (format_only "etc1")))
  = Normal partlyFailing
  /\ (awaited partlyFailing).*1 = (images two_images).*1.
Proof.
  assert (Hr : returned (compressTextures (H := failingHost) (Some two_images)
                           (Some (format_only "etc1"))) = Normal partlyFailing)
    by (vm_compute; reflexivity).
  split; [exact Hr|].
  destruct (returned_promise_awaits_every_image (H := failingHost) two_images
              (Some (format_only "etc1")) partlyFailing Hr) as (_ & Hnames & _).
  exact Hnames.
Defined.

Lemma task_steps_in_order_witness :
  StronglySorted Nat.lt (Invariants.stage <$> trace (promiseAt partlyFailing 0).2).
Proof.
  apply (task_steps_in_order (H := failingHost) two_images (Some (format_only "etc1"))
           (promiseAt partlyFailing 0)).
  apply list_elem_of_lookup_2 with 0%nat. vm_compute. reflexivity.
Defined.

Lemma fulfilled_task_read_encoder_output_witness :
  exists before toolPath args,
    trace (promiseAt partlyFailing 1).2
    = (before ++ [Spawn toolPath args; ReadFile "/tmp/run/out-B.ktx"])%list
    /\ child_process_spawn (Host := failingHost) toolPath args = ExitCode 0.
Proof.
  destruct (fulfilled_task_read_encoder_output (H := failingHost) two_images
              (Some (format_only "etc1")) "B" (promiseAt partlyFailing 1).2
              (mkCompressed [x01] ".ktx")
              ltac:(apply list_elem_of_lookup_2 with 1%nat; vm_compute; reflexivity)
              ltac:(vm_compute; reflexivity))
    as (before & toolPath & args & Ht & _ & _ & Hexit & _).
  exists before, toolPath, args. split; [exact Ht|exact Hexit].
Defined.

Lemma failed_encoder_rejects_without_reading_witness :
  outcome (promiseAt partlyFailing 0).2
  = Rejected (Message ("Converter tool exited with an error code of " ++ "n"))
  /\ forall path, ReadFile path ∉ trace (promiseAt partlyFailing 0).2.
Proof.
  apply (failed_encoder_rejects_without_reading (H := failingHost) two_images
           (Some (format_only "etc1")) (promiseAt partlyFailing 0)
           (toolOf (operationAt (promiseAt partlyFailing 0).2 3))
           (argumentsOf (operationAt (promiseAt partlyFailing 0).2 3))).
  - apply list_elem_of_lookup_2 with 0%nat. vm_compute. reflexivity.
  - apply list_elem_of_lookup_2 with 3%nat. vm_compute. reflexivity.
  - vm_compute. discriminate.
Defined.

Lemma written_file_is_encoder_input_witness :
  (exists extension,
     "/tmp/run/in-A.png"
     = getTempImagePath (H := failingHost) (InputOf "A") (getTempDirectory (H := failingHost))
         extension)
  /\ forall toolPath args,
       Spawn toolPath args ∈ trace (promiseAt partlyFailing 0).2 ->
       VString "/tmp/run/in-A.png" ∈ args.
Proof.
  destruct (written_file_is_encoder_input (H := failingHost) two_images
              (Some (format_only "etc1")) "A" (promiseAt partlyFailing 0).2
              "/tmp/run/in-A.png" []
              ltac:(apply list_elem_of_lookup_2 with 0%nat; vm_compute; reflexivity)
              ltac:(apply list_elem_of_lookup_2 with 2%nat; vm_compute; reflexivity))
    as (Hname & _ & Hspawn).
  split; [exact Hname|]. intros toolPath args Hin. apply (Hspawn toolPath args Hin).
Defined.

Lemma encoded_pixels_are_the_stored_pixels_witness :
  jimpImage ("A", mkPipelineExtras (Some "/model/logo.png") (Some (mkJimpImage 128 128 []))
                    [x02] false ".png" false).2
  = Some (mkJimpImage 128 128 [])
  /\ forall w h, Resize w h ∈ trace (promiseAt partlyFailing 0).2 -> w = 128 /\ h = 128.
Proof.
  destruct (encoded_pixels_are_the_stored_pixels (H := failingHost) two_images
              (Some (format_only "etc1")) 0 "A" (promiseAt partlyFailing 0).2
              ("A", mkPipelineExtras (Some "/model/logo.png") (Some (mkJimpImage 128 128 []))
                      [x02] false ".png" false)
              (mkJimpImage 128 128 [])
              ltac:(vm_compute; reflexivity) ltac:(vm_compute; reflexivity)
              ltac:(apply list_elem_of_lookup_2 with 1%nat; vm_compute; reflexivity))
    as (_ & Hj & Hr & _).
  split; [exact Hj|exact Hr].
Defined.

Lemma compressTextures_throws_only_DeveloperError_witness :
  exists message,
    DeveloperError ("The input image format " ++ quote ++ "etc1" ++ quote
                    ++ " is not supported for texture compression.")
    = DeveloperError message.
Proof.
  apply (compressTextures_throws_only_DeveloperError (H := exampleHost)
           (Some (mkGltf [("A", png 211 211); ("G", gif)])) (Some (format_only "etc1"))).
  vm_compute. reflexivity.
Defined.

Lemma encoder_arguments_are_defined_witness :
  VUndefined ∉ argumentsOf (operationAt (promiseAt partlyFailing 1).2 2).
Proof.
  apply (encoder_arguments_are_defined (H := failingHost) two_images (format_only "etc1")
           (promiseAt partlyFailing 1)
           (toolOf (operationAt (promiseAt partlyFailing 1).2 2))).
  - apply list_elem_of_lookup_2 with 1%nat. vm_compute. reflexivity.
  - left. vm_compute. reflexivity.
  - apply list_elem_of_lookup_2 with 2%nat. vm_compute. reflexivity.
Defined.

Lemma non_numeric_quality_passes_the_check_witness :
  Compress.options
    (compressWithPVRTexTool (H := exampleHost) "in.png" "out.ktx"
       (setDefaults pvrtc1_quality_high)) !! 7%nat
  = Some VUndefined.
Proof.
  destruct (non_numeric_quality_passes_the_check (H := exampleHost) "pvrtc1"
              pvrtc1_quality_high "in.png" "out.ktx"
              ltac:(vm_compute; reflexivity) ltac:(vm_compute; reflexivity))
    as (_ & Hname & _).
  exact Hname.
Defined.

Lemma crunch_container_changes_only_file_format_witness :
  exists cli,
    compressWithCrunch (H := exampleHost) "in.png" "out.ktx"
      (<[ "format" := VString "dxt1" ]> (format_only "dxt5")) = Normal cli
    /\ Compress.options cli !! 5%nat = Some (VString "ktx").
Proof.
  destruct (crunch_container_changes_only_file_format (H := exampleHost)
              (format_only "dxt5") "dxt1" "in.png" "out.ktx" ltac:(decide_true))
    as (cli & Hcli & Hktx & _).
  exists cli. split; [exact Hcli|exact Hktx].
Defined.

Lemma defaults_pass_the_checks_witness :
  checkOptions (H := exampleHost) "astc" (setDefaults (format_only "astc")) = Normal tt.
Proof.
  apply (defaults_pass_the_checks (H := exampleHost) (format_only "astc") "astc").
  - decide_true.
  - vm_compute. reflexivity.
  - vm_compute. reflexivity.
  - vm_compute. reflexivity.
Defined.

Lemma resize_only_to_previous_powers_of_two_witness :
  exists given image jimp,
    Some (format_only "etc1") = Some given
    /\ ("A", image) ∈ images two_images
    /\ jimpImage image = Some jimp
    /\ 128 = previousPowerOfTwo (bitmap_width jimp).
Proof.
  destruct (resize_only_to_previous_powers_of_two (H := failingHost) two_images
              (Some (format_only "etc1")) (promiseAt partlyFailing 0) 128 128
              ltac:(apply list_elem_of_lookup_2 with 0%nat; vm_compute; reflexivity)
              ltac:(apply list_elem_of_lookup_2 with 0%nat; vm_compute; reflexivity))
    as (given & image & jimp & Hg & _ & Hi & Hj & Hw & _).
  exists given, image, jimp. repeat (split; [assumption|]). exact Hw.
Defined.

Lemma astc_block_size_used_only_at_bitrate_2_witness :
  exists cli,
    compressWithAstcenc (H := exampleHost) "in.png" "out.ktx" (setDefaults (format_only "astc"))
    = Normal cli
    /\ Compress.options cli !! 3%nat = Some (VString "8x8").
Proof.
  apply (proj1 (astc_block_size_used_only_at_bitrate_2 (H := exampleHost)
                  (setDefaults (format_only "astc")) "in.png" "out.ktx")).
  vm_compute. reflexivity.
Defined.

(** *** The returned promise: further properties *)

Lemma fulfilled_batch_means_every_task_fulfilled_witness :
  RemoveCalled (tempDirectory allFine)
  ∈ log (run allFine [Settles 1; EnsureDirDone None; Settles 0]).
Proof.
  apply (fulfilled_batch_means_every_task_fulfilled allFine
           [Settles 1; EnsureDirDone None; Settles 0]).
  vm_compute. reflexivity.
Defined.

Lemma removal_at_most_once_and_never_without_directory_witness :
  batch (run partlyFailing [Settles 1; EnsureDirDone (Some (SystemError "EACCES")); Settles 0])
  = Some false
  /\ RemoveCalled (tempDirectory partlyFailing)
     ∉ log (run partlyFailing
              [Settles 1; EnsureDirDone (Some (SystemError "EACCES")); Settles 0]).
Proof.
  apply (proj2 (removal_at_most_once_and_never_without_directory partlyFailing
                  [Settles 1; EnsureDirDone (Some (SystemError "EACCES")); Settles 0])
           [Settles 1] (SystemError "EACCES") [Settles 0] eq_refl).
  intros failure Hin. apply list_elem_of_singleton in Hin. discriminate.
Defined.

Lemma directory_removed_once_all_settled_witness :
  batch (run partlyFailing [Settles 1; EnsureDirDone None; Settles 0]) = Some false
  /\ Invariants.removals partlyFailing
       (run partlyFailing [Settles 1; EnsureDirDone None; Settles 0]) = 1%nat.
Proof.
  apply (directory_removed_once_all_settled partlyFailing
           [Settles 1; EnsureDirDone None; Settles 0]).
  - right. left.
  - intros e Hin. repeat (apply elem_of_cons in Hin as [Hin|Hin]; [discriminate|]).
    inversion Hin.
  - intros i Hi. change (List.length (awaited partlyFailing)) with 2%nat in Hi.
    destruct i as [|[|i]]; [right; right; left|left|lia].
Defined.

End Instances.
